(** * ChemEx: pure in-phase CEST profile and CPMG profile reading

    A shallow embedding of
      - [chemex/experiments/cest/profiles/ip_1h_eq_b.py] (class [Profile]:
        [__init__], [calculate_unscaled_profile], [filter_points]) and
      - [chemex/experiments/cpmg/reading.py] ([read_profiles],
        [name_experiment]),
    followed by the properties of these functions.

    Conventions of the embedding.
      - A Python call that may raise is a computation in the [result] monad;
        a method that mutates [self] returns the final object next to its
        outcome, so that a mutation made before an exception stays visible.
      - numpy's float64 is an instance of the interface [Scalar]: the
        definitions are written once over the interface and are run on the
        binary64 instance [float_scalar]; a property that depends on the
        arithmetic is stated on that instance, or on the exact instance
        [R_scalar] where the statement says so.
      - scipy and numpy routines that are not part of the repository
        ([linalg.eig], [linalg.inv], [linalg.expm], [np.exp]) are the fields
        of the interface [SciPy]; repository modules that are imported but
        whose text is not available ([chemex.bases.*.ixyz_eq], [cest_profile],
        [base_profile], [cpmg.util], the CPMG profile classes) are fields of
        the interfaces [Chemex] and [reading.Env]. *)

From Stdlib Require Import Reals Lra Floats Ascii.
From stdpp Require Import gmap strings list.

Set Default Proof Using "Type".
Open Scope string_scope.

(** ** Python exceptions and the result monad *)

Module Py.

Inductive exn : Type :=
| KeyError (key : string)
| IndexError
| ValueError
| TypeError
| AttributeError
| ZeroDivisionError
| LinAlgError
| ImportError
| OSError.

Inductive result (A : Type) : Type :=
| Ok (a : A)
| Raise (e : exn).
Arguments Ok {A} a.
Arguments Raise {A} e.

Definition bind {A B : Type} (c : result A) (k : A -> result B) : result B :=
  match c with
  | Ok a => k a
  | Raise e => Raise e
  end.

Definition is_ok {A : Type} (c : result A) : bool :=
  match c with Ok _ => true | Raise _ => false end.

(** A list comprehension (or a [for] loop that appends) whose body may
    raise: the elements are evaluated from left to right and the first
    exception aborts the whole comprehension. *)
Fixpoint for_each {A B : Type} (f : A -> result B) (l : list A) : result (list B) :=
  match l with
  | [] => Ok []
  | x :: l' =>
      bind (f x) (fun y => bind (for_each f l') (fun ys => Ok (y :: ys)))
  end.

(** [d[key]] on a dict. *)
Definition getitem {V : Type} (d : gmap string V) (key : string) : result V :=
  match d !! key with
  | Some v => Ok v
  | None => Raise (KeyError key)
  end.

(** [a[i]] on a sequence, for a non-negative index. *)
Definition index {A : Type} (a : list A) (i : nat) : result A :=
  match a !! i with
  | Some x => Ok x
  | None => Raise IndexError
  end.

(** [sub in s] on strings. *)
Fixpoint is_prefix (p s : string) : bool :=
  match p, s with
  | EmptyString, _ => true
  | String a p', String b s' => if decide (a = b) then is_prefix p' s' else false
  | String _ _, EmptyString => false
  end.

Fixpoint contains (sub s : string) : bool :=
  is_prefix sub s ||
  match s with
  | EmptyString => false
  | String _ s' => contains sub s'
  end.

End Py.

Import Py.

#[export] Instance result_ret : MRet Py.result := @Py.Ok.
#[export] Instance result_bind : MBind Py.result := fun A B k c => Py.bind c k.

(** ** Scalars: numpy's float64 *)

Class Scalar (F : Type) : Type := {
  f_zero : F;                      (* 0.0 *)
  f_one : F;                       (* 1.0 *)
  f_two : F;                       (* 2.0 *)
  f_half : F;                      (* 0.5 *)
  f_tenth : F;                     (* 0.1 *)
  f_pi : F;                        (* np.pi *)
  f_add : F -> F -> F;
  f_sub : F -> F -> F;
  f_mul : F -> F -> F;
  f_div : F -> F -> F;
  f_abs : F -> F;
  f_gtb : F -> F -> bool;          (* x > y *)
  f_ltb : F -> F -> bool;          (* x < y *)
  f_eqb : F -> F -> bool;          (* x == y *)
  f_is_inf : F -> bool;            (* x == np.inf *)
  f_of_nat : nat -> F              (* the float of a count *)
}.

(** The exact instance: arithmetic without rounding, overflow or NaN.  The
    real line has no infinite element, so the test [x == np.inf] is never
    true on it.  The program runs on the binary64 instance below; a
    statement about the exact instance says so. *)
#[export] Instance R_scalar : Scalar R := {|
  f_zero := 0%R;
  f_one := 1%R;
  f_two := 2%R;
  f_half := 0.5%R;
  f_tenth := 0.1%R;
  f_pi := PI;
  f_add := Rplus;
  f_sub := Rminus;
  f_mul := Rmult;
  f_div := Rdiv;
  f_abs := Rabs;
  f_gtb := fun x y => if Rgt_dec x y then true else false;
  f_ltb := fun x y => if Rlt_dec x y then true else false;
  f_eqb := fun x y => if Req_dec_T x y then true else false;
  f_is_inf := fun _ => false;
  f_of_nat := INR
|}.

(** The binary64 instance, on Rocq's primitive floats. *)
#[export] Instance float_scalar : Scalar float := {|
  f_zero := 0%float;
  f_one := 1%float;
  f_two := 2%float;
  f_half := 0.5%float;
  f_tenth := 0x1.999999999999ap-4%float;
  f_pi := 0x1.921fb54442d18p+1%float;
  f_add := PrimFloat.add;
  f_sub := PrimFloat.sub;
  f_mul := PrimFloat.mul;
  f_div := PrimFloat.div;
  f_abs := PrimFloat.abs;
  f_gtb := fun x y => PrimFloat.ltb y x;
  f_ltb := PrimFloat.ltb;
  f_eqb := PrimFloat.eqb;
  f_is_inf := fun x => PrimFloat.eqb x infinity;
  f_of_nat := fun n => PrimFloat.of_uint63 (Uint63.of_Z (Z.of_nat n))
|}.

(** Complex numbers, as numpy's complex128: a pair of scalars. *)
Record complex (F : Type) : Type := Cplx { re : F; im : F }.
Arguments Cplx {F} re im.
Arguments re {F} c.
Arguments im {F} c.

Section ComplexOps.
Context {F : Type} {scalar : Scalar F}.

Definition c_of_real (x : F) : complex F := Cplx x f_zero.
Definition c_zero : complex F := Cplx f_zero f_zero.
Definition c_add (a b : complex F) : complex F :=
  Cplx (f_add (re a) (re b)) (f_add (im a) (im b)).
Definition c_mul (a b : complex F) : complex F :=
  Cplx (f_sub (f_mul (re a) (re b)) (f_mul (im a) (im b)))
       (f_add (f_mul (re a) (im b)) (f_mul (im a) (re b))).
End ComplexOps.

(** ** numpy arrays

    A one-dimensional array is a list.  A two-dimensional array is the list
    of its rows together with its number of columns, which a list of rows
    alone would lose for an array without rows. *)

Record matrix (T : Type) : Type := Mat { ncols : nat; rows : list (list T) }.
Arguments Mat {T} ncols rows.
Arguments ncols {T} m.
Arguments rows {T} m.

Definition nrows {T : Type} (M : matrix T) : nat := length (rows M).

Definition mat_map {A B : Type} (f : A -> B) (M : matrix A) : matrix B :=
  Mat (ncols M) (map (map f) (rows M)).

(** An elementwise binary operation on two arrays of the same shape. *)
Definition mat_zip {A B C : Type} (f : A -> B -> C) (M : matrix A) (N : matrix B) :
  matrix C :=
  Mat (ncols M) (zip_with (zip_with f) (rows M) (rows N)).

(** [a[idx]] for a list [idx] of positions. *)
Definition np_take {A : Type} (a : list A) (idx : list nat) : result (list A) :=
  for_each (index a) idx.

(** [M[np.ix_(rs, cs)]]: the entries at the rows [rs] and the columns [cs].
    An entry is looked up, and its position checked, only when it is part of
    the result. *)
Definition np_ix {A : Type} (rs cs : list nat) (M : matrix A) : result (matrix A) :=
  rws ← for_each (fun r => for_each (fun c => row ← index (rows M) r; index row c) cs) rs;
  Ok (Mat (length cs) rws).

(** [a[mask]] for a boolean array [mask]: the lengths have to agree. *)
Fixpoint mask_select {A : Type} (a : list A) (mask : list bool) : list A :=
  match a, mask with
  | x :: a', b :: mask' => if b then x :: mask_select a' mask' else mask_select a' mask'
  | _, _ => []
  end.

Definition np_mask {A : Type} (a : list A) (mask : list bool) : result (list A) :=
  if decide (length mask = length a) then Ok (mask_select a mask) else Raise IndexError.

(** [[i for i, x in enumerate(l) if p(x)]] *)
Definition positions_where {A : Type} (p : A -> bool) (l : list A) : list nat :=
  omap (fun '(i, x) => if p x then Some i else None) (imap (fun i x => (i, x)) l).

Section Arithmetic.
Context {T : Type} (zero : T) (add mul : T -> T -> T).

(** A sum, accumulated from the left. *)
Definition np_sum (l : list T) : T :=
  match l with
  | [] => zero
  | x :: l' => foldl add x l'
  end.

Definition vdot (u v : list T) : T := np_sum (zip_with mul u v).

Definition column (j : nat) (M : matrix T) : list T :=
  map (fun r => default zero (r !! j)) (rows M).

(** [A.dot(B)] for two-dimensional arrays. *)
Definition mat_dot (A B : matrix T) : result (matrix T) :=
  if decide (ncols A = nrows B)
  then Ok (Mat (ncols B)
             (map (fun r => map (fun j => vdot r (column j B)) (seq 0 (ncols B))) (rows A)))
  else Raise ValueError.

(** [A.dot(v)] for a two-dimensional [A] and a one-dimensional [v]. *)
Definition mat_vec (A : matrix T) (v : list T) : result (list T) :=
  if decide (ncols A = length v)
  then Ok (map (fun r => vdot r v) (rows A))
  else Raise ValueError.

(** [np.diag(v)] for a one-dimensional [v]. *)
Definition np_diag (v : list T) : matrix T :=
  Mat (length v)
    (imap (fun i x => map (fun j => if decide (i = j) then x else zero) (seq 0 (length v))) v).

(** The sum of a non-empty stack of arrays of one shape along its first axis. *)
Definition mat_sum (Ms : list (matrix T)) : matrix T :=
  match Ms with
  | [] => Mat 0 []
  | M :: Ms' => foldl (mat_zip add) M Ms'
  end.

End Arithmetic.

Section Float64.
Context {F : Type} {scalar : Scalar F}.

Definition f_sum : list F -> F := np_sum f_zero f_add.

(** [np.mean(l)] *)
Definition np_mean (l : list F) : F := f_div (f_sum l) (f_of_nat (length l)).

(** [np.average(a, weights=w, axis=0)] for a list [a] of two-dimensional
    arrays of one shape and a one-dimensional [w]:
    [np.multiply(a, w).sum(axis=0) / w.sum()], after the checks numpy makes
    on the shapes and on the sum of the weights. *)
Definition np_average (a : list (matrix F)) (w : list F) : result (matrix F) :=
  if decide (length w = length a) then
    let scl := f_sum w in
    if f_eqb scl f_zero then Raise ZeroDivisionError
    else
      let weighted := zip_with (fun M wk => mat_map (fun x => f_mul x wk) M) a w in
      Ok (mat_map (fun x => f_div x scl) (mat_sum f_add weighted))
  else Raise ValueError.

Definition c_dot := mat_dot (c_zero (F:=F)) c_add c_mul.
Definition c_vec := mat_vec (c_zero (F:=F)) c_add c_mul.
Definition c_diag := np_diag (c_zero (F:=F)).
Definition f_vec := mat_vec f_zero f_add f_mul.

End Float64.

(** A two-dimensional array of dtype float64 or complex128. *)
Inductive ndarray2 (F : Type) : Type :=
| RealArr (M : matrix F)
| CplxArr (M : matrix (complex F)).
Arguments RealArr {F} M.
Arguments CplxArr {F} M.

(** ** Python values the repository passes around *)

(** An entry of the experiment-details dict: a string or a number. *)
Inductive pyval (F : Type) : Type :=
| PStr (s : string)
| PNum (x : F).
Arguments PStr {F} s.
Arguments PNum {F} x.

(** The rows [np.loadtxt] reads with the dtype of [read_profiles]: the fields
    [ncycs], [intensities] and [intensities_err]. *)
Record measurement (F : Type) : Type :=
  Measurement { ncycs : F; intensities : F; intensities_err : F }.
Arguments Measurement {F} ncycs intensities intensities_err.
Arguments ncycs {F} m.
Arguments intensities {F} m.
Arguments intensities_err {F} m.

(** An lmfit [Parameter], reduced to its value and its constraint
    expression. *)
Record parameter (F : Type) : Type := Param { value : F; expr : option string }.
Arguments Param {F} value expr.
Arguments value {F} p.
Arguments expr {F} p.

(** [param.expr = e] *)
Definition set_expr {F : Type} (p : parameter F) (e : string) : parameter F :=
  Param (value p) (Some e).

(** [f(k1=v1, ..., **kwargs)]: the keyword arguments the callee receives;
    Python refuses a keyword given twice. *)
Fixpoint call_kw {F : Type} (explicit : list (string * F)) (kwargs : gmap string F) :
  result (gmap string F) :=
  match explicit with
  | [] => Ok kwargs
  | (k, v) :: rest =>
      match kwargs !! k with
      | Some _ => Raise TypeError
      | None => kw ← call_kw rest kwargs; Ok (<[k := v]> kw)
      end
  end.

(** ** The state-space bases [chemex.bases.*.ixyz_eq] *)

Inductive topology : Type := TwoState | ThreeState | FourState.

(** What [Profile] uses of a basis module. *)
Record Basis (F : Type) : Type := {
  compute_liouvillian : gmap string F -> matrix F;
  compute_equilibrium_after_d1 : gmap string F -> list F;
  create_default_params :
    string -> string -> F -> F -> option F -> option F ->
    gmap string string * gmap string (parameter F);
  index_iz_eq : list nat;
  index_iz_b : list nat
}.
Arguments compute_liouvillian {F} b kw.
Arguments compute_equilibrium_after_d1 {F} b kw.
Arguments create_default_params {F} b model nuclei temperature h_larmor_frq p_total l_total.
Arguments index_iz_eq {F} b.
Arguments index_iz_b {F} b.

(** ** The CEST profile *)

(** The attributes [cest_profile.CESTProfile.__init__] sets and [Profile]
    reads. *)
Record CESTProfile (F : Type) : Type := {
  profile_name : string;
  model : string;
  b1_offsets : list F;
  val : list F;
  err : list F;
  reference : list bool;
  carrier : F;
  ppm_i : F;
  omega1s : list F;
  b1_weights : list F;
  b1_inh : F;
  time_t1 : F;
  on_resonance_filter : F;
  resonance_i : gmap string string;
  temperature : F;
  h_larmor_frq : F;
  p_total : option F;
  l_total : option F
}.
Arguments profile_name {F} c.
Arguments model {F} c.
Arguments b1_offsets {F} c.
Arguments val {F} c.
Arguments err {F} c.
Arguments reference {F} c.
Arguments carrier {F} c.
Arguments ppm_i {F} c.
Arguments omega1s {F} c.
Arguments b1_weights {F} c.
Arguments b1_inh {F} c.
Arguments time_t1 {F} c.
Arguments on_resonance_filter {F} c.
Arguments resonance_i {F} c.
Arguments temperature {F} c.
Arguments h_larmor_frq {F} c.
Arguments p_total {F} c.
Arguments l_total {F} c.

(** The object [Profile.__init__] builds: the attributes of the base class
    and those of the class itself. *)
Record Profile (F : Type) : Type := {
  super : CESTProfile F;
  time_d1 : F;
  equilibrium : bool;
  base : Basis F;
  liouvillians_b1 : list (matrix F);
  map_names : gmap string string;
  default_params : gmap string (parameter F)
}.
Arguments super {F} p.
Arguments time_d1 {F} p.
Arguments equilibrium {F} p.
Arguments base {F} p.
Arguments liouvillians_b1 {F} p.
Arguments map_names {F} p.
Arguments default_params {F} p.

(** The library routines of scipy and numpy the profile calls. *)
Class SciPy (F : Type) : Type := {
  linalg_eig : matrix F -> result (list (complex F) * matrix (complex F));
  linalg_inv : matrix (complex F) -> result (matrix (complex F));
  linalg_expm : matrix F -> result (matrix F);
  np_exp : complex F -> complex F
}.

(** The modules of the repository [ip_1h_eq_b] imports. *)
Class Chemex (F : Type) : Type := {
  ixyz_eq : topology -> Basis F;
  cest_profile_init :
    string -> list (measurement F) -> gmap string (pyval F) -> result (CESTProfile F);
  check_par_float : gmap string (pyval F) -> string -> F -> result F;
  check_par_bool : gmap string (pyval F) -> string -> bool -> result bool
}.

Section CEST.
Context {F : Type} {scalar : Scalar F} {scipy : SciPy F} {chemex : Chemex F}.

(** The basis [__init__] imports for a model name: the [if]/[elif]/[else] on
    ['3st' in self.model] and ['4st' in self.model]. *)
Definition select_topology (model : string) : topology :=
  if contains "3st" model then ThreeState
  else if contains "4st" model then FourState
  else TwoState.

(** One turn of the loop of [__init__] over ['r2_i_b'], ['r2_i_c'],
    ['r2_i_d']: the parameter object stored in [default_params] is updated in
    place. *)
Definition tie_r2 (names : gmap string string) (params : gmap string (parameter F))
  (name : string) : result (gmap string (parameter F)) :=
  match names !! name with
  | None => Ok params
  | Some full =>
      param ← getitem params full;
      target ← getitem names "r2_i_a";
      Ok (<[full := set_expr param target]> params)
  end.

Fixpoint tie_r2_all (names : gmap string string) (params : gmap string (parameter F))
  (l : list string) : result (gmap string (parameter F)) :=
  match l with
  | [] => Ok params
  | name :: l' => params' ← tie_r2 names params name; tie_r2_all names params' l'
  end.

(** [Profile.__init__(self, profile_name, measurements, exp_details)] *)
Definition Profile_init (name : string) (measurements : list (measurement F))
  (exp_details : gmap string (pyval F)) : result (Profile F) :=
  sup ← cest_profile_init name measurements exp_details;
  t_d1 ← check_par_float exp_details "time_d1" f_one;
  eq ← check_par_bool exp_details "equilibrium" false;
  let b := ixyz_eq (select_topology (model sup)) in
  let liouv_b1 :=
    map (fun omega1 => compute_liouvillian b {[ "omega1x_i" := omega1 ]}) (omega1s sup) in
  nuclei ← getitem (resonance_i sup) "name";
  let '(names, params) :=
    create_default_params b (model sup) nuclei (temperature sup) (h_larmor_frq sup)
      (p_total sup) (l_total sup) in
  params' ← tie_r2_all names params ["r2_i_b"; "r2_i_c"; "r2_i_d"];
  Ok {| super := sup; time_d1 := t_d1; equilibrium := eq; base := b;
        liouvillians_b1 := liouv_b1; map_names := names; default_params := params' |}.

(** [self.liouvillians_b1 + louvillian_nob1]: the second operand is added to
    every array of the stack; an empty stack cannot be broadcast against
    it. *)
Definition add_nob1 (stack : list (matrix F)) (nob1 : matrix F) : result (list (matrix F)) :=
  match stack with
  | [] => Raise ValueError
  | _ => Ok (map (fun L => mat_zip f_add L nob1) stack)
  end.

(** The positions kept in the ideal regime:
    [[i for i, omega_i_eig in enumerate(s.imag) if abs(omega_i_eig) < 0.1]] *)
Definition slow_modes (s : list (complex F)) : list nat :=
  positions_where (fun omega_i_eig => f_ltb (f_abs omega_i_eig) f_tenth) (map im s).

(** The branch taken when [self.b1_inh == np.inf]. *)
Definition ideal_propagator (self : Profile F) (liouvillians : list (matrix F)) :
  result (ndarray2 F) :=
  let start := index_iz_eq (base self) in
  let end_ := index_iz_b (base self) in
  L0 ← index liouvillians 0;
  '(s, vr) ← linalg_eig L0;
  vri ← linalg_inv vr;
  let sl := slow_modes s in
  vr_sl ← np_ix end_ sl vr;
  s_sl ← np_take s sl;
  let d := c_diag (map (fun x => np_exp (c_mul x (c_of_real (time_t1 (super self))))) s_sl) in
  left ← c_dot vr_sl d;
  vri_sl ← np_ix sl start vri;
  propagator ← c_dot left vri_sl;
  Ok (CplxArr propagator).

(** The branch taken otherwise. *)
Definition averaged_propagator (self : Profile F) (liouvillians : list (matrix F)) :
  result (ndarray2 F) :=
  let start := index_iz_eq (base self) in
  let end_ := index_iz_b (base self) in
  propagators ←
    for_each (fun liouvillian =>
                linalg_expm (mat_map (fun x => f_mul x (time_t1 (super self))) liouvillian))
             liouvillians;
  avg ← np_average propagators (b1_weights (super self));
  propagator ← np_ix end_ start avg;
  Ok (RealArr propagator).

Definition compute_propagator (self : Profile F) (liouvillians : list (matrix F)) :
  result (ndarray2 F) :=
  if f_is_inf (b1_inh (super self))
  then ideal_propagator self liouvillians
  else averaged_propagator self liouvillians.

(** [propagator.dot(v).real]; the conversion [np.float64(magz_b)] that
    follows it leaves the values as they are. *)
Definition dot_real (propagator : ndarray2 F) (v : list F) : result (list F) :=
  match propagator with
  | RealArr M => f_vec M v
  | CplxArr M => u ← c_vec M (map c_of_real v); Ok (map re u)
  end.

(** [(cs_i - self.carrier) * self.ppm_i] for the four states. *)
Definition omega_i_cars (self : Profile F) (kwargs : gmap string F) : list F :=
  map (fun key =>
         f_mul (f_sub (default f_zero (kwargs !! key)) (carrier (super self)))
               (ppm_i (super self)))
      ["cs_i_a"; "cs_i_b"; "cs_i_c"; "cs_i_d"].

(** The Liouvillians of one irradiation offset. *)
Definition liouvillians_at (self : Profile F) (kwargs : gmap string F) (b1_offset : F) :
  result (list (matrix F)) :=
  let shifted :=
    map (fun w => f_sub w (f_mul (f_mul f_two f_pi) b1_offset)) (omega_i_cars self kwargs) in
  kw ← call_kw (zip ["omega_i_a"; "omega_i_b"; "omega_i_c"; "omega_i_d"] shifted) kwargs;
  add_nob1 (liouvillians_b1 self) (compute_liouvillian (base self) kw).

(** The body of the loop of [calculate_unscaled_profile]: the value appended
    to [profile] for one irradiation offset. *)
Definition intensity_at (self : Profile F) (kwargs : gmap string F) (mag0 : list F)
  (b1_offset : F) : result (list F) :=
  liouvillians ← liouvillians_at self kwargs b1_offset;
  propagator ← compute_propagator self liouvillians;
  mag0_start ← np_take mag0 (index_iz_eq (base self));
  dot_real propagator mag0_start.

(** [compute_equilibrium_after_d1(time_d1=self.time_d1, **kwargs)] *)
Definition equilibrium_magnetization (self : Profile F) (kwargs : gmap string F) :
  result (list F) :=
  kw ← call_kw [("time_d1", time_d1 self)] kwargs;
  Ok (compute_equilibrium_after_d1 (base self) kw).

(** [Profile.calculate_unscaled_profile(self, **kwargs)] *)
Definition calculate_unscaled_profile (self : Profile F) (kwargs : gmap string F) :
  result (list (list F)) :=
  mag0 ← equilibrium_magnetization self kwargs;
  for_each (intensity_at self kwargs mag0) (b1_offsets (super self)).

(** Assignments to the measurement arrays of [self]. *)
Definition set_b1_offsets (self : Profile F) (a : list F) : Profile F :=
  let c := super self in
  {| super := {| profile_name := profile_name c; model := model c; b1_offsets := a;
                 val := val c; err := err c; reference := reference c;
                 carrier := carrier c; ppm_i := ppm_i c; omega1s := omega1s c;
                 b1_weights := b1_weights c; b1_inh := b1_inh c; time_t1 := time_t1 c;
                 on_resonance_filter := on_resonance_filter c;
                 resonance_i := resonance_i c; temperature := temperature c;
                 h_larmor_frq := h_larmor_frq c; p_total := p_total c;
                 l_total := l_total c |};
     time_d1 := time_d1 self; equilibrium := equilibrium self; base := base self;
     liouvillians_b1 := liouvillians_b1 self; map_names := map_names self;
     default_params := default_params self |}.

Definition set_val (self : Profile F) (a : list F) : Profile F :=
  let c := super self in
  {| super := {| profile_name := profile_name c; model := model c;
                 b1_offsets := b1_offsets c;
                 val := a; err := err c; reference := reference c;
                 carrier := carrier c; ppm_i := ppm_i c; omega1s := omega1s c;
                 b1_weights := b1_weights c; b1_inh := b1_inh c; time_t1 := time_t1 c;
                 on_resonance_filter := on_resonance_filter c;
                 resonance_i := resonance_i c; temperature := temperature c;
                 h_larmor_frq := h_larmor_frq c; p_total := p_total c;
                 l_total := l_total c |};
     time_d1 := time_d1 self; equilibrium := equilibrium self; base := base self;
     liouvillians_b1 := liouvillians_b1 self; map_names := map_names self;
     default_params := default_params self |}.

Definition set_err (self : Profile F) (a : list F) : Profile F :=
  let c := super self in
  {| super := {| profile_name := profile_name c; model := model c;
                 b1_offsets := b1_offsets c;
                 val := val c; err := a; reference := reference c;
                 carrier := carrier c; ppm_i := ppm_i c; omega1s := omega1s c;
                 b1_weights := b1_weights c; b1_inh := b1_inh c; time_t1 := time_t1 c;
                 on_resonance_filter := on_resonance_filter c;
                 resonance_i := resonance_i c; temperature := temperature c;
                 h_larmor_frq := h_larmor_frq c; p_total := p_total c;
                 l_total := l_total c |};
     time_d1 := time_d1 self; equilibrium := equilibrium self; base := base self;
     liouvillians_b1 := liouvillians_b1 self; map_names := map_names self;
     default_params := default_params self |}.

Definition set_reference (self : Profile F) (a : list bool) : Profile F :=
  let c := super self in
  {| super := {| profile_name := profile_name c; model := model c;
                 b1_offsets := b1_offsets c;
                 val := val c; err := err c; reference := a;
                 carrier := carrier c; ppm_i := ppm_i c; omega1s := omega1s c;
                 b1_weights := b1_weights c; b1_inh := b1_inh c; time_t1 := time_t1 c;
                 on_resonance_filter := on_resonance_filter c;
                 resonance_i := resonance_i c; temperature := temperature c;
                 h_larmor_frq := h_larmor_frq c; p_total := p_total c;
                 l_total := l_total c |};
     time_d1 := time_d1 self; equilibrium := equilibrium self; base := base self;
     liouvillians_b1 := liouvillians_b1 self; map_names := map_names self;
     default_params := default_params self |}.

(** [cs = params[self.map_names['cs_i_b']].value]: the name is looked up
    first, then [params] (whose default is [None]) is subscripted. *)
Definition minor_state_shift (self : Profile F) (params : option (gmap string (parameter F))) :
  result F :=
  full ← getitem (map_names self) "cs_i_b";
  match params with
  | None => Raise TypeError
  | Some ps => param ← getitem ps full; Ok (value param)
  end.

(** [(cs - self.carrier) * self.ppm_i / (2.0 * np.pi) - b1_offset] *)
Definition nu_offset (self : Profile F) (cs : F) (b1_offset : F) : F :=
  f_sub (f_div (f_mul (f_sub cs (carrier (super self))) (ppm_i (super self)))
               (f_mul f_two f_pi))
        b1_offset.

(** [mask = abs(nu_offsets) > self.on_resonance_filter * 0.5] *)
Definition keep_point (self : Profile F) (cs : F) (b1_offset : F) : bool :=
  f_gtb (f_abs (nu_offset self cs b1_offset))
        (f_mul (on_resonance_filter (super self)) f_half).

Definition keep_mask (self : Profile F) (cs : F) : list bool :=
  map (keep_point self cs) (b1_offsets (super self)).

(** [Profile.filter_points(self, params)]: the outcome of the call and the
    object it leaves behind.  The four arrays are assigned one after the
    other, so an exception leaves the earlier assignments in place. *)
Definition filter_points (self : Profile F) (params : option (gmap string (parameter F))) :
  result unit * Profile F :=
  match minor_state_shift self params with
  | Raise e => (Raise e, self)
  | Ok cs =>
      let mask := keep_mask self cs in
      match np_mask (b1_offsets (super self)) mask with
      | Raise e => (Raise e, self)
      | Ok a1 =>
          let self1 := set_b1_offsets self a1 in
          match np_mask (val (super self1)) mask with
          | Raise e => (Raise e, self1)
          | Ok a2 =>
              let self2 := set_val self1 a2 in
              match np_mask (err (super self2)) mask with
              | Raise e => (Raise e, self2)
              | Ok a3 =>
                  let self3 := set_err self2 a3 in
                  match np_mask (reference (super self3)) mask with
                  | Raise e => (Raise e, self3)
                  | Ok a4 => (Ok tt, set_reference self3 a4)
                  end
              end
          end
      end
  end.

End CEST.

(** ** Reading the CPMG profiles: [chemex/experiments/cpmg/reading.py] *)

Module reading.

(** Modelled from the spec: the profile container the CPMG profile classes
    build (the classes are imported by name at run time and their text is not
    available): the per-residue identifier and the arrays of cycle counts,
    intensities and uncertainties. *)
Record profile (F : Type) : Type := {
  profile_name : string;
  ncycs_ : list F;
  val : list F;
  err : list F
}.
Arguments profile_name {F} p.
Arguments ncycs_ {F} p.
Arguments val {F} p.
Arguments err {F} p.

(** The constructor of a profile class:
    [Profile(profile_name, measurements, experiment_details)]. *)
Definition profile_class (F : Type) : Type :=
  string -> list (measurement F) -> gmap string (pyval F) -> result (profile F).

(** What [reading] calls outside its own text. *)
Class Env (F : Type) : Type := {
  (* importlib.import_module(name), then getattr(module, 'Profile') *)
  import_profile_class : string -> result (profile_class F);
  (* os.path.join(path, filename) *)
  path_join : string -> string -> string;
  (* np.loadtxt(full_path, dtype=dtype) *)
  loadtxt : string -> result (list (measurement F));
  (* util.estimate_noise(profile) *)
  estimate_noise : profile F -> F;
  (* float(s) for a string s *)
  float_of_string : string -> option F;
  (* '{:s}_{:.0f}ms_{:.0f}MHz_{:.0f}C'.format(a, b, c, d) *)
  format_name : string -> F -> F -> F -> string
}.

(** String methods, on strings of ASCII characters: the whitespace of
    [str.strip] and the letters of [str.lower] are those of ASCII. *)
Definition is_space (c : ascii) : bool :=
  let n := nat_of_ascii c in
  (Nat.leb 9 n && Nat.leb n 13) || (Nat.leb 28 n && Nat.leb n 32).

Fixpoint lstrip (s : string) : string :=
  match s with
  | String c s' => if is_space c then lstrip s' else s
  | EmptyString => EmptyString
  end.

Definition strip (s : string) : string := String.rev (lstrip (String.rev (lstrip s))).

(** [s.replace(a, b)] for one-character strings [a] and [b]. *)
Fixpoint replace (a b : ascii) (s : string) : string :=
  match s with
  | String c s' => String (if decide (c = a) then b else c) (replace a b s')
  | EmptyString => EmptyString
  end.

Definition lower_char (c : ascii) : ascii :=
  let n := nat_of_ascii c in
  if Nat.leb 65 n && Nat.leb n 90 then ascii_of_nat (n + 32) else c.

Fixpoint lower (s : string) : string :=
  match s with
  | String c s' => String (lower_char c) (lower s')
  | EmptyString => EmptyString
  end.

(** [s.split(sep)] for a one-character [sep]: [cur] holds, reversed, the
    characters read since the last separator. *)
Fixpoint split_go (sep : ascii) (cur : string) (s : string) : list string :=
  match s with
  | EmptyString => [String.rev cur]
  | String c s' =>
      if decide (c = sep) then String.rev cur :: split_go sep EmptyString s'
      else split_go sep (String c cur) s'
  end.

Definition split (sep : ascii) (s : string) : list string := split_go sep EmptyString s.

(** [sep.join(l)] *)
Fixpoint join (sep : string) (l : list string) : string :=
  match l with
  | [] => EmptyString
  | [x] => x
  | x :: l' => x +:+ sep +:+ join sep l'
  end.

Section Reading.
Context {F : Type} {scalar : Scalar F} {env : Env F}.

(** A string method called on an entry of the dict. *)
Definition as_str (v : pyval F) : result string :=
  match v with
  | PStr s => Ok s
  | PNum _ => Raise AttributeError
  end.

(** [float(v)] *)
Definition to_float (v : pyval F) : result F :=
  match v with
  | PNum x => Ok x
  | PStr s => match float_of_string s with Some x => Ok x | None => Raise ValueError end
  end.

(** [name_experiment(experiment_details)] *)
Definition name_experiment (experiment_details : gmap string (pyval F)) : result string :=
  match experiment_details !! "name" with
  | Some v => s ← as_str v; Ok (replace " "%char "_"%char (strip s))
  | None =>
      ty ← getitem experiment_details "type";
      ty_s ← as_str ty;
      let exp_type := replace "."%char "_"%char ty_s in
      frq ← getitem experiment_details "h_larmor_frq";
      h_larmor_frq ← to_float frq;
      tmp ← getitem experiment_details "temperature";
      temperature ← to_float tmp;
      t2 ← getitem experiment_details "time_t2";
      time_t2 ← to_float t2;
      Ok (lower (format_name exp_type (f_mul time_t2 (f_of_nat 1000)) h_larmor_frq
                   temperature))
  end.

(** The truth value of [res_incl] or [res_excl]: [None] and the empty
    collection are false. *)
Definition truthy (res : option (list string)) : bool :=
  match res with
  | None | Some [] => false
  | Some (_ :: _) => true
  end.

Definition member (x : string) (res : option (list string)) : bool :=
  match res with
  | None => false
  | Some l => bool_decide (x ∈ l)
  end.

(** The test that makes the loop [continue]. *)
Definition skipped (res_incl res_excl : option (list string)) (profile_name : string) : bool :=
  (truthy res_incl && negb (member profile_name res_incl))
  || (truthy res_excl && member profile_name res_excl).

(** The loop over [profile_filenames.items()]. *)
Fixpoint load_profiles (Profile : profile_class F) (path : string)
  (experiment_details : gmap string (pyval F)) (res_incl res_excl : option (list string))
  (items : list (string * string)) : result (list (profile F)) :=
  match items with
  | [] => Ok []
  | (profile_name, filename) :: items' =>
      if skipped res_incl res_excl profile_name
      then load_profiles Profile path experiment_details res_incl res_excl items'
      else
        measurements ← loadtxt (path_join path filename);
        profile ← Profile profile_name measurements experiment_details;
        profiles ← load_profiles Profile path experiment_details res_incl res_excl items';
        Ok (profile :: profiles)
  end.

(** [profile.err[:] = error_value] *)
Definition fill_err (error_value : F) (p : profile F) : profile F :=
  {| profile_name := profile_name p; ncycs_ := ncycs_ p; val := val p;
     err := replicate (length (err p)) error_value |}.

(** [error == 'auto'] *)
Definition is_auto (error : pyval F) : bool :=
  match error with
  | PStr s => bool_decide (s = "auto")
  | PNum _ => false
  end.

(** The part of [read_profiles] after the profiles are built:
    [error = experiment_details.get('error', 'file')] and the [if] on it. *)
Definition set_errors (experiment_details : gmap string (pyval F))
  (profiles : list (profile F)) : list (profile F) :=
  let error := default (PStr "file") (experiment_details !! "error") in
  if is_auto error then
    let error_value := np_mean (map estimate_noise profiles) in
    map (fill_err error_value) profiles
  else profiles.

(** [sum(len(profile.val) for profile in profiles)] *)
Definition count_points (profiles : list (profile F)) : nat :=
  foldl Nat.add 0 (map (fun p => length (val p)) profiles).

(** [read_profiles(path, profile_filenames, experiment_details, res_incl,
    res_excl)]: the outcome of the call and the dict [experiment_details] as
    the call leaves it (the entry ['name'] is assigned in place). *)
Definition read_profiles (path : string) (profile_filenames : list (string * string))
  (experiment_details : gmap string (pyval F)) (res_incl res_excl : option (list string)) :
  result (list (profile F) * nat) * gmap string (pyval F) :=
  match (ty ← getitem experiment_details "type"; ty_s ← as_str ty; Ok (split "."%char ty_s)) with
  | Raise e => (Raise e, experiment_details)
  | Ok experiment_type =>
      match name_experiment experiment_details with
      | Raise e => (Raise e, experiment_details)
      | Ok name =>
          let details := <["name" := PStr name]> experiment_details in
          (t0 ← index experiment_type 0;
           t1 ← index experiment_type 1;
           Profile ← import_profile_class (join "." ["chemex.experiments"; t0; "profiles"; t1]);
           profiles ← load_profiles Profile path details res_incl res_excl profile_filenames;
           let profiles' := set_errors details profiles in
           Ok (profiles', count_points profiles'),
           details)
      end
  end.

End Reading.

End reading.


(** ** Vocabulary of the statements *)

Section Vocabulary.
Context {F : Type}.

(** The rows of the measurement table of a profile: the four arrays read side
    by side. *)
Definition measurement_rows (self : Profile F) : list (F * F * F * bool) :=
  zip (zip (zip (b1_offsets (super self)) (val (super self))) (err (super self)))
      (reference (super self)).

Definition row_offset (r : F * F * F * bool) : F := r.1.1.1.

Definition co_indexed (self : Profile F) : Prop :=
  length (val (super self)) = length (b1_offsets (super self)) /\
  length (err (super self)) = length (b1_offsets (super self)) /\
  length (reference (super self)) = length (b1_offsets (super self)).

(** What a call leaves untouched, whatever its outcome. *)
Definition same_settings (self self' : Profile F) : Prop :=
  carrier (super self') = carrier (super self) /\
  ppm_i (super self') = ppm_i (super self) /\
  on_resonance_filter (super self') = on_resonance_filter (super self) /\
  map_names self' = map_names self /\
  base self' = base self /\
  liouvillians_b1 self' = liouvillians_b1 self /\
  default_params self' = default_params self.

End Vocabulary.

Section SimulationVocabulary.
Context {F : Type} {scalar : Scalar F} {scipy : SciPy F}.

(** [v] is the real part of the product of [propagator] with the real vector
    [m]. *)
Definition real_part_of_product (propagator : ndarray2 F) (m v : list F) : Prop :=
  match propagator with
  | RealArr M => f_vec M m = Ok v
  | CplxArr M => exists u, c_vec M (map c_of_real m) = Ok u /\ v = map re u
  end.

(** [slice] is the array [a] read at the positions [idx]. *)
Definition slice_of (a : list F) (idx : list nat) (slice : list F) : Prop :=
  Forall2 (fun i x => a !! i = Some x) idx slice.

(** [liouvillian * self.time_t1] *)
Definition scaled_by_t1 (self : Profile F) (liouvillian : matrix F) : matrix F :=
  mat_map (fun x => f_mul x (time_t1 (super self))) liouvillian.

(** A linear-algebra step of the propagator computation fails with [e] on
    the Liouvillians [Ls]: in the ideal regime the eigendecomposition of the
    first Liouvillian or the inversion of its eigenvector matrix, in the
    finite-field regime the first matrix exponential that fails. *)
Inductive linalg_failure (self : Profile F) (Ls : list (matrix F)) : exn -> Prop :=
| eig_fails L0 e :
    f_is_inf (b1_inh (super self)) = true ->
    Ls !! 0 = Some L0 ->
    linalg_eig L0 = Raise e ->
    linalg_failure self Ls e
| inv_fails L0 s vr e :
    f_is_inf (b1_inh (super self)) = true ->
    Ls !! 0 = Some L0 ->
    linalg_eig L0 = Ok (s, vr) ->
    linalg_inv vr = Raise e ->
    linalg_failure self Ls e
| expm_fails j L e :
    f_is_inf (b1_inh (super self)) = false ->
    Ls !! j = Some L ->
    linalg_expm (scaled_by_t1 self L) = Raise e ->
    (forall i L', i < j -> Ls !! i = Some L' ->
                  is_ok (linalg_expm (scaled_by_t1 self L')) = true) ->
    linalg_failure self Ls e.

(** The propagator of the finite-field regime computed directly from one
    Liouvillian, without averaging: the matrix exponential of the Liouvillian
    times [time_t1], restricted to the observable and initial index groups. *)
Definition direct_propagator (self : Profile F) (liouvillian : matrix F) :
  result (ndarray2 F) :=
  P ← linalg_expm (scaled_by_t1 self liouvillian);
  M ← np_ix (index_iz_b (base self)) (index_iz_eq (base self)) P;
  Ok (RealArr M).

(** The entry of a two-dimensional array at row [i] and column [j]. *)
Definition entry (M : matrix (complex F)) (i j : nat) : complex F :=
  default c_zero (rows M !! i ≫= (.!! j)).

Definition c_sum : list (complex F) -> complex F := np_sum c_zero c_add.

(** The propagator of the ideal regime as the design describes it: for an
    observable index [i] and an initial index [j], the sum over the
    eigenmodes [k] that pass the filter of the eigenvector entry [vr[i][k]],
    the exponentiated eigenvalue [exp(s[k] * t1)] and the entry [vri[k][j]]
    of the inverse eigenvector matrix. *)
Definition filtered_reconstruction (observable initial : list nat) (s : list (complex F))
  (vr vri : matrix (complex F)) (t1 : F) : matrix (complex F) :=
  Mat (length initial)
    (map (fun i =>
            map (fun j =>
                   c_sum (map (fun k =>
                                 c_mul (c_mul (entry vr i k)
                                              (np_exp (c_mul (default c_zero (s !! k))
                                                             (c_of_real t1))))
                                       (entry vri k j))
                              (slow_modes s)))
                initial)
         observable).

End SimulationVocabulary.

(** The profile [self] with its weights replaced by [weights]. *)
Definition with_b1_weights {F : Type} (self : Profile F) (weights : list F) : Profile F :=
  let c := super self in
  {| super := {| profile_name := profile_name c; model := model c;
                 b1_offsets := b1_offsets c;
                 val := val c; err := err c; reference := reference c;
                 carrier := carrier c; ppm_i := ppm_i c; omega1s := omega1s c;
                 b1_weights := weights; b1_inh := b1_inh c; time_t1 := time_t1 c;
                 on_resonance_filter := on_resonance_filter c;
                 resonance_i := resonance_i c; temperature := temperature c;
                 h_larmor_frq := h_larmor_frq c; p_total := p_total c;
                 l_total := l_total c |};
     time_d1 := time_d1 self; equilibrium := equilibrium self; base := base self;
     liouvillians_b1 := liouvillians_b1 self; map_names := map_names self;
     default_params := default_params self |}.

(** [sub] occurs in [s]. *)
Definition substring (sub s : string) : Prop :=
  exists pre post, s = pre +:+ sub +:+ post.

(** The filter as claim C3 words it: a point is removed exactly when its
    separation is smaller than half the filter width. *)
Definition removes_exactly_the_closer_points {F : Type} {scalar : Scalar F} (self : Profile F)
  (params : option (gmap string (parameter F))) : Prop :=
  forall self', filter_points self params = (Ok tt, self') ->
  exists cs,
    minor_state_shift self params = Ok cs /\
    b1_offsets (super self')
    = List.filter
        (fun off => negb (f_ltb (f_abs (nu_offset self cs off))
                                (f_mul (on_resonance_filter (super self)) f_half)))
        (b1_offsets (super self)).

(** The entry of a two-dimensional array at row [i] and column [j], when
    the array has one. *)
Definition entry_at {T : Type} (M : matrix T) (i j : nat) : option T :=
  rows M !! i ≫= (.!! j).

(** The weighted mean of the values [xs] under the weights [w] as
    [np.average] computes it: the sum of the weighted values, accumulated in
    order, divided by the sum of the weights. *)
Definition weighted_mean {F : Type} {scalar : Scalar F} (xs w : list F) : F :=
  f_div (f_sum (zip_with f_mul xs w)) (f_sum w).

(** The averaging as claim C6 words it: with a positive constant [c] and
    weights of positive sum, the weights [c * w] give the average that the
    weights [w] give. *)
Definition unchanged_by_scaling {F : Type} {scalar : Scalar F}
  (propagators : list (matrix F)) (weights : list F) (c : F) : Prop :=
  f_gtb c f_zero = true -> f_gtb (f_sum weights) f_zero = true ->
  np_average propagators (map (f_mul c) weights) = np_average propagators weights.

(** A real array times a constant. *)
Definition mat_scale (c : R) (M : matrix R) : matrix R := mat_map (fun x => (x * c)%R) M.

(** A profile class that stores the columns of the file it is given
    unchanged. *)
Definition stores_columns {F : Type} (Profile : reading.profile_class F) : Prop :=
  forall name measurements details p,
    Profile name measurements details = Ok p ->
    reading.val p = map intensities measurements /\
    reading.err p = map intensities_err measurements.

(** The profile [p] was built by the class [Profile] from the file of one of
    the [items] that the residue selection keeps. *)
Definition built_from_file {F : Type} {env : reading.Env F} (Profile : reading.profile_class F)
  (path : string) (details : gmap string (pyval F)) (res_incl res_excl : option (list string))
  (items : list (string * string)) (p : reading.profile F)
  (measurements : list (measurement F)) : Prop :=
  exists name filename,
    (name, filename) ∈ items /\
    reading.skipped res_incl res_excl name = false /\
    reading.loadtxt (reading.path_join path filename) = Ok measurements /\
    Profile name measurements details = Ok p.

(** ** A small environment to run the definitions on

    The bases, the base class and the library routines are not part of the
    text above.  The stand-ins below are used only to evaluate the
    definitions on concrete objects; no general statement depends on them. *)

Section Demo.
Context {F : Type} {scalar : Scalar F}.

Definition identity_matrix {T : Type} (zero one : T) (n : nat) : matrix T :=
  Mat n (map (fun i => map (fun j => if decide (i = j) then one else zero) (seq 0 n))
             (seq 0 n)).

Definition diagonal {T : Type} (zero : T) (M : matrix T) : list T :=
  imap (fun i r => default zero (r !! i)) (rows M).

(** Stand-ins for the library: the eigenvalues of a matrix are read off its
    diagonal with the identity as eigenvectors, a matrix is its own inverse,
    and the exponential is cut after the linear term. *)
Definition demo_scipy : SciPy F := {|
  linalg_eig M :=
    if decide (ncols M = nrows M)
    then Ok (map c_of_real (diagonal f_zero M),
             identity_matrix c_zero (c_of_real f_one) (ncols M))
    else Raise ValueError;
  linalg_inv M := if decide (ncols M = nrows M) then Ok M else Raise ValueError;
  linalg_expm M :=
    if decide (ncols M = nrows M)
    then Ok (mat_zip f_add (identity_matrix f_zero f_one (ncols M)) M)
    else Raise ValueError;
  np_exp z := c_add (c_of_real f_one) z
|}.

(** A library whose eigendecomposition never converges. *)
Definition failing_scipy : SciPy F := {|
  linalg_eig M := Raise LinAlgError;
  linalg_inv M := Raise LinAlgError;
  linalg_expm M := Raise LinAlgError;
  np_exp z := z
|}.

Definition kw_get (kw : gmap string F) (key : string) : F := default f_zero (kw !! key).

Definition state_names (t : topology) : list string :=
  match t with
  | TwoState => ["a"; "b"]
  | ThreeState => ["a"; "b"; "c"]
  | FourState => ["a"; "b"; "c"; "d"]
  end.

(** A stand-in basis with the two components [Iz(a)] and [Iz(b)]. *)
Definition demo_basis (t : topology) : Basis F := {|
  compute_liouvillian kw :=
    Mat 2 [[f_sub f_zero (f_add (kw_get kw "r1_i_a") (kw_get kw "omega1x_i"));
            kw_get kw "kex_ab"];
           [kw_get kw "omega_i_b";
            f_sub f_zero (kw_get kw "r1_i_a")]];
  compute_equilibrium_after_d1 kw := [f_one; kw_get kw "pb"];
  create_default_params model nuclei temperature h_larmor_frq p_total l_total :=
    (list_to_map
       (("cs_i_b", "cs_i_b_" +:+ nuclei)
        :: map (fun st => ("r2_i_" +:+ st, "r2_i_" +:+ st +:+ "_" +:+ nuclei)) (state_names t)),
     list_to_map
       (("cs_i_b_" +:+ nuclei, Param f_zero None)
        :: map (fun st => ("r2_i_" +:+ st +:+ "_" +:+ nuclei, Param f_one None))
             (state_names t)));
  index_iz_eq := [0; 1];
  index_iz_b := [1]
|}.

Definition demo_details_str (d : gmap string (pyval F)) (key dflt : string) : string :=
  match d !! key with
  | Some (PStr s) => s
  | _ => dflt
  end.

Definition demo_details_num (d : gmap string (pyval F)) (key : string) (dflt : F) : F :=
  match d !! key with
  | Some (PNum x) => x
  | _ => dflt
  end.

(** A stand-in for the imported modules of the repository. *)
Definition demo_chemex : Chemex F := {|
  ixyz_eq := demo_basis;
  cest_profile_init name measurements d :=
    Ok {| profile_name := name;
          model := demo_details_str d "model" "2st";
          b1_offsets := map ncycs measurements;
          val := map intensities measurements;
          err := map intensities_err measurements;
          reference := map (fun _ => false) measurements;
          carrier := demo_details_num d "carrier" f_zero;
          ppm_i := demo_details_num d "ppm_i" f_one;
          omega1s := [demo_details_num d "omega1" f_one];
          b1_weights := [f_one];
          b1_inh := demo_details_num d "b1_inh" f_zero;
          time_t1 := demo_details_num d "time_t1" f_one;
          on_resonance_filter := demo_details_num d "on_resonance_filter" f_zero;
          resonance_i := {[ "name" := "N" ]};
          temperature := demo_details_num d "temperature" f_zero;
          h_larmor_frq := demo_details_num d "h_larmor_frq" f_zero;
          p_total := None;
          l_total := None |};
  check_par_float d key dflt :=
    match d !! key with
    | Some (PNum x) => Ok x
    | Some (PStr _) => Raise ValueError
    | None => Ok dflt
    end;
  check_par_bool d key dflt :=
    match d !! key with
    | Some _ => Raise ValueError
    | None => Ok dflt
    end
|}.

(** A profile over the stand-in two-state basis, written out attribute by
    attribute: [n] measurement points at the offsets [offsets], one field
    strength per weight. *)
Definition demo_profile (offsets : list F) (carrier_ ppm filter_width inh : F)
  (fields weights : list F) : Profile F := {|
  super := {| profile_name := "G12N-HN"; model := "2st_pb_kex";
              b1_offsets := offsets;
              val := map (fun _ => f_one) offsets;
              err := map (fun _ => f_tenth) offsets;
              reference := map (fun _ => false) offsets;
              carrier := carrier_; ppm_i := ppm;
              omega1s := fields; b1_weights := weights; b1_inh := inh;
              time_t1 := f_half; on_resonance_filter := filter_width;
              resonance_i := {[ "name" := "N" ]};
              temperature := f_zero; h_larmor_frq := f_zero;
              p_total := None; l_total := None |};
  time_d1 := f_one;
  equilibrium := false;
  base := demo_basis TwoState;
  liouvillians_b1 :=
    map (fun omega1 => compute_liouvillian (demo_basis TwoState) {[ "omega1x_i" := omega1 ]})
        fields;
  map_names := {[ "cs_i_b" := "cs_i_b_N" ]};
  default_params := {[ "cs_i_b_N" := Param f_zero None ]}
|}.

(** The parameters of a fit with the minor state at [cs] ppm. *)
Definition demo_params (cs : F) : option (gmap string (parameter F)) :=
  Some {[ "cs_i_b_N" := Param cs None ]}.

End Demo.

(** The scenario of the filter: a width of 50 Hz, the minor state at 300 Hz
    (300 ppm at [2 pi] rad/s per ppm, carrier at 0), four offsets. *)
Definition scenario_profile {F : Type} {scalar : Scalar F} (of_Z : Z -> F) : Profile F :=
  demo_profile [of_Z 250%Z; of_Z 290%Z; of_Z 310%Z; of_Z 1000%Z] f_zero (f_mul f_two f_pi)
    (of_Z 50%Z) f_zero [f_one] [f_one].

(** A profile with the minor state on the carrier and points at exactly half
    the filter width (25 Hz) on both sides of it. *)
Definition boundary_profile {F : Type} {scalar : Scalar F} (of_Z : Z -> F) : Profile F :=
  demo_profile [of_Z (-25)%Z; of_Z 25%Z; of_Z 40%Z] (of_Z 120%Z) (of_Z 500%Z) (of_Z 50%Z)
    f_zero [f_one] [f_one].

Definition float_of_Z (z : Z) : float :=
  match z with
  | Z0 => 0%float
  | Zpos p => PrimFloat.of_uint63 (Uint63.of_Z z)
  | Zneg p => PrimFloat.opp (PrimFloat.of_uint63 (Uint63.of_Z (Zpos p)))
  end.

(** A three-state experiment in binary64: four measured points, the ideal
    regime ([b1_inh] infinite). *)
Definition demo_measurements : list (measurement float) :=
  [Measurement 250 1 0.5; Measurement 290 2 0.5; Measurement 310 3 0.5;
   Measurement 1000 4 0.5]%float.

Definition demo_details : gmap string (pyval float) :=
  <["model" := PStr "cest_3st_fit"]>
    (<["b1_inh" := PNum infinity]> (<["on_resonance_filter" := PNum 50%float]> ∅)).

(** The same experiment with a finite field inhomogeneity. *)
Definition demo_details_finite : gmap string (pyval float) :=
  <["b1_inh" := PNum 0.5%float]> demo_details.

Definition demo_kwargs : gmap string float :=
  <["r1_i_a" := 1.5%float]> (<["pb" := 0.25%float]> (<["kex_ab" := 200%float]> ∅)).

(** Two points measured in the ideal regime. *)
Definition ideal_profile : Profile float :=
  demo_profile [250; 290]%float 0%float 1%float 50%float infinity [1%float] [1%float].

(** A stand-in for what [reading] imports: every file holds the same three
    rows, the profile class stores the columns it is given, and the noise of
    a profile is estimated by the mean of its uncertainties. *)
Definition demo_env {F : Type} {scalar : Scalar F} (of_Z : Z -> F) : reading.Env F := {|
  reading.import_profile_class modname :=
    if decide (modname = "chemex.experiments.cpmg.profiles.n15_tr")
    then Ok (fun name measurements details =>
               Ok {| reading.profile_name := name;
                     reading.ncycs_ := map ncycs measurements;
                     reading.val := map intensities measurements;
                     reading.err := map intensities_err measurements |})
    else Raise ImportError;
  reading.path_join path filename := path +:+ "/" +:+ filename;
  reading.loadtxt full_path :=
    Ok [Measurement (of_Z 0%Z) (of_Z 100%Z) (of_Z 2%Z);
        Measurement (of_Z 1%Z) (of_Z 80%Z) (of_Z 4%Z);
        Measurement (of_Z 2%Z) (of_Z 90%Z) (of_Z 6%Z)];
  reading.estimate_noise p := np_mean (reading.err p);
  reading.float_of_string s := None;
  reading.format_name exp_type time_t2 h_larmor_frq temperature := exp_type
|}.

Definition demo_files : list (string * string) :=
  [("G12N-HN", "G12N-HN.out"); ("A13N-HN", "A13N-HN.out"); ("L14N-HN", "L14N-HN.out")].

Definition demo_cpmg_details (error : option string) : gmap string (pyval float) :=
  let d : gmap string (pyval float) :=
    <["type" := PStr "cpmg.n15_tr"]> (<["name" := PStr " my experiment "]> ∅) in
  match error with
  | Some e => <["error" := PStr e]> d
  | None => d
  end.
(** ** Further vocabulary *)

(** The profile [self] with its four measurement arrays replaced. *)
Definition with_arrays {F : Type} {scalar : Scalar F} (self : Profile F)
  (offsets vals errs : list F) (refs : list bool) : Profile F :=
  set_reference (set_err (set_val (set_b1_offsets self offsets) vals) errs) refs.

(** The separation in Hz between the resonance of the minor state at [cs]
    ppm and the irradiation offset [off] as the filter computes it,
    [abs(nu_offsets)] for one point, and half the filter width as the filter
    computes it. *)
Definition computed_separation {F : Type} {scalar : Scalar F} (self : Profile F)
  (cs off : F) : F :=
  f_abs (nu_offset self cs off).

Definition half_width {F : Type} {scalar : Scalar F} (self : Profile F) : F :=
  f_mul (on_resonance_filter (super self)) f_half.

(** The absolute separation in Hz, on the exact instance, between the
    resonance of the minor state at [cs] ppm and the irradiation offset
    [off]. *)
Definition separation (self : Profile R) (cs off : R) : R :=
  Rabs ((cs - carrier (super self)) * ppm_i (super self) / (2 * PI) - off).

(** A stand-in library whose eigenvalues all oscillate: every matrix has the
    eigenvalues [i] and [-i]. *)
Definition oscillating_scipy {F : Type} {scalar : Scalar F} : SciPy F := {|
  linalg_eig M :=
    Ok ([Cplx f_zero f_one; Cplx f_zero (f_sub f_zero f_one)],
        identity_matrix c_zero (c_of_real f_one) 2);
  linalg_inv M := Ok M;
  linalg_expm M := Ok M;
  np_exp z := z
|}.

(** The array of the given shape filled with zeros. *)
Definition zero_matrix {F : Type} {scalar : Scalar F} (n m : nat) : matrix (complex F) :=
  Mat m (replicate n (replicate m c_zero)).

(** A stand-in for the imported modules whose bases name the transverse
    relaxation rate of state B but not that of state A. *)
Definition lopsided_chemex {F : Type} {scalar : Scalar F} : Chemex F := {|
  ixyz_eq t :=
    {| compute_liouvillian := compute_liouvillian (demo_basis t);
       compute_equilibrium_after_d1 := compute_equilibrium_after_d1 (demo_basis t);
       create_default_params model nuclei temperature h_larmor_frq p_total l_total :=
         ({[ "r2_i_b" := "r2_i_b_N" ]}, {[ "r2_i_b_N" := Param f_one None ]});
       index_iz_eq := index_iz_eq (demo_basis t);
       index_iz_b := index_iz_b (demo_basis t) |};
  cest_profile_init := cest_profile_init (Chemex := demo_chemex);
  check_par_float := check_par_float (Chemex := demo_chemex);
  check_par_bool := check_par_bool (Chemex := demo_chemex)
|}.

(** The string does not start with a whitespace character. *)
Definition starts_clean (s : string) : bool :=
  match s with
  | String c _ => negb (reading.is_space c)
  | EmptyString => true
  end.

(** The string does not end with a whitespace character. *)
Fixpoint ends_clean (s : string) : bool :=
  match s with
  | EmptyString => true
  | String c EmptyString => negb (reading.is_space c)
  | String _ s' => ends_clean s'
  end.

(** An upper-case letter of ASCII. *)
Definition is_upper (c : ascii) : Prop := 65 <= nat_of_ascii c <= 90.

(** The characters of a string. *)
Fixpoint chars (s : string) : list ascii :=
  match s with
  | EmptyString => []
  | String c s' => c :: chars s'
  end.

(** The residue selection of [read_profiles] in words: a profile name is
    selected when it is in [res_incl], unless [res_incl] is absent or empty,
    and not in [res_excl], if that is given. *)
Definition selected (res_incl res_excl : option (list string)) (profile_name : string) :
  Prop :=
  (forall l, res_incl = Some l -> l <> [] -> profile_name ∈ l) /\
  (forall l, res_excl = Some l -> profile_name ∉ l).

(** The files [read_profiles] reads: the items of [profile_filenames] that the
    loop does not skip, in their order. *)
Definition files_read (res_incl res_excl : option (list string))
  (profile_filenames : list (string * string)) : list (string * string) :=
  List.filter (fun item => negb (reading.skipped res_incl res_excl item.1)) profile_filenames.

(** The module that holds the profile class of the experiment type
    [t0.t1]. *)
Definition profile_module (t0 t1 : string) : string :=
  "chemex.experiments." +:+ t0 +:+ ".profiles." +:+ t1.

(** A stand-in for what [reading] imports in which one file is missing. *)
Definition picky_env : reading.Env float := {|
  reading.import_profile_class :=
    reading.import_profile_class (Env := demo_env float_of_Z);
  reading.path_join := reading.path_join (Env := demo_env float_of_Z);
  reading.loadtxt full_path :=
    if decide (full_path = "data/A13N-HN.out") then Raise OSError
    else reading.loadtxt (Env := demo_env float_of_Z) full_path;
  reading.estimate_noise := reading.estimate_noise (Env := demo_env float_of_Z);
  reading.float_of_string := reading.float_of_string (Env := demo_env float_of_Z);
  reading.format_name := reading.format_name (Env := demo_env float_of_Z)
|}.

(** * Properties *)

(** ** The result monad *)

Lemma bind_ok_inv {A B : Type} (c : result A) (k : A -> result B) (b : B) :
  (x ← c; k x) = Ok b -> exists a, c = Ok a /\ k a = Ok b.
Proof. destruct c as [a|e]; simpl; [eauto | discriminate]. Qed.

Lemma bind_raise_l {A B : Type} (c : result A) (k : A -> result B) (e : exn) :
  c = Raise e -> (x ← c; k x) = Raise e.
Proof. intros ->. reflexivity. Qed.

Lemma bind_ok_l {A B : Type} (c : result A) (k : A -> result B) (a : A) :
  c = Ok a -> (x ← c; k x) = k a.
Proof. intros ->. reflexivity. Qed.

Lemma for_each_length {A B : Type} (f : A -> result B) (l : list A) (l' : list B) :
  for_each f l = Ok l' -> length l' = length l.
Proof.
  revert l'. induction l as [|x l IH]; intros l' Hl; simpl in Hl.
  - by inversion Hl.
  - destruct (f x) as [y|]; [|discriminate]. simpl in Hl.
    destruct (for_each f l) as [ys|]; [|discriminate]. simpl in Hl.
    inversion Hl; subst. simpl. f_equal. by apply IH.
Qed.

Lemma for_each_lookup {A B : Type} (f : A -> result B) (l : list A) (l' : list B)
  (k : nat) (x : A) :
  for_each f l = Ok l' -> l !! k = Some x ->
  exists y, f x = Ok y /\ l' !! k = Some y.
Proof.
  revert l' k. induction l as [|x0 l IH]; intros l' k Hl Hk; [done|].
  simpl in Hl.
  destruct (f x0) as [y0|] eqn:Hy0; [|discriminate]. simpl in Hl.
  destruct (for_each f l) as [ys|] eqn:Hys; [|discriminate]. simpl in Hl.
  inversion Hl; subst. destruct k as [|k]; simpl in *.
  - inversion Hk; subst. eauto.
  - eapply IH; eauto.
Qed.

Lemma for_each_ok {A B : Type} (f : A -> result B) (l : list A) :
  (forall x, x ∈ l -> is_ok (f x) = true) -> is_ok (for_each f l) = true.
Proof.
  induction l as [|x l IH]; intros Hall; [done|]. simpl.
  pose proof (Hall x ltac:(left)) as Hx.
  destruct (f x) as [y|]; [|discriminate]. simpl.
  destruct (for_each f l) as [ys|] eqn:Hys; [done|].
  exfalso. assert (false = true); [|discriminate].
  apply IH. intros z Hz. apply Hall. by right.
Qed.

(** The first element on which the body raises decides the exception of the
    whole comprehension. *)
Lemma for_each_raise {A B : Type} (f : A -> result B) (l : list A) (k : nat) (x : A)
  (e : exn) :
  l !! k = Some x -> f x = Raise e ->
  (forall j y, j < k -> l !! j = Some y -> is_ok (f y) = true) ->
  for_each f l = Raise e.
Proof.
  revert k. induction l as [|x0 l IH]; intros k Hk Hx Hbefore; [done|].
  destruct k as [|k]; simpl in *.
  - inversion Hk; subst. by rewrite Hx.
  - pose proof (Hbefore 0 x0 ltac:(lia) eq_refl) as H0.
    destruct (f x0) as [y0|]; [|discriminate]. simpl.
    rewrite (IH k Hk Hx); [done|].
    intros j y Hj Hy. apply (Hbefore (S j) y); [lia|done].
Qed.

Lemma for_each_not_ok {A B : Type} (f : A -> result B) (l : list A) (x : A) :
  x ∈ l -> is_ok (f x) = false -> is_ok (for_each f l) = false.
Proof.
  induction l as [|x0 l IH]; intros Hin Hx; [by apply elem_of_nil in Hin|].
  simpl. apply elem_of_cons in Hin as [->|Hin].
  - destruct (f x0); [discriminate|done].
  - destruct (f x0) as [y0|]; [|done]. simpl.
    specialize (IH Hin Hx). destruct (for_each f l); [discriminate|done].
Qed.

(** ** Boolean masks *)

Lemma mask_select_map {A : Type} (p : A -> bool) (a : list A) :
  mask_select a (map p a) = List.filter p a.
Proof.
  induction a as [|x a IH]; [done|]. simpl. destruct (p x); by rewrite IH.
Qed.

Lemma mask_select_all_true {A : Type} (a : list A) (mask : list bool) :
  length mask = length a -> Forall (fun b => b = true) mask -> mask_select a mask = a.
Proof.
  revert mask. induction a as [|x a IH]; intros [|b mask] Hlen Hall; try done.
  simpl in *. inversion Hall; subst. f_equal. apply IH; [lia|done].
Qed.

Lemma mask_select_length {A B : Type} (a : list A) (b : list B) (mask : list bool) :
  length a = length mask -> length b = length mask ->
  length (mask_select a mask) = length (mask_select b mask).
Proof.
  revert a b. induction mask as [|m mask IH]; intros [|x a] [|y b] Ha Hb; try done.
  simpl in *. destruct m; simpl; [f_equal|]; apply IH; lia.
Qed.

(** Selecting under one mask commutes with pairing the arrays up. *)
Lemma mask_select_zip {A B : Type} (a : list A) (b : list B) (mask : list bool) :
  mask_select (zip a b) mask = zip (mask_select a mask) (mask_select b mask).
Proof.
  revert a b. induction mask as [|m mask IH]; intros a b.
  - by destruct a, b.
  - destruct a as [|x a], b as [|y b]; simpl; try done.
    + destruct m; [done|]. by destruct (mask_select a mask).
    + destruct m; simpl; [f_equal|]; apply IH.
Qed.

Lemma np_mask_ok {A : Type} (a : list A) (mask : list bool) (a' : list A) :
  np_mask a mask = Ok a' <-> length mask = length a /\ a' = mask_select a mask.
Proof.
  unfold np_mask. case_decide; split; try done.
  - intros [= <-]. done.
  - intros [_ ->]. done.
  - intros [? _]. done.
Qed.

Lemma np_mask_all_true {A : Type} (a : list A) (mask : list bool) :
  Forall (fun b => b = true) mask ->
  np_mask a mask = Ok a \/ exists e, np_mask a mask = Raise e.
Proof.
  intros Hall. unfold np_mask. case_decide; [left|right; eauto].
  f_equal. by apply mask_select_all_true.
Qed.

Section FilterFacts.
Context {F : Type} {scalar : Scalar F}.
Implicit Types (self : Profile F) (params : option (gmap string (parameter F))).

Lemma set_b1_offsets_id self : set_b1_offsets self (b1_offsets (super self)) = self.
Proof. by destruct self as [[] ? ? ? ? ? ?]. Qed.
Lemma set_val_id self : set_val self (val (super self)) = self.
Proof. by destruct self as [[] ? ? ? ? ? ?]. Qed.
Lemma set_err_id self : set_err self (err (super self)) = self.
Proof. by destruct self as [[] ? ? ? ? ? ?]. Qed.
Lemma set_reference_id self : set_reference self (reference (super self)) = self.
Proof. by destruct self as [[] ? ? ? ? ? ?]. Qed.

Lemma filter_points_settings self params :
  same_settings self (filter_points self params).2.
Proof.
  unfold filter_points, same_settings.
  destruct (minor_state_shift self params); [|done].
  repeat (match goal with |- context [np_mask ?a ?m] => destruct (np_mask a m) end;
          simpl; [|done]).
  done.
Qed.

Lemma filter_points_offsets self params cs :
  minor_state_shift self params = Ok cs ->
  b1_offsets (super (filter_points self params).2)
  = List.filter (keep_point self cs) (b1_offsets (super self)).
Proof.
  intros Hcs. unfold filter_points. rewrite Hcs.
  unfold np_mask at 1. rewrite decide_True by (unfold keep_mask; by rewrite length_map).
  unfold keep_mask. rewrite mask_select_map.
  repeat (match goal with |- context [np_mask ?a ?m] => destruct (np_mask a m) end;
          simpl; [|done]).
  done.
Qed.

Lemma filter_points_shift_error self params e :
  minor_state_shift self params = Raise e -> filter_points self params = (Raise e, self).
Proof. intros Hcs. unfold filter_points. by rewrite Hcs. Qed.

(** A call whose mask keeps every point changes nothing. *)
Lemma filter_points_noop self params cs :
  minor_state_shift self params = Ok cs ->
  Forall (fun b => b = true) (keep_mask self cs) ->
  (filter_points self params).2 = self.
Proof.
  intros Hcs Hall. unfold filter_points. rewrite Hcs.
  destruct (np_mask_all_true (b1_offsets (super self)) _ Hall) as [->|[e ->]]; [|done].
  rewrite set_b1_offsets_id.
  destruct (np_mask_all_true (val (super self)) _ Hall) as [->|[e ->]]; [|done].
  rewrite set_val_id.
  destruct (np_mask_all_true (err (super self)) _ Hall) as [->|[e ->]]; [|done].
  rewrite set_err_id.
  destruct (np_mask_all_true (reference (super self)) _ Hall) as [->|[e ->]]; [|done].
  by rewrite set_reference_id.
Qed.

Lemma keep_point_settings self self' cs off :
  same_settings self self' -> keep_point self' cs off = keep_point self cs off.
Proof.
  intros (Hc & Hp & Hf & _). unfold keep_point, nu_offset. by rewrite Hc, Hp, Hf.
Qed.

Lemma minor_state_shift_settings self self' params :
  same_settings self self' -> minor_state_shift self' params = minor_state_shift self params.
Proof.
  intros (_ & _ & _ & Hm & _). unfold minor_state_shift. by rewrite Hm.
Qed.

Lemma filter_points_twice self params :
  (filter_points (filter_points self params).2 params).2 = (filter_points self params).2.
Proof.
  pose proof (filter_points_settings self params) as Hset.
  destruct (minor_state_shift self params) as [cs|e] eqn:Hcs.
  - apply (filter_points_noop _ _ cs).
    + by rewrite (minor_state_shift_settings self).
    + unfold keep_mask. rewrite (filter_points_offsets self params cs Hcs).
      apply Forall_map, Forall_forall. intros off Hin.
      apply list_elem_of_In, filter_In in Hin as [_ Hkeep].
      by rewrite (keep_point_settings self).
  - rewrite (filter_points_shift_error self params e Hcs). simpl.
    by rewrite (filter_points_shift_error self params e Hcs).
Qed.

Lemma filter_points_ok_inv self params self' :
  filter_points self params = (Ok tt, self') ->
  exists cs,
    minor_state_shift self params = Ok cs /\
    co_indexed self /\
    b1_offsets (super self') = mask_select (b1_offsets (super self)) (keep_mask self cs) /\
    val (super self') = mask_select (val (super self)) (keep_mask self cs) /\
    err (super self') = mask_select (err (super self)) (keep_mask self cs) /\
    reference (super self') = mask_select (reference (super self)) (keep_mask self cs).
Proof.
  unfold filter_points, co_indexed.
  destruct (minor_state_shift self params) as [cs|]; [|intros [=]].
  destruct (np_mask (b1_offsets (super self)) _) as [a1|] eqn:H1; [|intros [=]].
  simpl.
  destruct (np_mask (val (super self)) _) as [a2|] eqn:H2; [|intros [=]].
  simpl.
  destruct (np_mask (err (super self)) _) as [a3|] eqn:H3; [|intros [=]].
  simpl.
  destruct (np_mask (reference (super self)) _) as [a4|] eqn:H4; [|intros [=]].
  intros [= <-]. simpl.
  apply np_mask_ok in H1 as [L1 ->], H2 as [L2 ->], H3 as [L3 ->], H4 as [L4 ->].
  exists cs. unfold keep_mask in *. rewrite length_map in *. done.
Qed.

Lemma filter_points_ok self params cs :
  minor_state_shift self params = Ok cs -> co_indexed self ->
  (filter_points self params).1 = Ok tt.
Proof.
  intros Hcs (Hv & He & Hr). unfold filter_points. rewrite Hcs.
  unfold np_mask, keep_mask. rewrite length_map.
  rewrite decide_True by done. simpl.
  rewrite decide_True by done. simpl.
  rewrite decide_True by done. simpl.
  rewrite decide_True by done. done.
Qed.

Lemma filter_points_returns self params cs :
  minor_state_shift self params = Ok cs -> co_indexed self ->
  filter_points self params = (Ok tt, (filter_points self params).2).
Proof.
  intros Hcs Hco. pose proof (filter_points_ok self params cs Hcs Hco) as Hfst.
  destruct (filter_points self params) as [o s]. simpl in *. by subst.
Qed.

End FilterFacts.

Section FilterClaims.
Context {F : Type} {scalar : Scalar F}.
Implicit Types (self : Profile F) (params : option (gmap string (parameter F))).

Lemma measurement_rows_offsets self :
  co_indexed self -> map row_offset (measurement_rows self) = b1_offsets (super self).
Proof.
  intros (Hv & He & Hr). unfold measurement_rows, row_offset.
  revert Hv He Hr.
  generalize (reference (super self)), (err (super self)), (val (super self)).
  induction (b1_offsets (super self)) as [|o os IH];
    intros [|r rs] [|e es] [|v vs] Hv He Hr; try done.
  simpl in *. f_equal. apply IH; lia.
Qed.

Lemma filter_points_rows self params self' cs :
  filter_points self params = (Ok tt, self') ->
  minor_state_shift self params = Ok cs ->
  measurement_rows self'
  = List.filter (fun r => keep_point self cs (row_offset r)) (measurement_rows self).
Proof.
  intros Hcall Hcs.
  apply filter_points_ok_inv in Hcall as (cs' & Hcs' & Hco & Ho & Hv & He & Hr).
  assert (cs' = cs) as -> by congruence.
  unfold measurement_rows at 1. rewrite Ho, Hv, He, Hr.
  rewrite <- !mask_select_zip. fold (measurement_rows self).
  unfold keep_mask. rewrite <- (measurement_rows_offsets self Hco).
  rewrite <- list_fmap_compose. apply mask_select_map.
Qed.

Lemma filter_points_co_indexed self params self' :
  filter_points self params = (Ok tt, self') -> co_indexed self'.
Proof.
  intros Hcall.
  apply filter_points_ok_inv in Hcall as (cs & Hcs & (Lv & Le & Lr) & Ho & Hv & He & Hr).
  unfold co_indexed. rewrite Ho, Hv, He, Hr.
  assert (length (keep_mask self cs) = length (b1_offsets (super self))) as Lm
    by (unfold keep_mask; by rewrite length_map).
  repeat split; apply mask_select_length; lia.
Qed.

(** Arrays that are co-indexed before a call are co-indexed after it, whether
    the call returns or raises. *)
Lemma filter_points_keeps_co_indexed self params :
  co_indexed self -> co_indexed (filter_points self params).2.
Proof.
  intros Hco. destruct (minor_state_shift self params) as [cs|e] eqn:Hcs.
  - apply (filter_points_co_indexed self params).
    by apply (filter_points_returns self params cs).
  - by rewrite (filter_points_shift_error self params e Hcs).
Qed.

(** C4. The data-selection filter is idempotent and keeps the measurement
    arrays co-indexed.  Whatever the profile and the parameters, a second
    call of [filter_points] with the same parameters leaves the object as the
    first call left it, and arrays of one common length before a call have
    one common length after it.  When a call returns, the four arrays (offsets,
    intensities, uncertainties, reference flags) have one common length
    before and after it, each of them is the old array selected by one and
    the same keep-mask, the rows of the measurement table after the call are
    the rows before it whose offset the mask keeps, and a second call returns
    as well and changes nothing. *)
Theorem C4_filter_points_idempotent_coindexed self params :
  (filter_points (filter_points self params).2 params).2 = (filter_points self params).2 /\
  (co_indexed self -> co_indexed (filter_points self params).2) /\
  (forall self', filter_points self params = (Ok tt, self') ->
     filter_points self' params = (Ok tt, self') /\
     co_indexed self /\ co_indexed self' /\
     exists cs,
       minor_state_shift self params = Ok cs /\
       b1_offsets (super self') = mask_select (b1_offsets (super self)) (keep_mask self cs) /\
       val (super self') = mask_select (val (super self)) (keep_mask self cs) /\
       err (super self') = mask_select (err (super self)) (keep_mask self cs) /\
       reference (super self') = mask_select (reference (super self)) (keep_mask self cs) /\
       measurement_rows self'
       = List.filter (fun r => keep_point self cs (row_offset r)) (measurement_rows self)).
Proof.
  split; [apply filter_points_twice|].
  split; [apply filter_points_keeps_co_indexed|].
  intros self' Hcall.
  pose proof (filter_points_co_indexed _ _ _ Hcall) as Hco'.
  pose proof (filter_points_ok_inv _ _ _ Hcall) as (cs & Hcs & Hco & Ho & Hv & He & Hr).
  pose proof (filter_points_twice self params) as Htwice.
  pose proof (filter_points_settings self params) as Hset.
  rewrite Hcall in Htwice, Hset. simpl in Htwice, Hset.
  split; [|split; [done|split; [done|]]].
  - rewrite (surjective_pairing (filter_points self' params)). f_equal; [|done].
    apply (filter_points_ok _ _ cs); [|done].
    by rewrite (minor_state_shift_settings self self' params).
  - exists cs. repeat split; try done. by apply (filter_points_rows self params).
Qed.

End FilterClaims.

(** On the exact instance the mask is the strict comparison of the
    separation with half the filter width. *)
Lemma keep_point_R (self : Profile R) (cs off : R) :
  keep_point self cs off = true <->
  (Rabs ((cs - carrier (super self)) * ppm_i (super self) / (2 * PI) - off)
   > on_resonance_filter (super self) * 0.5)%R.
Proof.
  unfold keep_point, nu_offset. simpl. destruct (Rgt_dec _ _); split; try done.
Qed.

(** ** Comparisons in binary64 *)

Lemma SFcompare_antisym (x y : spec_float) :
  SFcompare y x = option_map CompOpp (SFcompare x y).
Proof.
  destruct x as [sx|sx| |sx mx ex], y as [sy|sy| |sy my ey]; simpl; try reflexivity;
    try (destruct sx; reflexivity); try (destruct sy; reflexivity);
    try (destruct sx, sy; reflexivity).
  destruct sx, sy; simpl; try reflexivity.
  - rewrite (Z.compare_antisym ex ey). destruct (ex ?= ey)%Z; simpl; try reflexivity.
    rewrite (Pos.compare_cont_antisym mx my Eq). simpl.
    destruct (Pos.compare_cont Eq mx my); reflexivity.
  - rewrite (Z.compare_antisym ex ey). destruct (ex ?= ey)%Z; simpl; try reflexivity.
    rewrite (Pos.compare_cont_antisym mx my Eq). simpl.
    destruct (Pos.compare_cont Eq mx my); reflexivity.
Qed.

Lemma SFcompare_refl (x : spec_float) : x <> S754_nan -> SFcompare x x = Some Eq.
Proof.
  destruct x as [s|s| |s m e]; simpl; intros H; try reflexivity; try congruence.
  - destruct s; reflexivity.
  - destruct s; rewrite Z.compare_refl; fold (Pos.compare m m); rewrite Pos.compare_refl;
      reflexivity.
Qed.

(** [x <= y] excludes [y < x]. *)
Lemma float_leb_not_ltb (x y : float) :
  PrimFloat.leb x y = true -> PrimFloat.ltb y x = false.
Proof.
  rewrite FloatAxioms.leb_spec, FloatAxioms.ltb_spec. unfold SFleb, SFltb.
  rewrite (SFcompare_antisym (Prim2SF x) (Prim2SF y)).
  destruct (SFcompare (Prim2SF x) (Prim2SF y)) as [[| |]|]; simpl; congruence.
Qed.

Lemma float_is_nan_spec (x : float) : PrimFloat.is_nan x = true <-> Prim2SF x = S754_nan.
Proof.
  unfold PrimFloat.is_nan. rewrite Bool.negb_true_iff, FloatAxioms.eqb_spec. unfold SFeqb.
  split.
  - intros H. destruct (Prim2SF x) eqn:E; try reflexivity;
      rewrite SFcompare_refl in H by congruence; discriminate.
  - intros ->. reflexivity.
Qed.

(** Nothing is smaller than a NaN. *)
Lemma float_ltb_nan (h x : float) : PrimFloat.is_nan x = true -> PrimFloat.ltb h x = false.
Proof.
  rewrite float_is_nan_spec, FloatAxioms.ltb_spec. intros ->. unfold SFltb.
  destruct (Prim2SF h); reflexivity.
Qed.

Lemma float_abs_nan (x : float) : PrimFloat.is_nan (PrimFloat.abs x) = PrimFloat.is_nan x.
Proof.
  apply Bool.eq_true_iff_eq. rewrite !float_is_nan_spec, FloatAxioms.abs_spec.
  destruct (Prim2SF x); simpl; split; congruence.
Qed.

(** A negative number is smaller than every absolute value that is a
    number. *)
Lemma float_neg_ltb_abs (h x : float) :
  PrimFloat.ltb h 0 = true -> PrimFloat.is_nan x = false ->
  PrimFloat.ltb h (PrimFloat.abs x) = true.
Proof.
  intros Hneg Hnan. rewrite FloatAxioms.ltb_spec in *. rewrite FloatAxioms.abs_spec.
  assert (Prim2SF x <> S754_nan) as Hx.
  { intros E. apply float_is_nan_spec in E. congruence. }
  change (Prim2SF 0) with (S754_zero false) in Hneg. unfold SFltb in *.
  destruct (Prim2SF h) as [sh|sh| |sh mh eh]; simpl in Hneg; try discriminate;
    destruct sh; try discriminate;
    destruct (Prim2SF x) as [sx|sx| |sx mx ex]; simpl; try reflexivity; congruence.
Qed.

(** A zero of either sign is smaller than an absolute value exactly when
    that value is a number other than zero. *)
Lemma float_zero_ltb_abs (h x : float) :
  PrimFloat.eqb h 0 = true ->
  (PrimFloat.ltb h (PrimFloat.abs x) = true <->
   PrimFloat.eqb (PrimFloat.abs x) 0 = false /\ PrimFloat.is_nan (PrimFloat.abs x) = false).
Proof.
  rewrite !FloatAxioms.eqb_spec, FloatAxioms.ltb_spec.
  rewrite <- (Bool.not_true_iff_false (PrimFloat.is_nan _)), float_is_nan_spec.
  rewrite FloatAxioms.abs_spec.
  change (Prim2SF 0) with (S754_zero false). unfold SFltb, SFeqb. intros Hh.
  destruct (Prim2SF h) as [sh|sh| |sh mh eh]; simpl in Hh; try discriminate;
    try (destruct sh; discriminate).
  destruct (Prim2SF x) as [sx|sx| |sx mx ex]; simpl.
  - split; [discriminate|]. intros [H _]. discriminate.
  - split; [intros _; split; congruence|reflexivity].
  - split; [discriminate|]. intros [_ H]. exfalso. apply H. reflexivity.
  - split; [intros _; split; congruence|reflexivity].
Qed.

(** ** The filter in binary64 *)

Section FilterBinary64.
Local Open Scope float_scope.
Implicit Types (self : Profile float) (params : option (gmap string (parameter float))).

(** On the binary64 instance the mask is the comparison [<] of binary64
    between half the filter width and the separation, both as computed. *)
Lemma keep_point_float self (cs off : float) :
  keep_point self cs off
  = (on_resonance_filter (super self) * 0.5
     <? PrimFloat.abs ((cs - carrier (super self)) * ppm_i (super self) / (2 * f_pi) - off)).
Proof. reflexivity. Qed.


End FilterBinary64.



Lemma C4_filter_points_idempotent_coindexed_witness :
  let self := scenario_profile float_of_Z in
  let params := demo_params 300%float in
  let self' := (filter_points self params).2 in
  filter_points self params = (Ok tt, self') /\
  filter_points self' params = (Ok tt, self') /\
  b1_offsets (super self') = [250; 1000]%float.
Proof.
  intros self params self'.
  assert (filter_points self params = (Ok tt, self')) as Hcall by (vm_compute; reflexivity).
  split; [exact Hcall|].
  split; [|vm_compute; reflexivity].
  exact (proj1 (proj2 (proj2 (C4_filter_points_idempotent_coindexed self params))
                  self' Hcall)).
Defined.

(** ** Construction of a profile *)

Lemma is_prefix_spec (p s : string) :
  is_prefix p s = true <-> exists post, s = p +:+ post.
Proof.
  revert s. induction p as [|a p IH]; intros s; simpl.
  - split; [eauto|done].
  - destruct s as [|b s].
    + split; [done|]. intros [post Hpost]. discriminate.
    + case_decide as Hab.
      * subst b. rewrite IH. split; intros [post Hpost]; exists post.
        -- by rewrite Hpost.
        -- by injection Hpost.
      * split; [done|]. intros [post Hpost]. injection Hpost as -> _. done.
Qed.

Lemma contains_spec (sub s : string) : contains sub s = true <-> substring sub s.
Proof.
  unfold substring. induction s as [|c s IH]; simpl.
  - rewrite orb_false_r, is_prefix_spec. split.
    + intros [post Hpost]. by exists "", post.
    + intros ([|] & post & Hpost); [eauto|discriminate].
  - rewrite orb_true_iff, is_prefix_spec, IH. split.
    + intros [[post Hpost]|(pre & post & Hpost)].
      * by exists "", post.
      * exists (String c pre), post. simpl. by rewrite Hpost.
    + intros ([|c' pre] & post & Hpost).
      * left. by exists post.
      * right. injection Hpost as -> Hpost. eauto.
Qed.

Lemma contains_false_spec (sub s : string) : contains sub s = false <-> ~ substring sub s.
Proof. rewrite <- contains_spec. by destruct (contains sub s). Qed.

Lemma select_topology_spec (model : string) :
  (substring "3st" model -> select_topology model = ThreeState) /\
  (~ substring "3st" model -> substring "4st" model -> select_topology model = FourState) /\
  (~ substring "3st" model -> ~ substring "4st" model -> select_topology model = TwoState).
Proof.
  unfold select_topology. repeat split.
  - intros H3%contains_spec. by rewrite H3.
  - intros H3%contains_false_spec H4%contains_spec. by rewrite H3, H4.
  - intros H3%contains_false_spec H4%contains_false_spec. by rewrite H3, H4.
Qed.

Section InitFacts.
Context {F : Type} {scalar : Scalar F} {chemex : Chemex F}.

Lemma tie_r2_step (names : gmap string string) (params params' : gmap string (parameter F))
  (name : string) :
  tie_r2 names params name = Ok params' ->
  (forall full, names !! name = Some full ->
     exists param target,
       params' !! full = Some param /\ names !! "r2_i_a" = Some target /\
       expr param = Some target) /\
  (forall key, match params !! key, params' !! key with
               | Some p, Some p' =>
                   value p' = value p /\
                   (expr p' = expr p \/ Some (expr p') = Some <$> names !! "r2_i_a")
               | None, None => True
               | _, _ => False
               end).
Proof.
  unfold tie_r2, getitem. destruct (names !! name) as [full|] eqn:Hname.
  - destruct (params !! full) as [param|] eqn:Hfull; [|discriminate]. simpl.
    destruct (names !! "r2_i_a") as [target|] eqn:Ha; [|discriminate]. simpl.
    intros [= <-]. split.
    + intros ? [= <-]. exists (set_expr param target), target.
      by rewrite lookup_insert_eq.
    + intros key. destruct (decide (key = full)) as [->|Hne].
      * rewrite lookup_insert_eq, Hfull. simpl. eauto.
      * rewrite lookup_insert_ne by done. destruct (params !! key); eauto.
  - intros [= <-]. split; [done|].
    intros key. destruct (params !! key); eauto.
Qed.

Lemma tie_r2_all_spec (names : gmap string string) (l : list string)
  (params params' : gmap string (parameter F)) :
  tie_r2_all names params l = Ok params' ->
  (forall name full, name ∈ l -> names !! name = Some full ->
     exists param target,
       params' !! full = Some param /\ names !! "r2_i_a" = Some target /\
       expr param = Some target) /\
  (forall key, match params !! key, params' !! key with
               | Some p, Some p' =>
                   value p' = value p /\
                   (expr p' = expr p \/ Some (expr p') = Some <$> names !! "r2_i_a")
               | None, None => True
               | _, _ => False
               end).
Proof.
  revert params. induction l as [|name0 l IH]; intros params Hall; simpl in Hall.
  - injection Hall as <-. split.
    + intros name full Hin. by apply elem_of_nil in Hin.
    + intros key. destruct (params !! key); eauto.
  - apply bind_ok_inv in Hall as (params1 & Hstep & Hrest).
    apply tie_r2_step in Hstep as [Hset1 Hkeep1].
    apply IH in Hrest as [Hset Hkeep].
    split.
    + intros name full [->|Hin]%elem_of_cons Hname; [|by eapply Hset].
      destruct (Hset1 full Hname) as (param & target & Hp & Ht & He).
      specialize (Hkeep full). rewrite Hp in Hkeep.
      destruct (params' !! full) as [p'|]; [|done].
      exists p', target. repeat split; [done|].
      destruct Hkeep as [_ [->|Heq]]; [done|].
      rewrite Ht in Heq. simpl in Heq. by injection Heq.
    + intros key. specialize (Hkeep1 key). specialize (Hkeep key).
      destruct (params !! key) as [p|], (params1 !! key) as [p1|],
        (params' !! key) as [p'|]; try done.
      destruct Hkeep1 as [Hv1 He1], Hkeep as [Hv He].
      split; [congruence|]. destruct He as [He|He]; [|by right].
      rewrite He. done.
Qed.

Lemma Profile_init_inv (name : string) (measurements : list (measurement F))
  (exp_details : gmap string (pyval F)) (self : Profile F) :
  Profile_init name measurements exp_details = Ok self ->
  exists sup nuclei params,
    cest_profile_init name measurements exp_details = Ok sup /\
    resonance_i sup !! "name" = Some nuclei /\
    super self = sup /\
    base self = ixyz_eq (select_topology (model sup)) /\
    liouvillians_b1 self
    = map (fun omega1 => compute_liouvillian (base self) {[ "omega1x_i" := omega1 ]})
          (omega1s sup) /\
    (map_names self, params)
    = create_default_params (base self) (model sup) nuclei (temperature sup)
        (h_larmor_frq sup) (p_total sup) (l_total sup) /\
    tie_r2_all (map_names self) params ["r2_i_b"; "r2_i_c"; "r2_i_d"]
    = Ok (default_params self).
Proof.
  unfold Profile_init. intros Hinit.
  apply bind_ok_inv in Hinit as (sup & Hsup & Hinit).
  apply bind_ok_inv in Hinit as (t_d1 & Ht & Hinit).
  apply bind_ok_inv in Hinit as (eq & He & Hinit).
  apply bind_ok_inv in Hinit as (nuclei & Hn & Hinit).
  destruct (create_default_params _ _ _ _ _ _ _) as [names params] eqn:Hcreate.
  apply bind_ok_inv in Hinit as (params' & Htie & Hinit).
  injection Hinit as <-. simpl.
  exists sup, nuclei, params. repeat split; try done.
  unfold getitem in Hn. by destruct (resonance_i sup !! "name"); simplify_eq.
Qed.

End InitFacts.

(** ** Shapes *)

Lemma np_ix_shape {A : Type} (rs cs : list nat) (M M' : matrix A) :
  np_ix rs cs M = Ok M' -> nrows M' = length rs /\ ncols M' = length cs.
Proof.
  unfold np_ix. intros HM. apply bind_ok_inv in HM as (rws & Hrws & HM).
  injection HM as <-. unfold nrows. simpl. split; [|done].
  by apply for_each_length in Hrws.
Qed.

Lemma mat_dot_shape {T : Type} (zero : T) (add mul : T -> T -> T) (A B C : matrix T) :
  mat_dot zero add mul A B = Ok C ->
  ncols A = nrows B /\ nrows C = nrows A /\ ncols C = ncols B.
Proof.
  unfold mat_dot. case_decide; [|discriminate]. intros [= <-].
  unfold nrows. simpl. by rewrite length_map.
Qed.

Lemma mat_vec_length {T : Type} (zero : T) (add mul : T -> T -> T) (A : matrix T)
  (v u : list T) :
  mat_vec zero add mul A v = Ok u -> length u = nrows A.
Proof.
  unfold mat_vec. case_decide; [|discriminate]. intros [= <-].
  unfold nrows. by rewrite length_map.
Qed.

Section SimulationFacts.
Context {F : Type} {scalar : Scalar F} {scipy : SciPy F}.
Implicit Types (self : Profile F) (kwargs : gmap string F).

Lemma ideal_propagator_shape self (Ls : list (matrix F)) (P : ndarray2 F) :
  ideal_propagator self Ls = Ok P ->
  exists M, P = CplxArr M /\ nrows M = length (index_iz_b (base self)) /\
            ncols M = length (index_iz_eq (base self)).
Proof.
  unfold ideal_propagator. intros HP.
  apply bind_ok_inv in HP as (L0 & _ & HP).
  apply bind_ok_inv in HP as ([s vr] & _ & HP).
  apply bind_ok_inv in HP as (vri & _ & HP).
  apply bind_ok_inv in HP as (vr_sl & Hvr & HP).
  apply bind_ok_inv in HP as (s_sl & _ & HP).
  apply bind_ok_inv in HP as (left & Hleft & HP).
  apply bind_ok_inv in HP as (vri_sl & Hvri & HP).
  apply bind_ok_inv in HP as (M & HM & HP).
  injection HP as <-. exists M. split; [done|].
  apply np_ix_shape in Hvr as [Hr1 _], Hvri as [_ Hc2].
  apply mat_dot_shape in Hleft as (_ & Hr2 & _), HM as (_ & Hr3 & Hc3).
  split; congruence.
Qed.

Lemma averaged_propagator_shape self (Ls : list (matrix F)) (P : ndarray2 F) :
  averaged_propagator self Ls = Ok P ->
  exists M, P = RealArr M /\ nrows M = length (index_iz_b (base self)) /\
            ncols M = length (index_iz_eq (base self)).
Proof.
  unfold averaged_propagator. intros HP.
  apply bind_ok_inv in HP as (props & _ & HP).
  apply bind_ok_inv in HP as (avg & _ & HP).
  apply bind_ok_inv in HP as (M & HM & HP).
  injection HP as <-. exists M. split; [done|]. by apply np_ix_shape in HM.
Qed.

Lemma dot_real_length (P : ndarray2 F) (v u : list F) :
  dot_real P v = Ok u ->
  length u = match P with RealArr M => nrows M | CplxArr M => nrows M end.
Proof.
  destruct P as [M|M]; simpl.
  - apply mat_vec_length.
  - intros Hu. apply bind_ok_inv in Hu as (w & Hw & Hu). injection Hu as <-.
    rewrite length_map. by apply mat_vec_length in Hw.
Qed.

Lemma intensity_at_inv self kwargs (mag0 : list F) (b1_offset : F) (v : list F) :
  intensity_at self kwargs mag0 b1_offset = Ok v ->
  exists liouvillians propagator mag0_start,
    liouvillians_at self kwargs b1_offset = Ok liouvillians /\
    compute_propagator self liouvillians = Ok propagator /\
    np_take mag0 (index_iz_eq (base self)) = Ok mag0_start /\
    dot_real propagator mag0_start = Ok v.
Proof.
  unfold intensity_at. intros Hv.
  apply bind_ok_inv in Hv as (Ls & HLs & Hv).
  apply bind_ok_inv in Hv as (P & HP & Hv).
  apply bind_ok_inv in Hv as (m & Hm & Hv).
  eauto 10.
Qed.

(** Every intensity has one entry per index of the observable group of the
    basis. *)
Lemma intensity_at_length self kwargs (mag0 : list F) (b1_offset : F) (v : list F) :
  intensity_at self kwargs mag0 b1_offset = Ok v ->
  length v = length (index_iz_b (base self)).
Proof.
  intros (Ls & P & m & _ & HP & _ & Hv)%intensity_at_inv.
  apply dot_real_length in Hv. rewrite Hv. unfold compute_propagator in HP.
  destruct (f_is_inf _).
  - by apply ideal_propagator_shape in HP as (M & -> & ? & _).
  - by apply averaged_propagator_shape in HP as (M & -> & ? & _).
Qed.

End SimulationFacts.

Section InitClaims.
Context {F : Type} {scalar : Scalar F} {scipy : SciPy F} {chemex : Chemex F}.

(** C8. Profile construction selects the basis from the model name: the
    three-state basis if the name contains '3st', otherwise the four-state
    basis if it contains '4st', otherwise the two-state basis.  The selected
    basis is the one stored in the profile; it built the field-dependent
    Liouvillians and the parameter-name mapping and default parameters of the
    profile (whose values the constructor leaves as the basis gave them); the
    filter never replaces it; and every intensity the simulation returns has
    one entry per index of the observable group of that basis. *)
Theorem C8_basis_selected_from_model (name : string) (measurements : list (measurement F))
  (exp_details : gmap string (pyval F)) (self : Profile F) :
  Profile_init name measurements exp_details = Ok self ->
  let m := model (super self) in
  (substring "3st" m -> base self = ixyz_eq ThreeState) /\
  (~ substring "3st" m -> substring "4st" m -> base self = ixyz_eq FourState) /\
  (~ substring "3st" m -> ~ substring "4st" m -> base self = ixyz_eq TwoState) /\
  liouvillians_b1 self
  = map (fun omega1 => compute_liouvillian (base self) {[ "omega1x_i" := omega1 ]})
        (omega1s (super self)) /\
  (exists nuclei,
     resonance_i (super self) !! "name" = Some nuclei /\
     let created :=
       create_default_params (base self) m nuclei (temperature (super self))
         (h_larmor_frq (super self)) (p_total (super self)) (l_total (super self)) in
     map_names self = created.1 /\
     value <$> default_params self = value <$> created.2) /\
  (forall params, base (filter_points self params).2 = base self) /\
  (forall kwargs profile,
     calculate_unscaled_profile self kwargs = Ok profile ->
     Forall (fun v => length v = length (index_iz_b (base self))) profile).
Proof.
  intros Hinit m.
  apply Profile_init_inv in Hinit
    as (sup & nuclei & params & Hsup & Hnuc & Hsuper & Hbase & Hl & Hcreate & Htie).
  subst sup. fold m in Hbase, Hcreate.
  destruct (select_topology_spec m) as (H3 & H4 & H2).
  split; [intros ?; by rewrite Hbase, H3|].
  split; [intros ? ?; by rewrite Hbase, H4|].
  split; [intros ? ?; by rewrite Hbase, H2|].
  split; [done|]. split; [|split].
  - exists nuclei. split; [done|]. simpl. rewrite <- Hcreate. simpl. split; [done|].
    apply tie_r2_all_spec in Htie as [_ Hkeep].
    apply map_eq. intros key. rewrite !lookup_fmap. specialize (Hkeep key).
    destruct (params !! key), (default_params self !! key); simpl; try done.
    f_equal. apply Hkeep.
  - intros ps. apply (filter_points_settings self ps).
  - intros kwargs profile Hcalc. unfold calculate_unscaled_profile in Hcalc.
    apply bind_ok_inv in Hcalc as (mag0 & _ & Hcalc).
    apply Forall_forall. intros v [k Hk]%list_elem_of_lookup.
    assert (k < length (b1_offsets (super self))) as Hlt.
    { rewrite <- (for_each_length _ _ _ Hcalc). by apply lookup_lt_Some in Hk. }
    apply lookup_lt_is_Some in Hlt as [off Hoff].
    destruct (for_each_lookup _ _ _ _ _ Hcalc Hoff) as (v' & Hv' & Hk').
    assert (v' = v) as -> by congruence.
    by apply intensity_at_length in Hv'.
Qed.

(** C9. After profile construction, whenever the transverse relaxation rate
    of state C or of state D (or of state B) has a name in the parameter-name
    mapping, the default parameter of that name carries a constraint
    expression, and the expression is the name of the transverse relaxation
    rate of state A: the rate is tied to that of state A, not fitted on its
    own. *)
Theorem C9_r2_tied_to_state_a (name : string) (measurements : list (measurement F))
  (exp_details : gmap string (pyval F)) (self : Profile F) (short full : string) :
  Profile_init name measurements exp_details = Ok self ->
  short ∈ ["r2_i_b"; "r2_i_c"; "r2_i_d"] ->
  map_names self !! short = Some full ->
  exists param r2_a,
    default_params self !! full = Some param /\
    map_names self !! "r2_i_a" = Some r2_a /\
    expr param = Some r2_a.
Proof.
  intros Hinit Hshort Hfull.
  apply Profile_init_inv in Hinit as (sup & nuclei & params & _ & _ & _ & _ & _ & _ & Htie).
  apply tie_r2_all_spec in Htie as [Hset _].
  by apply (Hset short full).
Qed.

End InitClaims.

Lemma C8_basis_selected_from_model_witness :
  exists self,
    Profile_init (chemex := demo_chemex) "G12N-HN" demo_measurements demo_details = Ok self /\
    base self = demo_basis ThreeState.
Proof.
  destruct (Profile_init (chemex := demo_chemex) "G12N-HN" demo_measurements demo_details)
    as [self|e] eqn:Hinit; [|vm_compute in Hinit; discriminate].
  exists self. split; [reflexivity|].
  assert (model (super self) = "cest_3st_fit") as Hmodel.
  { assert (match Profile_init (chemex := demo_chemex) "G12N-HN" demo_measurements demo_details
            with Ok p => model (super p) | Raise _ => "" end = "cest_3st_fit") as Hm
      by (vm_compute; reflexivity).
    by rewrite Hinit in Hm. }
  apply (C8_basis_selected_from_model (scipy := demo_scipy) _ _ _ _ Hinit).
  rewrite Hmodel. by exists "cest_", "_fit".
Defined.

Lemma C9_r2_tied_to_state_a_witness :
  exists self param,
    Profile_init (chemex := demo_chemex) "G12N-HN" demo_measurements demo_details = Ok self /\
    default_params self !! "r2_i_c_N" = Some param /\
    expr param = Some "r2_i_a_N".
Proof.
  destruct (Profile_init (chemex := demo_chemex) "G12N-HN" demo_measurements demo_details)
    as [self|e] eqn:Hinit; [|vm_compute in Hinit; discriminate].
  assert (map_names self !! "r2_i_c" = Some "r2_i_c_N" /\
          map_names self !! "r2_i_a" = Some "r2_i_a_N") as [Hc Ha].
  { assert (match Profile_init (chemex := demo_chemex) "G12N-HN" demo_measurements demo_details
            with
            | Ok p => (map_names p !! "r2_i_c", map_names p !! "r2_i_a")
            | Raise _ => (None, None)
            end = (Some "r2_i_c_N", Some "r2_i_a_N")) as Hm
      by (vm_compute; reflexivity).
    rewrite Hinit in Hm. by injection Hm. }
  destruct (C9_r2_tied_to_state_a _ _ _ self "r2_i_c" "r2_i_c_N" Hinit)
    as (param & r2_a & Hparam & Hr2a & Hexpr); [set_solver|done|].
  exists self, param. repeat split; [done|]. congruence.
Defined.

(** ** The simulation *)

Lemma np_take_slice {F : Type} (a : list F) (idx : list nat) (slice : list F) :
  np_take a idx = Ok slice <-> slice_of a idx slice.
Proof.
  unfold np_take, slice_of. revert slice.
  induction idx as [|i idx IH]; intros slice; simpl.
  - split; [intros [= <-]; constructor|]. by intros ->%Forall2_nil_inv_l.
  - unfold index at 1. destruct (a !! i) as [x|] eqn:Hx; simpl.
    + destruct (for_each (index a) idx) as [xs|] eqn:Hxs; simpl.
      * split.
        -- intros [= <-]. constructor; [done|]. by apply IH.
        -- intros (y & ys & Hy & Hys & ->)%Forall2_cons_inv_l.
           apply IH in Hys. congruence.
      * split; [done|].
        intros (y & ys & Hy & Hys & ->)%Forall2_cons_inv_l. by apply IH in Hys.
    + split; [done|].
      intros (y & ys & Hy & Hys & ->)%Forall2_cons_inv_l. congruence.
Qed.

Section SimulationClaims.
Context {F : Type} {scalar : Scalar F} {scipy : SciPy F}.
Implicit Types (self : Profile F) (kwargs : gmap string F).

Lemma dot_real_spec (P : ndarray2 F) (m v : list F) :
  dot_real P m = Ok v <-> real_part_of_product P m v.
Proof.
  destruct P as [M|M]; simpl; [done|]. split.
  - intros (u & Hu & [= <-])%bind_ok_inv. eauto.
  - intros (u & -> & ->). done.
Qed.


Lemma compute_propagator_failure self (Ls : list (matrix F)) (e : exn) :
  linalg_failure self Ls e -> compute_propagator self Ls = Raise e.
Proof.
  unfold compute_propagator.
  intros [L0 e' Hinf HL0 Heig|L0 s vr e' Hinf HL0 Heig Hinv|j L e' Hinf HL Hexpm Hfirst];
    rewrite Hinf.
  - unfold ideal_propagator, index. rewrite HL0. simpl. by rewrite Heig.
  - unfold ideal_propagator, index. rewrite HL0. simpl. rewrite Heig. simpl.
    by rewrite Hinv.
  - unfold averaged_propagator. unfold scaled_by_t1 in Hexpm, Hfirst.
    by rewrite (for_each_raise _ Ls j L e' HL Hexpm Hfirst).
Qed.

(** C7. A failing linear-algebra step is not caught.  If, for some
    experimental condition of the profile, the eigendecomposition, the
    inversion of the eigenvector matrix or a matrix exponential raises, then
    [calculate_unscaled_profile] raises as well and returns no numbers; and
    when the computations for the conditions before that one succeed, the
    exception it raises is the very exception of the failing step. *)
Theorem C7_linear_algebra_failures_propagate self kwargs (mag0 : list F) (k : nat)
  (b1_offset : F) (liouvillians : list (matrix F)) (e : exn) :
  equilibrium_magnetization self kwargs = Ok mag0 ->
  b1_offsets (super self) !! k = Some b1_offset ->
  liouvillians_at self kwargs b1_offset = Ok liouvillians ->
  linalg_failure self liouvillians e ->
  is_ok (calculate_unscaled_profile self kwargs) = false /\
  ((forall j off, j < k -> b1_offsets (super self) !! j = Some off ->
                  is_ok (intensity_at self kwargs mag0 off) = true) ->
   calculate_unscaled_profile self kwargs = Raise e).
Proof.
  intros Hmag0 Hk HLs Hfail.
  assert (intensity_at self kwargs mag0 b1_offset = Raise e) as Hat.
  { unfold intensity_at. rewrite HLs. simpl.
    by rewrite (compute_propagator_failure _ _ _ Hfail). }
  unfold calculate_unscaled_profile. rewrite Hmag0. simpl. split.
  - apply (for_each_not_ok _ _ b1_offset).
    + apply list_elem_of_lookup. eauto.
    + by rewrite Hat.
  - intros Hbefore. by apply (for_each_raise _ _ k b1_offset).
Qed.

End SimulationClaims.


Lemma C7_linear_algebra_failures_propagate_witness :
  linalg_eig (SciPy := failing_scipy) (Mat 2 [[1; 2]; [3; 4]]%float) = Raise LinAlgError /\
  calculate_unscaled_profile (scipy := failing_scipy) ideal_profile demo_kwargs
  = Raise LinAlgError.
Proof.
  split; [reflexivity|].
  assert (exists Ls L0, liouvillians_at ideal_profile demo_kwargs 250%float = Ok Ls /\
                        Ls !! 0 = Some L0) as (Ls & L0 & HLs & HL0)
    by (vm_compute; eauto).
  apply (C7_linear_algebra_failures_propagate (scipy := failing_scipy) ideal_profile
           demo_kwargs [1%float; 0.25%float] 0 250%float Ls LinAlgError);
    [reflexivity|reflexivity|exact HLs| |intros j off Hj; lia].
  apply (eig_fails (scipy := failing_scipy) _ _ L0); [reflexivity|exact HL0|reflexivity].
Defined.

(** ** The average, entry by entry *)

Section WeightedMean.
Context {F : Type} {scalar : Scalar F}.

Lemma entry_at_mat_map {A B : Type} (f : A -> B) (M : matrix A) (i j : nat) :
  entry_at (mat_map f M) i j = f <$> entry_at M i j.
Proof.
  unfold entry_at, mat_map. simpl. rewrite list_lookup_fmap.
  destruct (rows M !! i) as [row|]; simpl; [apply list_lookup_fmap|done].
Qed.

Lemma entry_at_mat_zip {A B C : Type} (f : A -> B -> C) (M : matrix A) (N : matrix B)
  (i j : nat) (x : A) (y : B) :
  entry_at M i j = Some x -> entry_at N i j = Some y ->
  entry_at (mat_zip f M N) i j = Some (f x y).
Proof.
  unfold entry_at, mat_zip. simpl. intros HM HN. rewrite lookup_zip_with.
  destruct (rows M !! i) as [row|]; [|done]. destruct (rows N !! i) as [row'|]; [|done].
  simpl in *. by rewrite lookup_zip_with, HM, HN.
Qed.

Lemma entry_at_foldl (add : F -> F -> F) (Ms : list (matrix F)) (ys : list F)
  (M : matrix F) (x : F) (i j : nat) :
  entry_at M i j = Some x ->
  Forall2 (fun P y => entry_at P i j = Some y) Ms ys ->
  entry_at (foldl (mat_zip add) M Ms) i j = Some (foldl add x ys).
Proof.
  intros HM Hall. revert M x HM.
  induction Hall as [|N y Ms ys HN _ IH]; intros M x HM; simpl; [done|].
  apply IH. by apply entry_at_mat_zip.
Qed.

Lemma entry_at_weighted (a : list (matrix F)) (xs w : list F) (i j : nat) :
  Forall2 (fun P x => entry_at P i j = Some x) a xs ->
  Forall2 (fun P y => entry_at P i j = Some y)
          (zip_with (fun M wk => mat_map (fun x => f_mul x wk) M) a w)
          (zip_with f_mul xs w).
Proof.
  intros Hall. revert w.
  induction Hall as [|P x a xs HP _ IH]; intros [|wk w]; simpl; try constructor.
  - by rewrite entry_at_mat_map, HP.
  - apply IH.
Qed.

(** The average has, at every position that all the arrays have, the
    weighted mean of their entries at that position. *)
Lemma np_average_entry (propagators : list (matrix F)) (weights xs : list F) (i j : nat) :
  propagators <> [] -> length weights = length propagators ->
  f_eqb (f_sum weights) f_zero = false ->
  Forall2 (fun P x => entry_at P i j = Some x) propagators xs ->
  exists avg,
    np_average propagators weights = Ok avg /\
    entry_at avg i j = Some (weighted_mean xs weights).
Proof.
  intros Hne Hlen Hsum Hall. unfold np_average.
  rewrite decide_True by done. rewrite Hsum. eexists. split; [done|].
  rewrite entry_at_mat_map.
  pose proof (entry_at_weighted propagators xs weights i j Hall) as Hw.
  destruct propagators as [|P Ps]; [done|]. destruct weights as [|wk w]; [done|].
  inversion Hall as [|? x ? xs' HP Hrest]; subst. simpl in Hw.
  inversion Hw as [|? ? ? ? HP' Hrest']; subst.
  unfold mat_sum. cbn [zip_with].
  rewrite (entry_at_foldl f_add _ _ _ _ i j HP' Hrest'). done.
Qed.

End WeightedMean.

(** ** Averaging over the field distribution, in exact arithmetic *)

Lemma mat_map_id {A : Type} (f : A -> A) (M : matrix A) :
  (forall x, f x = x) -> mat_map f M = M.
Proof.
  intros Hf. destruct M as [n rws]. unfold mat_map. simpl. f_equal.
  rewrite <- (map_id rws) at 2. apply map_ext. intros r.
  rewrite <- (map_id r) at 2. by apply map_ext.
Qed.

Lemma mat_map_compose {A B C : Type} (f : A -> B) (g : B -> C) (M : matrix A) :
  mat_map g (mat_map f M) = mat_map (fun x => g (f x)) M.
Proof.
  unfold mat_map. simpl. f_equal. rewrite map_map. apply map_ext. intros r.
  by rewrite map_map.
Qed.

Lemma mat_map_ext {A B : Type} (f g : A -> B) (M : matrix A) :
  (forall x, f x = g x) -> mat_map f M = mat_map g M.
Proof.
  intros Hfg. unfold mat_map. f_equal. apply map_ext. intros r. by apply map_ext.
Qed.

Section ExactAveraging.
Local Open Scope R_scope.

Lemma foldl_Rplus_scale (c a : R) (l : list R) :
  foldl Rplus (c * a) (map (Rmult c) l) = c * foldl Rplus a l.
Proof.
  revert a. induction l as [|x l IH]; intros a; simpl; [done|].
  rewrite <- IH. f_equal. lra.
Qed.

Lemma f_sum_scale (c : R) (l : list R) : f_sum (map (Rmult c) l) = c * f_sum l.
Proof.
  unfold f_sum, np_sum. destruct l as [|x l]; simpl; [lra|]. apply foldl_Rplus_scale.
Qed.

Lemma zip_with_Rplus_scale (c : R) (u v : list R) :
  zip_with Rplus (map (fun x => x * c) u) (map (fun x => x * c) v)
  = map (fun x => x * c) (zip_with Rplus u v).
Proof.
  revert v. induction u as [|x u IH]; intros [|y v]; simpl; try done.
  rewrite IH. f_equal. lra.
Qed.

Lemma mat_zip_scale (c : R) (M N : matrix R) :
  mat_zip Rplus (mat_scale c M) (mat_scale c N) = mat_scale c (mat_zip Rplus M N).
Proof.
  destruct M as [m rm], N as [n rn]. unfold mat_zip, mat_scale, mat_map. simpl. f_equal.
  revert rn. induction rm as [|r rm IH]; intros [|r' rn]; simpl; try done.
  by rewrite IH, zip_with_Rplus_scale.
Qed.

Lemma foldl_mat_zip_scale (c : R) (M : matrix R) (Ms : list (matrix R)) :
  foldl (mat_zip Rplus) (mat_scale c M) (map (mat_scale c) Ms)
  = mat_scale c (foldl (mat_zip Rplus) M Ms).
Proof.
  revert M. induction Ms as [|N Ms IH]; intros M; simpl; [done|].
  by rewrite mat_zip_scale, IH.
Qed.

Lemma weighted_scale (c : R) (a : list (matrix R)) (w : list R) :
  zip_with (fun M wk => mat_map (fun x => x * wk) M) a (map (Rmult c) w)
  = map (mat_scale c) (zip_with (fun M wk => mat_map (fun x => x * wk) M) a w).
Proof.
  revert w. induction a as [|M a IH]; intros [|wk w]; simpl; try done.
  rewrite IH. f_equal. unfold mat_scale. rewrite mat_map_compose.
  apply mat_map_ext. intros x. lra.
Qed.

End ExactAveraging.

Section AveragingClaims.
Context {scipy : SciPy R}.
Local Open Scope R_scope.

Lemma np_average_single (P : matrix R) : np_average [P] [1] = Ok P.
Proof.
  unfold np_average. simpl. destruct (Req_dec_T 1 0) as [Heq|_]; [lra|].
  f_equal. rewrite mat_map_compose. apply mat_map_id. intros x. field.
Qed.

(** C5. In the finite-field regime and in exact arithmetic, when the field
    distribution is a single field value of weight 1, the averaged propagator
    restricted to the observable and initial index groups is the restriction
    of the matrix exponential of the single Liouvillian times the duration:
    averaging adds no error, and fails exactly when the exponential or the
    restriction does. *)
Theorem C5_single_weight_is_direct_exponential (self : Profile R) (liouvillian : matrix R) :
  b1_weights (super self) = [1] ->
  f_is_inf (b1_inh (super self)) = false /\
  compute_propagator self [liouvillian] = direct_propagator self liouvillian /\
  averaged_propagator self [liouvillian] = direct_propagator self liouvillian.
Proof.
  intros Hw. split; [reflexivity|].
  assert (averaged_propagator self [liouvillian] = direct_propagator self liouvillian) as Havg.
  { unfold averaged_propagator, direct_propagator, scaled_by_t1. simpl.
    destruct (linalg_expm _) as [P|e]; [|done]. simpl.
    rewrite Hw. by rewrite np_average_single. }
  split; [|done]. unfold compute_propagator. simpl. done.
Qed.

Lemma np_average_scale (a : list (matrix R)) (weights : list R) (c : R) :
  0 < c -> 0 < f_sum weights ->
  np_average a (map (Rmult c) weights) = np_average a weights.
Proof.
  intros Hc Hsum. unfold np_average. rewrite length_map. case_decide as Hlen; [|done].
  rewrite f_sum_scale. simpl.
  destruct (Req_dec_T (c * f_sum weights) 0) as [Heq|Hne];
    [assert (0 < c * f_sum weights) by (apply Rmult_lt_0_compat; lra); lra|].
  destruct (Req_dec_T (f_sum weights) 0) as [Heq'|Hne']; [lra|].
  f_equal. rewrite weighted_scale.
  set (weighted := zip_with _ a weights).
  assert (mat_sum Rplus (map (mat_scale c) weighted) = mat_scale c (mat_sum Rplus weighted))
    as ->.
  { unfold mat_sum. destruct weighted as [|M Ms]; simpl.
    - by unfold mat_scale, mat_map.
    - apply foldl_mat_zip_scale. }
  unfold mat_scale. rewrite mat_map_compose. apply mat_map_ext. intros x.
  field. split; lra.
Qed.


End AveragingClaims.

Section AveragingWitnesses.
Local Open Scope R_scope.

Lemma C5_single_weight_is_direct_exponential_witness :
  b1_weights (super (scenario_profile IZR)) = [1] /\
  compute_propagator (scipy := demo_scipy) (scenario_profile IZR) [Mat 2 [[1; 2]; [3; 4]]]
  = direct_propagator (scipy := demo_scipy) (scenario_profile IZR) (Mat 2 [[1; 2]; [3; 4]]).
Proof.
  split; [reflexivity|].
  apply (C5_single_weight_is_direct_exponential (scipy := demo_scipy) (scenario_profile IZR)).
  reflexivity.
Defined.

End AveragingWitnesses.



(** ** The ideal regime *)

Lemma positions_where_spec {A : Type} (p : A -> bool) (l : list A) (i : nat) :
  i ∈ positions_where p l <-> exists x, l !! i = Some x /\ p x = true.
Proof.
  unfold positions_where. rewrite list_elem_of_omap. split.
  - intros ([j x] & Hin & Hp). apply elem_of_lookup_imap in Hin as (j' & x' & [= -> ->] & Hx).
    destruct (p x') eqn:Hpx; [|discriminate]. injection Hp as ->. eauto.
  - intros (x & Hx & Hp). exists (i, x). split.
    + apply elem_of_lookup_imap. eauto.
    + by rewrite Hp.
Qed.

Lemma np_ix_lookup {A : Type} (rs cs : list nat) (M M' : matrix A) (a r : nat) :
  np_ix rs cs M = Ok M' -> rs !! a = Some r ->
  exists row,
    rows M' !! a = Some row /\ length row = length cs /\
    forall m c, cs !! m = Some c ->
                exists x, row !! m = Some x /\ rows M !! r ≫= (.!! c) = Some x.
Proof.
  unfold np_ix. intros HM Hr. apply bind_ok_inv in HM as (rws & Hrws & HM).
  injection HM as <-. simpl.
  destruct (for_each_lookup _ _ _ _ _ Hrws Hr) as (row & Hrow & Ha).
  exists row. split; [done|]. split; [by apply for_each_length in Hrow|].
  intros m c Hc.
  destruct (for_each_lookup _ _ _ _ _ Hrow Hc) as (x & Hx & Hm).
  exists x. split; [done|]. unfold index in Hx.
  destruct (rows M !! r) as [rw|]; simpl in *; [|discriminate].
  by destruct (rw !! c); simplify_eq.
Qed.

Section ExactComplex.
Local Open Scope R_scope.
Implicit Types (x y z : complex R).

Lemma c_eq x y : re x = re y -> im x = im y -> x = y.
Proof. destruct x, y. simpl. by intros -> ->. Qed.

Lemma c_add_zero_r x : c_add x c_zero = x.
Proof. apply c_eq; simpl; lra. Qed.

Lemma c_add_zero_l x : c_add c_zero x = x.
Proof. apply c_eq; simpl; lra. Qed.

Lemma c_add_assoc x y z : c_add (c_add x y) z = c_add x (c_add y z).
Proof. apply c_eq; simpl; lra. Qed.

Lemma c_mul_zero_r x : c_mul x c_zero = c_zero.
Proof. apply c_eq; simpl; lra. Qed.

Lemma foldl_c_add x (l : list (complex R)) : foldl c_add x l = c_add x (c_sum l).
Proof.
  unfold c_sum, np_sum. revert x. induction l as [|y l IH]; intros x; simpl.
  - by rewrite c_add_zero_r.
  - rewrite (IH (c_add x y)), (IH y). destruct l as [|y' l]; simpl.
    + by rewrite !c_add_zero_r.
    + by rewrite c_add_assoc.
Qed.

Lemma c_sum_cons x (l : list (complex R)) : c_sum (x :: l) = c_add x (c_sum l).
Proof. unfold c_sum at 1, np_sum. apply foldl_c_add. Qed.

Lemma c_sum_zero (l : list (complex R)) :
  (forall i y, l !! i = Some y -> y = c_zero) -> c_sum l = c_zero.
Proof.
  induction l as [|y l IH]; intros Hzero; [done|].
  rewrite c_sum_cons, (Hzero 0%nat y) by done. rewrite c_add_zero_l.
  apply IH. intros i y' Hy'. by apply (Hzero (S i) y').
Qed.

(** A sum with a single non-zero term. *)
Lemma c_sum_single (l : list (complex R)) (j : nat) x :
  l !! j = Some x ->
  (forall i y, i <> j -> l !! i = Some y -> y = c_zero) ->
  c_sum l = x.
Proof.
  revert j. induction l as [|y l IH]; intros j Hj Hzero; [done|].
  rewrite c_sum_cons. destruct j as [|j]; simpl in Hj.
  - injection Hj as ->. rewrite c_sum_zero; [apply c_add_zero_r|].
    intros i y' Hy'. by apply (Hzero (S i) y').
  - rewrite (Hzero 0%nat y) by done. rewrite c_add_zero_l.
    apply (IH j); [done|]. intros i y' Hi Hy'. apply (Hzero (S i) y'); [lia|done].
Qed.

(** A row times a column of a diagonal matrix. *)
Lemma vdot_diag_column (row d : list (complex R)) (m : nat) x dm :
  length row = length d -> row !! m = Some x -> d !! m = Some dm ->
  vdot c_zero c_add c_mul row (column c_zero m (c_diag d)) = c_mul x dm.
Proof.
  intros Hlen Hx Hd. unfold vdot. fold (c_sum (F:=R)).
  apply (c_sum_single _ m).
  - rewrite lookup_zip_with, Hx. simpl. unfold column, c_diag, np_diag. simpl.
    rewrite list_lookup_fmap, list_lookup_imap, Hd. simpl.
    rewrite list_lookup_fmap, lookup_seq_lt by (by apply lookup_lt_Some in Hd). simpl.
    by rewrite decide_True.
  - intros i y Hi. rewrite lookup_zip_with. unfold column, c_diag, np_diag. simpl.
    rewrite list_lookup_fmap, list_lookup_imap.
    destruct (row !! i) as [xi|]; simpl; [|done].
    destruct (d !! i) as [di|]; simpl; [|done].
    rewrite list_lookup_fmap, lookup_seq_lt by (by apply lookup_lt_Some in Hd). simpl.
    rewrite decide_False by done. intros [= <-]. apply c_mul_zero_r.
Qed.

End ExactComplex.

Section IdealRegime.
Context {scipy : SciPy R}.

Lemma index_ok {A : Type} (a : list A) (i : nat) (x : A) :
  index a i = Ok x <-> a !! i = Some x.
Proof. unfold index. destruct (a !! i); split; intros; simplify_eq; done. Qed.

(** On the exact instance the product of the three arrays the code forms is
    the filtered sum over eigenmodes. *)
Lemma ideal_propagator_reconstruction (self : Profile R) (Ls : list (matrix R))
  (P : ndarray2 R) :
  ideal_propagator self Ls = Ok P ->
  exists L0 s vr vri,
    Ls !! 0 = Some L0 /\ linalg_eig L0 = Ok (s, vr) /\ linalg_inv vr = Ok vri /\
    P = CplxArr (filtered_reconstruction (index_iz_b (base self)) (index_iz_eq (base self))
                   s vr vri (time_t1 (super self))).
Proof.
  unfold ideal_propagator. intros HP.
  apply bind_ok_inv in HP as (L0 & HL0%index_ok & HP).
  apply bind_ok_inv in HP as ([s vr] & Heig & HP).
  apply bind_ok_inv in HP as (vri & Hinv & HP).
  apply bind_ok_inv in HP as (vr_sl & Hvr & HP).
  apply bind_ok_inv in HP as (s_sl & Hs & HP).
  apply bind_ok_inv in HP as (lft & Hleft & HP).
  apply bind_ok_inv in HP as (vri_sl & Hvri & HP).
  apply bind_ok_inv in HP as (M & HM & HP).
  injection HP as <-. exists L0, s, vr, vri. repeat split; try done. f_equal.
  set (start := index_iz_eq (base self)) in *.
  set (end_ := index_iz_b (base self)) in *.
  set (sl := slow_modes s) in *.
  set (t1 := time_t1 (super self)) in *.
  set (dvals := map (fun x => np_exp (c_mul x (c_of_real t1))) s_sl) in *.
  pose proof (np_ix_shape _ _ _ _ Hvr) as [Hvr_rows Hvr_cols].
  pose proof (np_ix_shape _ _ _ _ Hvri) as [Hvri_rows Hvri_cols].
  assert (length s_sl = length sl) as Hs_len by (by apply for_each_length in Hs).
  assert (length dvals = length sl) as Hd_len by (unfold dvals; by rewrite length_map).
  unfold c_dot, mat_dot in Hleft.
  destruct (decide (ncols vr_sl = nrows (c_diag dvals))); [|discriminate].
  injection Hleft as <-.
  unfold c_dot, mat_dot in HM.
  destruct (decide _); [|discriminate].
  injection HM as <-.
  unfold filtered_reconstruction. fold sl. cbn [ncols rows]. rewrite Hvri_cols, Hd_len.
  f_equal.
  apply list_eq. intros a. rewrite !list_lookup_fmap.
  destruct (end_ !! a) as [i|] eqn:Hi; cbn [fmap option_fmap option_map].
  2:{ apply lookup_ge_None in Hi. rewrite <- Hvr_rows in Hi. unfold nrows in Hi.
      apply lookup_ge_None in Hi. by rewrite Hi. }
  destruct (np_ix_lookup _ _ _ _ _ _ Hvr Hi) as (row & Hrow & Hrow_len & Hrow_at).
  rewrite Hrow. cbn [fmap option_fmap option_map]. f_equal.
  apply list_eq. intros b. rewrite !list_lookup_fmap.
  destruct (start !! b) as [j|] eqn:Hj; cbn [fmap option_fmap option_map].
  2:{ apply lookup_ge_None in Hj. by rewrite lookup_seq_ge by lia. }
  rewrite lookup_seq_lt by (by apply lookup_lt_Some in Hj).
  cbn [fmap option_fmap option_map]. f_equal.
  unfold vdot, c_sum. f_equal.
  apply list_eq. intros m. rewrite lookup_zip_with, !list_lookup_fmap.
  destruct (sl !! m) as [k|] eqn:Hk; cbn [fmap option_fmap option_map].
  2:{ apply lookup_ge_None in Hk. by rewrite lookup_seq_ge by lia. }
  rewrite lookup_seq_lt by (by apply lookup_lt_Some in Hk).
  cbn [fmap option_fmap option_map mbind option_bind].
  destruct (Hrow_at m k Hk) as (x & Hx & Hx_entry).
  destruct (for_each_lookup _ _ _ _ _ Hs Hk) as (sk & Hsk%index_ok & Hsk_at).
  assert (dvals !! m = Some (np_exp (c_mul sk (c_of_real t1)))) as Hdm.
  { unfold dvals. by rewrite list_lookup_fmap, Hsk_at. }
  change (0 + m) with m. change (0 + b) with b.
  fold (vdot c_zero c_add c_mul row (column c_zero m (c_diag dvals))).
  rewrite (vdot_diag_column row dvals m x _) by (done || lia).
  destruct (np_ix_lookup _ _ _ _ _ _ Hvri Hk) as (row' & Hrow' & Hrow'_len & Hrow'_at).
  destruct (Hrow'_at b j Hj) as (y & Hy & Hy_entry).
  unfold column. rewrite list_lookup_fmap, Hrow'. cbn [fmap option_fmap option_map].
  rewrite Hy. cbn [default mbind option_bind].
  unfold entry. by rewrite Hx_entry, Hy_entry, Hsk.
Qed.

End IdealRegime.

Lemma float_is_inf_spec (x : float) : f_is_inf x = true <-> x = infinity.
Proof.
  change (f_is_inf x) with (PrimFloat.eqb x infinity). split.
  - intros Hx. rewrite FloatAxioms.eqb_spec in Hx. apply FloatAxioms.Prim2SF_inj.
    change (Prim2SF infinity) with (S754_infinity false) in *.
    destruct (Prim2SF x) as [sg|[|]| |sg m e]; simpl in Hx; try discriminate; reflexivity.
  - intros ->. reflexivity.
Qed.

Lemma slow_modes_spec {F : Type} {scalar : Scalar F} (s : list (complex F)) (i : nat) :
  i ∈ slow_modes s <-> exists z, s !! i = Some z /\ f_ltb (f_abs (im z)) f_tenth = true.
Proof.
  unfold slow_modes. rewrite positions_where_spec. split.
  - intros (x & Hx & Hp). rewrite list_lookup_fmap in Hx.
    destruct (s !! i) as [z|]; [|done]. injection Hx as <-. eauto.
  - intros (z & Hz & Hp). exists (im z). by rewrite list_lookup_fmap, Hz.
Qed.

Lemma ideal_propagator_first_only {F : Type} {scalar : Scalar F} {scipy : SciPy F}
  (self : Profile F) (L0 : matrix F) (rest rest' : list (matrix F)) (w : list F) :
  ideal_propagator (with_b1_weights self w) (L0 :: rest') = ideal_propagator self (L0 :: rest).
Proof. reflexivity. Qed.

(** C1. The regime of the propagator computation is decided by the test
    [b1_inh == np.inf] alone: the ideal, eigenmode-filtering branch is taken
    when it holds and the averaging branch when it does not, and in binary64
    the test holds exactly for the value [inf].  The ideal branch
    eigendecomposes only the first Liouvillian of the condition (the others,
    and the weights, do not matter), keeps exactly the eigenmodes whose
    imaginary part is smaller than 0.1 in absolute value, and, in exact
    arithmetic, the propagator it returns has at the observable index [i] and
    the initial index [j] the sum over the kept eigenmodes [k] of
    [vr[i][k] * exp(s[k] * time_t1) * vri[k][j]], with [vri] the inverse of
    the eigenvector matrix [vr]. *)
Theorem C1_ideal_regime_by_infinite_b1_inh :
  (forall (F : Type) (scalar : Scalar F) (scipy : SciPy F) (self : Profile F)
          (Ls : list (matrix F)),
     (f_is_inf (b1_inh (super self)) = true ->
      compute_propagator self Ls = ideal_propagator self Ls) /\
     (f_is_inf (b1_inh (super self)) = false ->
      compute_propagator self Ls = averaged_propagator self Ls) /\
     (forall L0 rest rest' w,
        ideal_propagator (with_b1_weights self w) (L0 :: rest')
        = ideal_propagator self (L0 :: rest)) /\
     (forall (s : list (complex F)) (i : nat),
        i ∈ slow_modes s <->
        exists z, s !! i = Some z /\ f_ltb (f_abs (im z)) f_tenth = true)) /\
  (forall x : float, f_is_inf x = true <-> x = infinity) /\
  (forall (scipy : SciPy R) (self : Profile R) (Ls : list (matrix R)) (P : ndarray2 R),
     ideal_propagator self Ls = Ok P ->
     exists L0 s vr vri,
       Ls !! 0 = Some L0 /\ linalg_eig L0 = Ok (s, vr) /\ linalg_inv vr = Ok vri /\
       P = CplxArr (filtered_reconstruction (index_iz_b (base self))
                      (index_iz_eq (base self)) s vr vri (time_t1 (super self)))) /\
  (forall (s : list (complex R)) (i : nat),
     i ∈ slow_modes s <-> exists z, s !! i = Some z /\ (Rabs (im z) < 0.1)%R).
Proof.
  split; [|split; [|split]].
  - intros F scalar scipy self Ls. unfold compute_propagator.
    split; [by intros ->|]. split; [by intros ->|].
    split; [intros; apply ideal_propagator_first_only|apply slow_modes_spec].
  - apply float_is_inf_spec.
  - intros scipy self Ls P. apply ideal_propagator_reconstruction.
  - intros s i. rewrite slow_modes_spec. simpl.
    split; intros (z & Hz & Hlt); exists z; (split; [done|]);
      destruct (Rlt_dec (Rabs (im z)) 0.1); done.
Qed.

Lemma C1_ideal_regime_by_infinite_b1_inh_witness :
  (f_is_inf (b1_inh (super ideal_profile)) = true /\
   compute_propagator (scipy := demo_scipy) ideal_profile [Mat 2 [[1; 2]; [3; 4]]%float]
   = Ok (CplxArr (Mat 2 [[Cplx 0 0; Cplx 3 0]]%float))) /\
  (exists P,
     ideal_propagator (scipy := demo_scipy) (scenario_profile IZR) [Mat 2 [[1; 2]; [3; 4]]%R]
     = Ok P /\
     P = CplxArr (filtered_reconstruction (scipy := demo_scipy) [1] [0; 1]
                    [c_of_real 1%R; c_of_real 4%R]
                    (identity_matrix c_zero (c_of_real 1%R) 2)
                    (identity_matrix c_zero (c_of_real 1%R) 2) 0.5%R)).
Proof.
  destruct C1_ideal_regime_by_infinite_b1_inh as (Hregime & _ & Hexact & _).
  split.
  - split; [reflexivity|].
    rewrite (proj1 (Hregime float _ demo_scipy ideal_profile _)) by reflexivity.
    vm_compute. reflexivity.
  - assert (slow_modes (F:=R) [c_of_real 1%R; c_of_real 4%R] = [0; 1]) as Hslow.
    { unfold slow_modes, positions_where. simpl.
      destruct (Rlt_dec (Rabs 0) 0.1) as [_|Hn]; [done|].
      exfalso. apply Hn. rewrite Rabs_R0. lra. }
    assert (exists P, ideal_propagator (scipy := demo_scipy) (scenario_profile IZR)
                        [Mat 2 [[1; 2]; [3; 4]]%R] = Ok P) as [P HP].
    { unfold ideal_propagator. simpl. rewrite Hslow. eexists. reflexivity. }
    exists P. split; [exact HP|].
    destruct (Hexact demo_scipy _ _ _ HP) as (L0 & s & vr & vri & HL0 & Heig & Hinv & ->).
    injection HL0 as <-. simpl in Heig. injection Heig as <- <-.
    simpl in Hinv. injection Hinv as <-. reflexivity.
Defined.

(** ** Reading the CPMG profiles *)

Lemma foldl_add_sum_list (l : list nat) (n : nat) : foldl Nat.add n l = n + sum_list l.
Proof.
  revert n. induction l as [|x l IH]; intros n; simpl; [lia|]. rewrite IH. lia.
Qed.

Section ReadingClaims.
Context {F : Type} {scalar : Scalar F} {env : reading.Env F}.

Lemma count_points_sum (profiles : list (reading.profile F)) :
  reading.count_points profiles = sum_list (map (fun p => length (reading.val p)) profiles).
Proof. unfold reading.count_points. by rewrite foldl_add_sum_list. Qed.

Lemma load_profiles_built (Profile : reading.profile_class F) (path : string)
  (details : gmap string (pyval F)) (res_incl res_excl : option (list string))
  (items : list (string * string)) (built : list (reading.profile F)) :
  reading.load_profiles Profile path details res_incl res_excl items = Ok built ->
  Forall (fun p => exists measurements,
            built_from_file Profile path details res_incl res_excl items p measurements)
         built.
Proof.
  revert built. induction items as [|[name filename] items IH]; intros built Hload;
    simpl in Hload.
  - injection Hload as <-. constructor.
  - assert (forall p m,
              built_from_file Profile path details res_incl res_excl items p m ->
              built_from_file Profile path details res_incl res_excl
                ((name, filename) :: items) p m) as Hmono.
    { intros p m (n & f & Hin & Hrest). exists n, f. split; [by right|done]. }
    destruct (reading.skipped res_incl res_excl name) eqn:Hskip.
    + eapply Forall_impl; [by apply IH|]. intros p [m Hm]. eauto.
    + apply bind_ok_inv in Hload as (measurements & Hm & Hload).
      apply bind_ok_inv in Hload as (p & Hp & Hload).
      apply bind_ok_inv in Hload as (ps & Hps & Hload).
      injection Hload as <-. constructor.
      * exists measurements, name, filename. repeat split; try done. by left.
      * eapply Forall_impl; [by apply IH|]. intros p' [m Hm']. eauto.
Qed.

Lemma read_profiles_inv (path : string) (profile_filenames : list (string * string))
  (experiment_details : gmap string (pyval F)) (res_incl res_excl : option (list string))
  (profiles : list (reading.profile F)) (ndata : nat) (details' : gmap string (pyval F)) :
  reading.read_profiles path profile_filenames experiment_details res_incl res_excl
  = (Ok (profiles, ndata), details') ->
  exists name modname Profile built,
    reading.name_experiment experiment_details = Ok name /\
    details' = <["name" := PStr name]> experiment_details /\
    reading.import_profile_class modname = Ok Profile /\
    reading.load_profiles Profile path details' res_incl res_excl profile_filenames
    = Ok built /\
    profiles = reading.set_errors details' built /\
    ndata = reading.count_points profiles.
Proof.
  unfold reading.read_profiles.
  destruct (_ ← getitem experiment_details "type"; _) as [experiment_type|]; [|intros [=]].
  destruct (reading.name_experiment experiment_details) as [name|]; [|intros [=]].
  intros [= Hres <-].
  apply bind_ok_inv in Hres as (t0 & _ & Hres).
  apply bind_ok_inv in Hres as (t1 & _ & Hres).
  apply bind_ok_inv in Hres as (Profile & HProfile & Hres).
  apply bind_ok_inv in Hres as (built & Hbuilt & Hres).
  injection Hres as <- <-. eauto 10.
Qed.

(** C10. A call of [read_profiles] that returns has built one profile per
    selected file.  If the entry 'error' of the experiment details is 'auto',
    every entry of the uncertainty array
    of every returned profile is one common value, the arithmetic mean (the
    sum divided by the number of profiles) of the noise estimated on each
    built profile, and the arrays keep their lengths.  If the entry is absent
    or has any other value, the returned profiles are the built ones,
    unchanged: for a profile class that stores the columns of its file, the
    uncertainty array is the uncertainty column loaded from the file.  In
    both cases the returned point count is the sum of the lengths of the
    intensity arrays of the returned profiles. *)
Theorem C10_read_profiles_uncertainties (path : string)
  (profile_filenames : list (string * string)) (experiment_details : gmap string (pyval F))
  (res_incl res_excl : option (list string)) (profiles : list (reading.profile F))
  (ndata : nat) (details' : gmap string (pyval F)) :
  reading.read_profiles path profile_filenames experiment_details res_incl res_excl
  = (Ok (profiles, ndata), details') ->
  ndata = sum_list (map (fun p => length (reading.val p)) profiles) /\
  exists modname Profile built,
    reading.import_profile_class modname = Ok Profile /\
    reading.load_profiles Profile path details' res_incl res_excl profile_filenames
    = Ok built /\
    (experiment_details !! "error" = Some (PStr "auto") ->
     let error_value :=
       f_div (f_sum (map reading.estimate_noise built)) (f_of_nat (length built)) in
     Forall (fun p => Forall (fun x => x = error_value) (reading.err p)) profiles /\
     Forall2 (fun b p => length (reading.err p) = length (reading.err b) /\
                         reading.val p = reading.val b)
             built profiles) /\
    (experiment_details !! "error" <> Some (PStr "auto") ->
     profiles = built /\
     (stores_columns Profile ->
      Forall (fun p => exists measurements,
                built_from_file Profile path details' res_incl res_excl profile_filenames
                  p measurements /\
                reading.err p = map intensities_err measurements)
             profiles)).
Proof.
  intros Hread.
  apply read_profiles_inv in Hread
    as (name & modname & Profile & built & Hname & Hdetails & HProfile & Hbuilt & Hprofiles
        & Hndata).
  split; [by rewrite Hndata, count_points_sum|].
  exists modname, Profile, built. split; [done|]. split; [done|].
  assert (details' !! "error" = experiment_details !! "error") as Herror
    by (rewrite Hdetails; by apply lookup_insert_ne).
  unfold reading.set_errors in Hprofiles. rewrite Herror in Hprofiles.
  split.
  - intros Hauto error_value. rewrite Hauto in Hprofiles. simpl in Hprofiles.
    fold error_value in Hprofiles. unfold np_mean in Hprofiles.
    rewrite length_map in Hprofiles. fold error_value in Hprofiles.
    rewrite Hprofiles. split.
    + apply Forall_map, Forall_forall. intros p _. simpl.
      apply Forall_forall. by intros x [-> _]%elem_of_replicate.
    + apply Forall2_fmap_r, Forall_Forall2_diag, Forall_forall. intros p _. simpl.
      by rewrite length_replicate.
  - intros Hnot.
    assert (profiles = built) as ->.
    { rewrite Hprofiles. destruct (experiment_details !! "error") as [[s|x]|]; simpl; try done.
      case_bool_decide; [|done]. subst s. done. }
    split; [done|]. intros Hstores.
    eapply Forall_impl; [by apply load_profiles_built|].
    intros p (m & Hm). exists m. split; [done|].
    destruct Hm as (n & f & _ & _ & _ & Hp). by apply Hstores in Hp as [_ Herr].
Qed.

End ReadingClaims.

Lemma C10_read_profiles_uncertainties_witness :
  exists profiles details',
    reading.read_profiles (env := demo_env float_of_Z) "data" demo_files
      (demo_cpmg_details (Some "auto")) None (Some ["A13N-HN"])
    = (Ok (profiles, 6), details') /\
    Forall (fun p => Forall (fun x => x = 4%float) (reading.err p)) profiles.
Proof.
  destruct (reading.read_profiles (env := demo_env float_of_Z) "data" demo_files
              (demo_cpmg_details (Some "auto")) None (Some ["A13N-HN"]))
    as [[[profiles ndata]|e] details'] eqn:Hread; [|vm_compute in Hread; discriminate].
  assert (ndata = 6) as ->.
  { assert (match reading.read_profiles (env := demo_env float_of_Z) "data" demo_files
                    (demo_cpmg_details (Some "auto")) None (Some ["A13N-HN"])
            with (Ok (_, n), _) => n | (Raise _, _) => 0 end = 6) as H6
      by (vm_compute; reflexivity).
    by rewrite Hread in H6. }
  exists profiles, details'. split; [reflexivity|].
  destruct (C10_read_profiles_uncertainties _ _ _ _ _ _ _ _ Hread)
    as (_ & modname & Profile & built & HProfile & Hbuilt & Hauto & _).
  assert (built = [ {| reading.profile_name := "G12N-HN";
                       reading.ncycs_ := [0; 1; 2]%float;
                       reading.val := [100; 80; 90]%float;
                       reading.err := [2; 4; 6]%float |};
                    {| reading.profile_name := "L14N-HN";
                       reading.ncycs_ := [0; 1; 2]%float;
                       reading.val := [100; 80; 90]%float;
                       reading.err := [2; 4; 6]%float |} ]) as Hb.
  { simpl in HProfile. case_decide; [|discriminate]. injection HProfile as <-.
    vm_compute in Hbuilt. by injection Hbuilt. }
  destruct Hauto as [Hall _]; [reflexivity|].
  rewrite Hb in Hall. exact Hall.
Defined.

(** * Further properties of the profile and of the reader *)

(** ** The data-selection filter *)

Lemma mask_select_twice {A B : Type} (k1 k2 : B -> bool) (o : list B) (a : list A) :
  length a = length o ->
  mask_select (mask_select a (map k1 o)) (map k2 (mask_select o (map k1 o)))
  = mask_select a (map (fun x => k1 x && k2 x) o).
Proof.
  revert a. induction o as [|x o IH]; intros [|y a] Hlen; try done.
  simpl in *. destruct (k1 x); simpl; [destruct (k2 x); simpl|]; rewrite IH by lia; done.
Qed.

Lemma mask_select_ext {A B : Type} (k k' : B -> bool) (o : list B) (a : list A) :
  (forall x, k x = k' x) -> mask_select a (map k o) = mask_select a (map k' o).
Proof. intros Hk. f_equal. by apply map_ext. Qed.

Lemma mask_select_length_map {A B : Type} (k : B -> bool) (o : list B) (a : list A) :
  length a = length o ->
  length (mask_select a (map k o)) = length (mask_select o (map k o)).
Proof. intros Hlen. apply mask_select_length; by rewrite length_map. Qed.

Section FilterExtras.
Context {F : Type} {scalar : Scalar F}.
Implicit Types (self : Profile F) (params : option (gmap string (parameter F))).

Lemma with_arrays_id self :
  with_arrays self (b1_offsets (super self)) (val (super self)) (err (super self))
    (reference (super self)) = self.
Proof. by destruct self as [[] ? ? ? ? ? ?]. Qed.

(** A call that returns replaces the four arrays and nothing else. *)
Lemma filter_points_with_arrays self params self' :
  filter_points self params = (Ok tt, self') ->
  exists cs,
    minor_state_shift self params = Ok cs /\ co_indexed self /\
    self' = with_arrays self
              (mask_select (b1_offsets (super self)) (keep_mask self cs))
              (mask_select (val (super self)) (keep_mask self cs))
              (mask_select (err (super self)) (keep_mask self cs))
              (mask_select (reference (super self)) (keep_mask self cs)).
Proof.
  intros Hcall.
  pose proof (filter_points_ok_inv _ _ _ Hcall) as (cs & Hcs & Hco & _).
  exists cs. split; [done|]. split; [done|].
  unfold filter_points in Hcall. rewrite Hcs in Hcall.
  destruct Hco as (Hv & He & Hr).
  unfold np_mask, keep_mask in Hcall. rewrite length_map in Hcall. simpl in Hcall.
  rewrite !decide_True in Hcall by done. simpl in Hcall. by injection Hcall as <-.
Qed.

Lemma filter_points_with_arrays_ok self params cs :
  minor_state_shift self params = Ok cs -> co_indexed self ->
  filter_points self params
  = (Ok tt, with_arrays self
              (mask_select (b1_offsets (super self)) (keep_mask self cs))
              (mask_select (val (super self)) (keep_mask self cs))
              (mask_select (err (super self)) (keep_mask self cs))
              (mask_select (reference (super self)) (keep_mask self cs))).
Proof.
  intros Hcs Hco. pose proof (filter_points_returns self params cs Hcs Hco) as Hcall.
  destruct (filter_points_with_arrays _ _ _ Hcall) as (cs' & Hcs' & _ & Hself').
  assert (cs' = cs) as -> by congruence. by rewrite Hcall, <- Hself'.
Qed.

(** Two calls in a row amount to one selection by the conjunction of the two
    tests. *)
Lemma filter_points_then self params1 params2 cs1 cs2 :
  minor_state_shift self params1 = Ok cs1 ->
  minor_state_shift self params2 = Ok cs2 ->
  co_indexed self ->
  let both := map (fun off => keep_point self cs1 off && keep_point self cs2 off)
                  (b1_offsets (super self)) in
  filter_points (filter_points self params1).2 params2
  = (Ok tt, with_arrays self
              (mask_select (b1_offsets (super self)) both)
              (mask_select (val (super self)) both)
              (mask_select (err (super self)) both)
              (mask_select (reference (super self)) both)).
Proof.
  intros Hcs1 Hcs2 Hco both.
  rewrite (filter_points_with_arrays_ok self params1 cs1 Hcs1 Hco). cbn [snd].
  set (self1 := with_arrays self _ _ _ _).
  assert (co_indexed self1) as Hco1.
  { apply (filter_points_co_indexed self params1).
    by apply filter_points_with_arrays_ok. }
  assert (minor_state_shift self1 params2 = Ok cs2) as Hcs2' by exact Hcs2.
  rewrite (filter_points_with_arrays_ok self1 params2 cs2 Hcs2' Hco1).
  destruct Hco as (Hv & He & Hr). f_equal.
  change (with_arrays self1 ?o ?v ?e ?r) with (with_arrays self o v e r).
  change (keep_mask self1 cs2)
    with (map (keep_point self cs2)
              (mask_select (b1_offsets (super self))
                 (map (keep_point self cs1) (b1_offsets (super self))))).
  change (b1_offsets (super self1))
    with (mask_select (b1_offsets (super self))
            (map (keep_point self cs1) (b1_offsets (super self)))).
  change (val (super self1))
    with (mask_select (val (super self))
            (map (keep_point self cs1) (b1_offsets (super self)))).
  change (err (super self1))
    with (mask_select (err (super self))
            (map (keep_point self cs1) (b1_offsets (super self)))).
  change (reference (super self1))
    with (mask_select (reference (super self))
            (map (keep_point self cs1) (b1_offsets (super self)))).
  by rewrite !mask_select_twice.
Qed.

(** X1. Filtering for two minor-state shifts one after the other keeps the
    points that pass both tests, so the order of the two calls does not
    matter: when both calls return in one order, they return in the other
    order and leave the same profile. *)
Theorem X1_filter_points_commute self params1 params2 (self1 self12 : Profile F) :
  filter_points self params1 = (Ok tt, self1) ->
  filter_points self1 params2 = (Ok tt, self12) ->
  exists self2 cs1 cs2,
    minor_state_shift self params1 = Ok cs1 /\
    minor_state_shift self params2 = Ok cs2 /\
    filter_points self params2 = (Ok tt, self2) /\
    filter_points self2 params1 = (Ok tt, self12) /\
    b1_offsets (super self12)
    = List.filter (fun off => keep_point self cs1 off && keep_point self cs2 off)
        (b1_offsets (super self)).
Proof.
  intros H1 H12.
  destruct (filter_points_with_arrays _ _ _ H1) as (cs1 & Hcs1 & Hco & Hself1).
  destruct (filter_points_with_arrays _ _ _ H12) as (cs2 & Hcs2 & _ & _).
  assert (minor_state_shift self params2 = Ok cs2) as Hcs2'
    by (rewrite <- Hcs2, Hself1; reflexivity).
  pose proof (filter_points_then self params1 params2 cs1 cs2 Hcs1 Hcs2' Hco) as Hthen.
  pose proof (filter_points_then self params2 params1 cs2 cs1 Hcs2' Hcs1 Hco) as Hthen'.
  rewrite H1 in Hthen. cbn [snd] in Hthen. rewrite H12 in Hthen.
  injection Hthen as Hself12.
  exists (filter_points self params2).2, cs1, cs2.
  split; [done|]. split; [done|].
  split; [by apply (filter_points_returns self params2 cs2)|].
  split.
  - rewrite Hthen', Hself12. do 2 f_equal;
      apply mask_select_ext; intros x; apply andb_comm.
  - rewrite Hself12. apply mask_select_map.
Qed.

(** X2. The exceptions of [filter_points] and the profile they leave behind.
    A call that raises either failed to look the shift of the minor state up
    (a missing name or parameter, or no parameters at all), and then the
    profile is untouched; or it met an array whose length differs from that
    of the offsets, and then it raises [IndexError] with the offsets already
    filtered: the selection is not undone.  In particular, when the
    intensities are the array of the wrong length, the offsets are filtered
    and the three other arrays are as they were. *)
Theorem X2_filter_points_exceptions self params :
  (forall e self',
     filter_points self params = (Raise e, self') ->
     (minor_state_shift self params = Raise e /\ self' = self) \/
     (exists cs,
        minor_state_shift self params = Ok cs /\ e = IndexError /\ ~ co_indexed self /\
        b1_offsets (super self')
        = List.filter (keep_point self cs) (b1_offsets (super self)))) /\
  (forall cs,
     minor_state_shift self params = Ok cs ->
     length (val (super self)) <> length (b1_offsets (super self)) ->
     filter_points self params
     = (Raise IndexError,
        set_b1_offsets self (List.filter (keep_point self cs) (b1_offsets (super self))))).
Proof.
  split.
  - intros e self' Hcall.
    destruct (minor_state_shift self params) as [cs|e'] eqn:Hcs.
    + right. exists cs. split; [done|].
      pose proof (filter_points_offsets self params cs Hcs) as Hoffs.
      rewrite Hcall in Hoffs. simpl in Hoffs.
      assert (~ co_indexed self) as Hnot.
      { intros Hco. pose proof (filter_points_ok self params cs Hcs Hco) as Hok.
        by rewrite Hcall in Hok. }
      split; [|done].
      unfold filter_points in Hcall. rewrite Hcs in Hcall. unfold np_mask in Hcall.
      repeat (match type of Hcall with
              | context [decide ?P] => destruct (decide P); simpl in Hcall
              end; [|by injection Hcall as <- _]).
      discriminate.
    + left. rewrite (filter_points_shift_error self params e' Hcs) in Hcall.
      by injection Hcall as <- <-.
  - intros cs Hcs Hlen. unfold filter_points. rewrite Hcs.
    unfold np_mask, keep_mask. rewrite length_map.
    rewrite decide_True by done. simpl. rewrite decide_False by done.
    by rewrite mask_select_map.
Qed.

End FilterExtras.

Lemma X2_filter_points_exceptions_witness :
  let self := set_val (scenario_profile float_of_Z) [1%float] in
  filter_points self (demo_params 300%float)
  = (Raise IndexError, set_b1_offsets self [250; 1000]%float) /\
  val (super (filter_points self (demo_params 300%float)).2) = [1%float].
Proof.
  intros self. split; [|vm_compute; reflexivity].
  rewrite (proj2 (X2_filter_points_exceptions self (demo_params 300%float)) 300%float);
    [|reflexivity|vm_compute; lia].
  vm_compute. reflexivity.
Defined.

Section FilterExact.
Local Open Scope R_scope.
Implicit Types (self : Profile R) (params : option (gmap string (parameter R))).

Lemma keep_point_separation self (cs off : R) :
  keep_point self cs off = true <->
  separation self cs off > on_resonance_filter (super self) * 0.5.
Proof. apply keep_point_R. Qed.

(** X3. A wider filter never brings a point back.  On the exact instance, for
    two profiles that differ at most in the filter width and in what the
    filter does not read, every offset that the wider filter keeps is kept by
    the narrower one. *)
Theorem X3_wider_filter_keeps_fewer_points (self1 self2 : Profile R) params (cs : R) :
  carrier (super self1) = carrier (super self2) ->
  ppm_i (super self1) = ppm_i (super self2) ->
  b1_offsets (super self1) = b1_offsets (super self2) ->
  on_resonance_filter (super self1) <= on_resonance_filter (super self2) ->
  minor_state_shift self1 params = Ok cs ->
  minor_state_shift self2 params = Ok cs ->
  forall off,
    off ∈ b1_offsets (super (filter_points self2 params).2) ->
    off ∈ b1_offsets (super (filter_points self1 params).2).
Proof.
  intros Hc Hp Ho Hw Hcs1 Hcs2 off.
  rewrite (filter_points_offsets self1 params cs Hcs1),
    (filter_points_offsets self2 params cs Hcs2), Ho.
  rewrite !list_elem_of_In, !filter_In, !keep_point_separation.
  unfold separation. rewrite Hc, Hp. intros [Hin Hgt]. split; [done|]. lra.
Qed.

End FilterExact.

Section FilterWidthBinary64.
Local Open Scope float_scope.
Implicit Types (self : Profile float) (params : option (gmap string (parameter float))).

Lemma keep_point_computed self (cs off : float) :
  keep_point self cs off = (half_width self <? computed_separation self cs off).
Proof. reflexivity. Qed.

(** X4. A filter width that is not positive, in binary64.  When the computed
    half of the width is negative, [filter_points] removes exactly the points
    whose computed separation from the resonance of the minor state is not a
    number, and leaves a profile without such a point as it is.  When the
    computed half of the width is a zero, it removes exactly the points whose
    computed separation is zero or not a number. *)
Theorem X4_nonpositive_filter_width self params (cs : float) :
  minor_state_shift self params = Ok cs ->
  ((half_width self <? 0) = true ->
   (forall off,
      off ∈ b1_offsets (super (filter_points self params).2) <->
      off ∈ b1_offsets (super self) /\
      PrimFloat.is_nan (computed_separation self cs off) = false) /\
   (Forall (fun off => PrimFloat.is_nan (computed_separation self cs off) = false)
           (b1_offsets (super self)) ->
    (filter_points self params).2 = self)) /\
  ((half_width self =? 0) = true ->
   forall off,
     off ∈ b1_offsets (super (filter_points self params).2) <->
     off ∈ b1_offsets (super self) /\
     (computed_separation self cs off =? 0) = false /\
     PrimFloat.is_nan (computed_separation self cs off) = false).
Proof.
  intros Hcs. split.
  - intros Hneg.
    assert (forall off,
              keep_point self cs off = true <->
              PrimFloat.is_nan (computed_separation self cs off) = false) as Hkeep.
    { intros off. rewrite keep_point_computed. split.
      - intros Hlt. destruct (PrimFloat.is_nan _) eqn:Hnan; [|done].
        by rewrite (float_ltb_nan _ _ Hnan) in Hlt.
      - unfold computed_separation. simpl. rewrite float_abs_nan.
        by apply float_neg_ltb_abs. }
    split.
    + intros off. rewrite (filter_points_offsets self params cs Hcs).
      by rewrite !list_elem_of_In, filter_In, Hkeep.
    + intros Hall. apply (filter_points_noop self params cs Hcs).
      unfold keep_mask. apply Forall_map. eapply Forall_impl; [exact Hall|].
      intros off Hnan. by apply Hkeep.
  - intros Hzero off. rewrite (filter_points_offsets self params cs Hcs).
    rewrite !list_elem_of_In, filter_In, keep_point_computed.
    unfold computed_separation. simpl.
    by rewrite (float_zero_ltb_abs _ _ Hzero).
Qed.

End FilterWidthBinary64.

Lemma X3_wider_filter_keeps_fewer_points_witness :
  let narrow := demo_profile [5; 40; 1000]%R 120%R 500%R 50%R 0%R [1%R] [1%R] in
  let wide := demo_profile [5; 40; 1000]%R 120%R 500%R 100%R 0%R [1%R] [1%R] in
  (on_resonance_filter (super narrow) <= on_resonance_filter (super wide))%R /\
  1000%R ∈ b1_offsets (super (filter_points wide (demo_params 120%R)).2) /\
  1000%R ∈ b1_offsets (super (filter_points narrow (demo_params 120%R)).2).
Proof.
  intros narrow wide.
  assert (on_resonance_filter (super narrow) <= on_resonance_filter (super wide))%R as Hw
    by (simpl; lra).
  assert (1000%R ∈ b1_offsets (super (filter_points wide (demo_params 120%R)).2)) as Hin.
  { rewrite (filter_points_offsets wide (demo_params 120%R) 120%R eq_refl).
    apply list_elem_of_In, filter_In. split; [simpl; tauto|].
    apply keep_point_R. simpl.
    replace ((120 - 120) * 500 / (2 * PI) - 1000)%R with (-1000)%R
      by (field; apply PI_neq0).
    unfold Rabs. destruct (Rcase_abs _); lra. }
  split; [exact Hw|]. split; [exact Hin|].
  exact (X3_wider_filter_keeps_fewer_points narrow wide (demo_params 120%R) 120%R
           eq_refl eq_refl eq_refl Hw eq_refl eq_refl 1000%R Hin).
Defined.

Lemma X4_nonpositive_filter_width_witness :
  let self :=
    demo_profile [5; 40; 1000]%float 120%float 500%float (-1)%float 0%float
      [1%float] [1%float] in
  PrimFloat.ltb (half_width self) 0 = true /\
  (filter_points self (demo_params 120%float)).2 = self.
Proof.
  intros self.
  assert (PrimFloat.ltb (half_width self) 0 = true) as Hneg by (vm_compute; reflexivity).
  split; [exact Hneg|].
  apply (proj2 (proj1 (X4_nonpositive_filter_width self (demo_params 120%float) 120%float
                         eq_refl) Hneg)).
  repeat constructor.
Defined.

(** ** Filtering and simulating *)

Lemma for_each_mask_select {A B : Type} (f : A -> result B) (l : list A) (r : list B)
  (mask : list bool) :
  for_each f l = Ok r -> for_each f (mask_select l mask) = Ok (mask_select r mask).
Proof.
  revert r mask. induction l as [|x l IH]; intros r mask Hr; simpl in Hr.
  - injection Hr as <-. by destruct mask.
  - destruct (f x) as [y|] eqn:Hy; [|discriminate]. simpl in Hr.
    destruct (for_each f l) as [ys|] eqn:Hys; [|discriminate]. simpl in Hr.
    injection Hr as <-. destruct mask as [|b mask]; [done|]. simpl.
    destruct b; simpl; [rewrite Hy; simpl|]; by rewrite (IH ys mask eq_refl).
Qed.

Section FilterThenSimulate.
Context {F : Type} {scalar : Scalar F} {scipy : SciPy F}.

(** X5. Filtering and simulating commute.  If the simulation of a profile
    returns and the filter returns, the simulation of the filtered profile
    returns the intensities computed before, at the points the filter kept:
    no retained point changes its predicted intensity. *)
Theorem X5_simulate_filtered_profile (self self' : Profile F)
  (params : option (gmap string (parameter F))) (kwargs : gmap string F)
  (profile : list (list F)) :
  calculate_unscaled_profile self kwargs = Ok profile ->
  filter_points self params = (Ok tt, self') ->
  exists cs,
    minor_state_shift self params = Ok cs /\
    calculate_unscaled_profile self' kwargs = Ok (mask_select profile (keep_mask self cs)).
Proof.
  intros Hcalc Hfilter.
  destruct (filter_points_with_arrays _ _ _ Hfilter) as (cs & Hcs & _ & ->).
  exists cs. split; [done|].
  unfold calculate_unscaled_profile in *.
  change (equilibrium_magnetization (with_arrays self _ _ _ _) kwargs)
    with (equilibrium_magnetization self kwargs).
  destruct (equilibrium_magnetization self kwargs) as [mag0|]; [|discriminate].
  simpl in Hcalc. cbn [mbind result_bind bind].
  change (intensity_at (with_arrays self _ _ _ _) kwargs mag0)
    with (intensity_at self kwargs mag0).
  by apply for_each_mask_select.
Qed.

End FilterThenSimulate.

Lemma X5_simulate_filtered_profile_witness :
  let self := scenario_profile float_of_Z in
  exists profile,
    calculate_unscaled_profile (scipy := demo_scipy) self demo_kwargs = Ok profile /\
    calculate_unscaled_profile (scipy := demo_scipy)
      (filter_points self (demo_params 300%float)).2 demo_kwargs
    = Ok (mask_select profile [true; false; false; true]).
Proof.
  intros self.
  destruct (calculate_unscaled_profile (scipy := demo_scipy) self demo_kwargs)
    as [profile|e] eqn:Hcalc; [|vm_compute in Hcalc; discriminate].
  exists profile. split; [reflexivity|].
  assert (filter_points self (demo_params 300%float)
          = (Ok tt, (filter_points self (demo_params 300%float)).2)) as Hfilter
    by (vm_compute; reflexivity).
  destruct (X5_simulate_filtered_profile (scipy := demo_scipy) _ _ _ _ _ Hcalc Hfilter)
    as (cs & Hcs & Hsim).
  assert (keep_mask self cs = [true; false; false; true]) as Hmask.
  { vm_compute in Hcs. injection Hcs as <-. vm_compute. reflexivity. }
  by rewrite Hsim, Hmask.
Defined.

Lemma X1_filter_points_commute_witness :
  let self := scenario_profile float_of_Z in
  let self1 := (filter_points self (demo_params 300%float)).2 in
  let self12 := (filter_points self1 (demo_params 1000%float)).2 in
  filter_points self (demo_params 300%float) = (Ok tt, self1) /\
  filter_points self1 (demo_params 1000%float) = (Ok tt, self12) /\
  filter_points (filter_points self (demo_params 1000%float)).2 (demo_params 300%float)
  = (Ok tt, self12) /\
  b1_offsets (super self12) = [250%float].
Proof.
  intros self self1 self12.
  assert (filter_points self (demo_params 300%float) = (Ok tt, self1)) as H1
    by (vm_compute; reflexivity).
  assert (filter_points self1 (demo_params 1000%float) = (Ok tt, self12)) as H12
    by (vm_compute; reflexivity).
  split; [exact H1|]. split; [exact H12|].
  destruct (X1_filter_points_commute self _ _ self1 self12 H1 H12)
    as (self2 & cs1 & cs2 & _ & _ & H2 & H21 & _).
  split; [|vm_compute; reflexivity].
  by rewrite H2.
Defined.

(** ** Keyword arguments of the simulation *)

Lemma call_kw_clash {F : Type} (explicit : list (string * F)) (kwargs : gmap string F)
  (k : string) (v : F) :
  (k, v) ∈ explicit -> is_Some (kwargs !! k) -> call_kw explicit kwargs = Raise TypeError.
Proof.
  intros Hin [w Hw]. induction explicit as [|[k' v'] rest IH]; [by apply elem_of_nil in Hin|].
  simpl. destruct (kwargs !! k') eqn:Hk'; [done|].
  apply elem_of_cons in Hin as [[= -> ->]|Hin]; [congruence|].
  by rewrite (IH Hin).
Qed.

Section KeywordArguments.
Context {F : Type} {scalar : Scalar F} {scipy : SciPy F}.

(** X6. The names the simulation passes by keyword are reserved.  A parameter
    set that has an entry 'time_d1' makes [calculate_unscaled_profile] raise
    [TypeError] before anything is computed; without it, a profile without
    measurement points gives the empty result, and a profile with points
    raises [TypeError] as soon as the parameter set has an entry named
    'omega_i_a', 'omega_i_b', 'omega_i_c' or 'omega_i_d'. *)
Theorem X6_reserved_keyword_names (self : Profile F) (kwargs : gmap string F) :
  (is_Some (kwargs !! "time_d1") ->
   calculate_unscaled_profile self kwargs = Raise TypeError) /\
  (kwargs !! "time_d1" = None -> b1_offsets (super self) = [] ->
   calculate_unscaled_profile self kwargs = Ok []) /\
  (kwargs !! "time_d1" = None -> b1_offsets (super self) <> [] ->
   forall key, key ∈ ["omega_i_a"; "omega_i_b"; "omega_i_c"; "omega_i_d"] ->
               is_Some (kwargs !! key) ->
               calculate_unscaled_profile self kwargs = Raise TypeError).
Proof.
  unfold calculate_unscaled_profile, equilibrium_magnetization. split; [|split].
  - intros Hd1. rewrite (call_kw_clash _ _ "time_d1" (time_d1 self)); [done| |done].
    by left.
  - intros Hd1 Hempty. simpl. rewrite Hd1, Hempty. done.
  - intros Hd1 Hne key Hkey Hsome. simpl. rewrite Hd1. simpl.
    destruct (b1_offsets (super self)) as [|off offs]; [done|]. simpl.
    unfold intensity_at, liouvillians_at.
    assert (exists v,
              (key, v) ∈ zip ["omega_i_a"; "omega_i_b"; "omega_i_c"; "omega_i_d"]
                             (map (fun w => f_sub w (f_mul (f_mul f_two f_pi) off))
                                  (omega_i_cars self kwargs))) as [v Hv].
    { unfold omega_i_cars. simpl.
      repeat (apply elem_of_cons in Hkey as [->|Hkey];
              [eexists; repeat (first [by left | right])|]).
      by apply elem_of_nil in Hkey. }
    by rewrite (call_kw_clash _ _ key v Hv Hsome).
Qed.

End KeywordArguments.

Lemma X6_reserved_keyword_names_witness :
  is_Some ((<["time_d1" := 2%float]> demo_kwargs) !! "time_d1") /\
  calculate_unscaled_profile (scipy := demo_scipy) (scenario_profile float_of_Z)
    (<["time_d1" := 2%float]> demo_kwargs)
  = Raise TypeError.
Proof.
  assert (is_Some ((<["time_d1" := 2%float]> demo_kwargs) !! "time_d1")) as Hsome
    by (eexists; reflexivity).
  split; [exact Hsome|].
  exact (proj1 (X6_reserved_keyword_names (scipy := demo_scipy) _ _) Hsome).
Defined.

(** ** Edge cases of the two regimes *)

Lemma for_each_const {A B : Type} (y : B) (l : list A) :
  for_each (fun _ => Ok y) l = Ok (replicate (length l) y).
Proof. induction l as [|x l IH]; [done|]. simpl. by rewrite IH. Qed.

Lemma map_replicate {A B : Type} (f : A -> B) (n : nat) (x : A) :
  map f (replicate n x) = replicate n (f x).
Proof. induction n as [|n IH]; [done|]. simpl. by rewrite IH. Qed.

Section RegimeEdges.
Context {F : Type} {scalar : Scalar F} {scipy : SciPy F}.

(** X7. When no eigenmode passes the filter of the ideal regime (every
    eigenvalue has an imaginary part of 0.1 or more in absolute value), the
    propagator is the array of zeros with one row per observable index and
    one column per initial index, whatever the eigenvectors are: the
    prediction carries no information on the parameters. *)
Theorem X7_no_slow_mode_gives_zero_propagator (self : Profile F) (L0 : matrix F)
  (rest : list (matrix F)) (s : list (complex F)) (vr vri : matrix (complex F)) :
  linalg_eig L0 = Ok (s, vr) ->
  linalg_inv vr = Ok vri ->
  (forall z, z ∈ s -> f_ltb (f_abs (im z)) f_tenth = false) ->
  ideal_propagator self (L0 :: rest)
  = Ok (CplxArr (zero_matrix (length (index_iz_b (base self)))
                             (length (index_iz_eq (base self))))).
Proof.
  intros Heig Hinv Hfast.
  assert (slow_modes s = []) as Hslow.
  { apply elem_of_nil_inv. intros i (z & Hz & Hlt)%slow_modes_spec.
    rewrite Hfast in Hlt; [done|]. by apply list_elem_of_lookup_2 in Hz. }
  unfold ideal_propagator. simpl. rewrite Heig. simpl. rewrite Hinv. simpl.
  rewrite Hslow. unfold np_ix, np_take. simpl. rewrite for_each_const. simpl.
  unfold zero_matrix. do 3 f_equal.
  rewrite !map_replicate. f_equal. simpl.
  set (n := length (index_iz_eq (base self))).
  replace (replicate n (c_zero (F:=F))) with (replicate (length (seq 0 n)) (c_zero (F:=F)))
    by (by rewrite length_seq).
  generalize (seq 0 n). intros l.
  induction l as [|j l IH]; [done|]. simpl. by rewrite IH.
Qed.

(** X8. The failures of the average over the field distribution.  In the
    finite-field regime, once every matrix exponential has been computed,
    the propagator computation raises [ValueError] when the number of weights
    differs from the number of Liouvillians, and [ZeroDivisionError] when the
    numbers agree and the weights sum to zero; otherwise the average itself
    does not fail. *)
Theorem X8_average_failures (self : Profile F) (liouvillians propagators : list (matrix F)) :
  f_is_inf (b1_inh (super self)) = false ->
  for_each (fun L => linalg_expm (scaled_by_t1 self L)) liouvillians = Ok propagators ->
  let w := b1_weights (super self) in
  (length w <> length liouvillians ->
   compute_propagator self liouvillians = Raise ValueError) /\
  (length w = length liouvillians -> f_eqb (f_sum w) f_zero = true ->
   compute_propagator self liouvillians = Raise ZeroDivisionError) /\
  (length w = length liouvillians -> f_eqb (f_sum w) f_zero = false ->
   is_ok (np_average propagators w) = true).
Proof.
  intros Hinf Hexp w. unfold compute_propagator, averaged_propagator. rewrite Hinf.
  unfold scaled_by_t1 in Hexp. rewrite Hexp. simpl.
  pose proof (for_each_length _ _ _ Hexp) as Hlen.
  unfold np_average. fold w. rewrite Hlen. split; [|split].
  - intros Hne. by rewrite decide_False.
  - intros Heq Hzero. rewrite decide_True by done. by rewrite Hzero.
  - intros Heq Hzero. rewrite decide_True by done. by rewrite Hzero.
Qed.

End RegimeEdges.

Lemma X7_no_slow_mode_gives_zero_propagator_witness :
  compute_propagator (scipy := oscillating_scipy) ideal_profile [Mat 2 [[1; 2]; [3; 4]]%float]
  = Ok (CplxArr (Mat 2 [[Cplx 0 0; Cplx 0 0]]%float)).
Proof.
  change (compute_propagator (scipy := oscillating_scipy) ideal_profile
            [Mat 2 [[1; 2]; [3; 4]]%float])
    with (ideal_propagator (scipy := oscillating_scipy) ideal_profile
            [Mat 2 [[1; 2]; [3; 4]]%float]).
  rewrite (X7_no_slow_mode_gives_zero_propagator (scipy := oscillating_scipy)
             ideal_profile _ [] [Cplx 0 1; Cplx 0 (-1)]%float
             (identity_matrix c_zero (c_of_real f_one) 2)
             (identity_matrix c_zero (c_of_real f_one) 2));
    [reflexivity|reflexivity|reflexivity|].
  intros z Hz.
  repeat (apply elem_of_cons in Hz as [->|Hz]; [vm_compute; reflexivity|]).
  by apply elem_of_nil in Hz.
Defined.

Lemma X8_average_failures_witness :
  let self := with_b1_weights (scenario_profile float_of_Z) [0%float] in
  f_is_inf (b1_inh (super self)) = false /\
  compute_propagator (scipy := demo_scipy) self [Mat 2 [[1; 2]; [3; 4]]%float]
  = Raise ZeroDivisionError.
Proof.
  intros self. split; [reflexivity|].
  apply (X8_average_failures (scipy := demo_scipy) self [Mat 2 [[1; 2]; [3; 4]]%float]
           [Mat 2 [[1.5; 1]; [1.5; 3]]%float]);
    [reflexivity|vm_compute; reflexivity|reflexivity|vm_compute; reflexivity].
Defined.

(** ** Construction: the loop that ties the transverse relaxation rates *)

Section TieLoop.
Context {F : Type} {scalar : Scalar F} {chemex : Chemex F}.

Lemma tie_r2_all_other (names : gmap string string) (l : list string)
  (params params' : gmap string (parameter F)) (key : string) :
  tie_r2_all names params l = Ok params' ->
  (forall short, short ∈ l -> names !! short <> Some key) ->
  params' !! key = params !! key.
Proof.
  revert params. induction l as [|name l IH]; intros params Hall Hother; simpl in Hall.
  - by injection Hall as <-.
  - apply bind_ok_inv in Hall as (params1 & Hstep & Hrest).
    rewrite (IH params1 Hrest) by (intros short Hin; apply Hother; by right).
    unfold tie_r2 in Hstep. destruct (names !! name) as [full|] eqn:Hname.
    + apply bind_ok_inv in Hstep as (param & _ & Hstep).
      apply bind_ok_inv in Hstep as (target & _ & Hstep).
      injection Hstep as <-. apply lookup_insert_ne.
      intros ->. by apply (Hother name); [left|].
    + by injection Hstep as <-.
Qed.

(** X9. The constructor changes no parameter but the ones it ties.  After
    construction, every default parameter whose name is not the name that the
    mapping gives to 'r2_i_b', 'r2_i_c' or 'r2_i_d' is exactly as the basis
    created it, value and constraint expression alike, and no parameter is
    added or removed. *)
Theorem X9_untied_parameters_untouched (name : string) (measurements : list (measurement F))
  (exp_details : gmap string (pyval F)) (self : Profile F) :
  Profile_init name measurements exp_details = Ok self ->
  exists nuclei,
    resonance_i (super self) !! "name" = Some nuclei /\
    let created :=
      create_default_params (base self) (model (super self)) nuclei
        (temperature (super self)) (h_larmor_frq (super self)) (p_total (super self))
        (l_total (super self)) in
    dom (default_params self) = dom created.2 /\
    forall key,
      (forall short, short ∈ ["r2_i_b"; "r2_i_c"; "r2_i_d"] ->
                     map_names self !! short <> Some key) ->
      default_params self !! key = created.2 !! key.
Proof.
  intros Hinit.
  apply Profile_init_inv in Hinit
    as (sup & nuclei & params & _ & Hnuc & <- & _ & _ & Hcreate & Htie).
  exists nuclei. split; [done|]. simpl. rewrite <- Hcreate. simpl. split.
  - apply tie_r2_all_spec in Htie as [_ Hkeep].
    apply set_eq. intros key. rewrite !elem_of_dom. specialize (Hkeep key).
    destruct (params !! key), (default_params self !! key); try done.
  - intros key Hother. by apply (tie_r2_all_other _ _ _ _ _ Htie).
Qed.

(** X10. What the loop needs.  When the base class, the two settings and the
    nucleus name are available and the basis has created the mapping [names]
    and the parameters [params]: if the mapping names none of 'r2_i_b',
    'r2_i_c', 'r2_i_d', construction succeeds and stores [params] unchanged;
    if it names one of them (with its parameter present in [params]) but has
    no entry 'r2_i_a', construction raises [KeyError] for 'r2_i_a'. *)
Theorem X10_tie_loop_requirements (name : string) (measurements : list (measurement F))
  (exp_details : gmap string (pyval F)) (sup : CESTProfile F) (t_d1 : F) (eq : bool)
  (nuclei : string) (names : gmap string string) (params : gmap string (parameter F)) :
  cest_profile_init name measurements exp_details = Ok sup ->
  check_par_float exp_details "time_d1" f_one = Ok t_d1 ->
  check_par_bool exp_details "equilibrium" false = Ok eq ->
  resonance_i sup !! "name" = Some nuclei ->
  create_default_params (ixyz_eq (select_topology (model sup))) (model sup) nuclei
    (temperature sup) (h_larmor_frq sup) (p_total sup) (l_total sup) = (names, params) ->
  ((forall short, short ∈ ["r2_i_b"; "r2_i_c"; "r2_i_d"] -> names !! short = None) ->
   exists self,
     Profile_init name measurements exp_details = Ok self /\
     super self = sup /\ map_names self = names /\ default_params self = params) /\
  (names !! "r2_i_a" = None ->
   (exists short, short ∈ ["r2_i_b"; "r2_i_c"; "r2_i_d"] /\ is_Some (names !! short)) ->
   (forall short full, short ∈ ["r2_i_b"; "r2_i_c"; "r2_i_d"] ->
                       names !! short = Some full -> is_Some (params !! full)) ->
   Profile_init name measurements exp_details = Raise (KeyError "r2_i_a")).
Proof.
  intros Hsup Hd1 Heq Hnuc Hcreate.
  assert (Profile_init name measurements exp_details
          = (params' ← tie_r2_all names params ["r2_i_b"; "r2_i_c"; "r2_i_d"];
             Ok {| super := sup; time_d1 := t_d1; equilibrium := eq;
                   base := ixyz_eq (select_topology (model sup));
                   liouvillians_b1 :=
                     map (fun omega1 =>
                            compute_liouvillian (ixyz_eq (select_topology (model sup)))
                              {[ "omega1x_i" := omega1 ]})
                         (omega1s sup);
                   map_names := names; default_params := params' |})) as ->.
  { unfold Profile_init. rewrite Hsup. simpl. rewrite Hd1. simpl. rewrite Heq. simpl.
    unfold getitem. rewrite Hnuc. simpl. by rewrite Hcreate. }
  simpl. split.
  - intros Hnone. unfold tie_r2.
    rewrite (Hnone "r2_i_b"), (Hnone "r2_i_c"), (Hnone "r2_i_d")
      by (repeat first [by left | right]).
    simpl. eauto.
  - intros Ha (short & Hshort & Hsome) Hparams.
    assert (forall short ps,
              short ∈ ["r2_i_b"; "r2_i_c"; "r2_i_d"] ->
              tie_r2 names params short = Ok ps -> names !! short = None /\ ps = params)
      as Hstep.
    { intros sh ps Hin. unfold tie_r2. destruct (names !! sh) as [full|] eqn:Hsh.
      - destruct (Hparams sh full Hin Hsh) as [p Hp].
        unfold getitem. rewrite Hp, Ha. done.
      - by intros [= <-]. }
    assert ("r2_i_b" ∈ ["r2_i_b"; "r2_i_c"; "r2_i_d"]) as Hinb by (by left).
    assert ("r2_i_c" ∈ ["r2_i_b"; "r2_i_c"; "r2_i_d"]) as Hinc by (right; by left).
    assert ("r2_i_d" ∈ ["r2_i_b"; "r2_i_c"; "r2_i_d"]) as Hind by (do 2 right; by left).
    destruct (tie_r2 names params "r2_i_b") as [p1|e1] eqn:H1.
    + destruct (Hstep "r2_i_b" p1 Hinb H1) as [Hb ->]. simpl.
      destruct (tie_r2 names params "r2_i_c") as [p2|e2] eqn:H2.
      * destruct (Hstep "r2_i_c" p2 Hinc H2) as [Hc ->]. simpl.
        destruct (tie_r2 names params "r2_i_d") as [p3|e3] eqn:H3.
        -- destruct (Hstep "r2_i_d" p3 Hind H3) as [Hd ->].
           exfalso. destruct Hsome as [full Hfull].
           repeat (apply elem_of_cons in Hshort as [->|Hshort]; [congruence|]).
           by apply elem_of_nil in Hshort.
        -- simpl. f_equal. clear -H3 Ha Hparams Hind. unfold tie_r2 in H3.
           destruct (names !! "r2_i_d") as [full|] eqn:Hd; [|done].
           destruct (Hparams "r2_i_d" full Hind Hd) as [p Hp].
           unfold getitem in H3. rewrite Hp, Ha in H3. simpl in H3. congruence.
      * simpl. f_equal. clear -H2 Ha Hparams Hinc. unfold tie_r2 in H2.
        destruct (names !! "r2_i_c") as [full|] eqn:Hc; [|done].
        destruct (Hparams "r2_i_c" full Hinc Hc) as [p Hp].
        unfold getitem in H2. rewrite Hp, Ha in H2. simpl in H2. congruence.
    + simpl. f_equal. clear -H1 Ha Hparams Hinb. unfold tie_r2 in H1.
      destruct (names !! "r2_i_b") as [full|] eqn:Hb; [|done].
      destruct (Hparams "r2_i_b" full Hinb Hb) as [p Hp].
      unfold getitem in H1. rewrite Hp, Ha in H1. simpl in H1. congruence.
Qed.

End TieLoop.

Lemma X9_untied_parameters_untouched_witness :
  exists self,
    Profile_init (chemex := demo_chemex) "G12N-HN" demo_measurements demo_details = Ok self /\
    default_params self !! "cs_i_b_N" = Some (Param 0%float None).
Proof.
  destruct (Profile_init (chemex := demo_chemex) "G12N-HN" demo_measurements demo_details)
    as [self|e] eqn:Hinit; [|vm_compute in Hinit; discriminate].
  exists self. split; [reflexivity|].
  assert (map_names self !! "r2_i_b" = Some "r2_i_b_N" /\
          map_names self !! "r2_i_c" = Some "r2_i_c_N" /\
          map_names self !! "r2_i_d" = None /\
          model (super self) = "cest_3st_fit" /\
          resonance_i (super self) !! "name" = Some "N") as (Hb & Hc & Hd & Hm & Hn).
  { assert (match Profile_init (chemex := demo_chemex) "G12N-HN" demo_measurements
                    demo_details with
            | Ok p => (map_names p !! "r2_i_b", map_names p !! "r2_i_c",
                       map_names p !! "r2_i_d", model (super p),
                       resonance_i (super p) !! "name")
            | Raise _ => (None, None, None, "", None)
            end = (Some "r2_i_b_N", Some "r2_i_c_N", None, "cest_3st_fit", Some "N")) as Hall
      by (vm_compute; reflexivity).
    rewrite Hinit in Hall. by injection Hall. }
  destruct (X9_untied_parameters_untouched _ _ _ self Hinit) as (nuclei & Hnuc & _ & Hother).
  assert (nuclei = "N") as -> by congruence.
  rewrite (Hother "cs_i_b_N").
  - destruct (Profile_init_inv _ _ _ _ Hinit) as (sup & _ & _ & _ & _ & <- & Hbase & _).
    rewrite Hbase, Hm. reflexivity.
  - intros short Hshort.
    repeat (apply elem_of_cons in Hshort as [->|Hshort]; [congruence|]).
    by apply elem_of_nil in Hshort.
Defined.

Lemma X10_tie_loop_requirements_witness :
  Profile_init (chemex := lopsided_chemex) "G12N-HN" demo_measurements demo_details
  = Raise (KeyError "r2_i_a").
Proof.
  destruct (cest_profile_init (Chemex := lopsided_chemex) "G12N-HN" demo_measurements
              demo_details) as [sup|e] eqn:Hsup; [|discriminate].
  assert (check_par_float (Chemex := lopsided_chemex) demo_details "time_d1" f_one
          = Ok 1%float) as Hd1 by (vm_compute; reflexivity).
  assert (check_par_bool (Chemex := lopsided_chemex) demo_details "equilibrium" false
          = Ok false) as Heq by (vm_compute; reflexivity).
  assert (resonance_i sup !! "name" = Some "N") as Hnuc
    by (injection Hsup as <-; vm_compute; reflexivity).
  apply (proj2 (X10_tie_loop_requirements (chemex := lopsided_chemex) "G12N-HN"
                  demo_measurements demo_details sup 1%float false "N"
                  {[ "r2_i_b" := "r2_i_b_N" ]} {[ "r2_i_b_N" := Param 1%float None ]}
                  Hsup Hd1 Heq Hnuc eq_refl)).
  - reflexivity.
  - exists "r2_i_b". split; [by left|]. eexists. reflexivity.
  - intros short full _ Hfull.
    destruct (decide (short = "r2_i_b")) as [->|Hne].
    + rewrite lookup_singleton_eq in Hfull. injection Hfull as <-. eexists. reflexivity.
    + by rewrite lookup_singleton_ne in Hfull.
Defined.

(** ** String methods *)

Lemma rev_app_rev_app (s t u : string) :
  String.rev_app (String.rev_app s t) u = String.rev_app t (s +:+ u).
Proof.
  revert t u. induction s as [|a s IH]; intros t u; simpl; [done|].
  by rewrite IH.
Qed.

Lemma string_app_empty_r (s : string) : s +:+ "" = s.
Proof.
  induction s as [|a s IH]; [done|]. change (String a (s +:+ "") = String a s).
  by rewrite IH.
Qed.

Lemma rev_involutive (s : string) : String.rev (String.rev s) = s.
Proof.
  unfold String.rev. rewrite rev_app_rev_app. change (s +:+ "" = s). apply string_app_empty_r.
Qed.

Lemma starts_clean_rev_app (s t : string) :
  starts_clean (String.rev_app s t)
  = match s with EmptyString => starts_clean t | _ => ends_clean s end.
Proof.
  revert t. induction s as [|a s IH]; intros t; [done|].
  simpl. rewrite IH. by destruct s.
Qed.

Lemma starts_clean_rev (s : string) : starts_clean (String.rev s) = ends_clean s.
Proof. unfold String.rev. rewrite starts_clean_rev_app. by destruct s. Qed.

Lemma ends_clean_rev (s : string) : ends_clean (String.rev s) = starts_clean s.
Proof. by rewrite <- starts_clean_rev, rev_involutive. Qed.

Lemma lstrip_starts_clean (s : string) : starts_clean (reading.lstrip s) = true.
Proof.
  induction s as [|c s IH]; [done|]. simpl.
  destruct (reading.is_space c) eqn:Hc; [done|]. simpl. by rewrite Hc.
Qed.

Lemma lstrip_clean (s : string) : starts_clean s = true -> reading.lstrip s = s.
Proof.
  destruct s as [|c s]; [done|]. simpl. by destruct (reading.is_space c).
Qed.

Lemma lstrip_ends_clean (s : string) :
  ends_clean s = true -> ends_clean (reading.lstrip s) = true.
Proof.
  induction s as [|c s IH]; [done|]. intros Hs. simpl.
  destruct (reading.is_space c) eqn:Hc; [|done].
  destruct s as [|c' s]; [done|]. by apply IH.
Qed.

Lemma strip_clean (s : string) :
  starts_clean (reading.strip s) = true /\ ends_clean (reading.strip s) = true.
Proof.
  unfold reading.strip. rewrite starts_clean_rev, ends_clean_rev. split.
  - apply lstrip_ends_clean. rewrite ends_clean_rev. apply lstrip_starts_clean.
  - apply lstrip_starts_clean.
Qed.

Lemma strip_fixed (s : string) :
  starts_clean s = true -> ends_clean s = true -> reading.strip s = s.
Proof.
  intros Hstart Hend. unfold reading.strip. rewrite (lstrip_clean s Hstart).
  rewrite lstrip_clean by (by rewrite starts_clean_rev).
  apply rev_involutive.
Qed.

Lemma replace_twice (a b : ascii) (s : string) :
  a <> b -> reading.replace a b (reading.replace a b s) = reading.replace a b s.
Proof.
  intros Hab. induction s as [|c s IH]; [done|]. simpl. rewrite IH. f_equal.
  destruct (decide (c = a)) as [->|Hc].
  - by rewrite decide_False.
  - by rewrite decide_False.
Qed.

Lemma replace_absent (a b : ascii) (s : string) :
  a <> b -> a ∉ chars (reading.replace a b s).
Proof.
  intros Hab. induction s as [|c s IH]; simpl; [apply not_elem_of_nil|].
  apply not_elem_of_cons. split; [|done].
  destruct (decide (c = a)); congruence.
Qed.

Lemma replace_space_starts_clean (s : string) :
  starts_clean s = true -> starts_clean (reading.replace " " "_" s) = true.
Proof.
  destruct s as [|c s]; [done|]. simpl. destruct (decide (c = " "%char)) as [->|]; done.
Qed.

Lemma replace_space_ends_clean (s : string) :
  ends_clean s = true -> ends_clean (reading.replace " " "_" s) = true.
Proof.
  induction s as [|c s IH]; [done|]. intros Hs. simpl.
  destruct s as [|c' s].
  - simpl in *. destruct (decide (c = " "%char)) as [->|]; done.
  - simpl in *. by apply IH.
Qed.

Lemma lower_char_not_upper (c : ascii) : ~ is_upper (reading.lower_char c).
Proof.
  unfold reading.lower_char, is_upper.
  destruct (Nat.leb 65 (nat_of_ascii c) && Nat.leb (nat_of_ascii c) 90) eqn:Hup.
  - apply andb_true_iff in Hup as [H1%Nat.leb_le H2%Nat.leb_le].
    rewrite nat_ascii_embedding by lia. lia.
  - apply andb_false_iff in Hup as [H1%Nat.leb_gt|H2%Nat.leb_gt]; lia.
Qed.

Lemma lower_not_upper (s : string) (c : ascii) : c ∈ chars (reading.lower s) -> ~ is_upper c.
Proof.
  induction s as [|a s IH]; simpl; [by intros ?%elem_of_nil|].
  intros [->|Hin]%elem_of_cons; [apply lower_char_not_upper|by apply IH].
Qed.

(** ** The name of an experiment *)

Section ExperimentName.
Context {F : Type} {scalar : Scalar F} {env : reading.Env F}.

Lemma name_experiment_given (experiment_details : gmap string (pyval F)) (s : string) :
  experiment_details !! "name" = Some (PStr s) ->
  reading.name_experiment experiment_details
  = Ok (reading.replace " " "_" (reading.strip s)).
Proof. intros Hs. unfold reading.name_experiment. by rewrite Hs. Qed.

Lemma name_experiment_fixed (experiment_details : gmap string (pyval F)) (s : string) :
  let name := reading.replace " " "_" (reading.strip s) in
  reading.name_experiment (<["name" := PStr name]> experiment_details) = Ok name.
Proof.
  intros name. rewrite (name_experiment_given _ name) by (by rewrite lookup_insert_eq).
  destruct (strip_clean s) as [Hstart Hend]. unfold name.
  rewrite strip_fixed
    by (by (apply replace_space_starts_clean || apply replace_space_ends_clean)).
  by rewrite replace_twice.
Qed.

(** X11. A name given in the experiment details is normalized once and for
    all.  When the entry 'name' is a string, [name_experiment] returns it
    without leading and trailing whitespace and with every space replaced by
    an underscore: the result has no space and no whitespace at either end,
    and it is a fixed point, i.e. storing it under 'name' and naming the
    experiment again returns the same name. *)
Theorem X11_given_name_is_normalized (experiment_details : gmap string (pyval F))
  (s : string) :
  experiment_details !! "name" = Some (PStr s) ->
  exists name,
    reading.name_experiment experiment_details = Ok name /\
    (" "%char ∉ chars name) /\
    starts_clean name = true /\ ends_clean name = true /\
    reading.name_experiment (<["name" := PStr name]> experiment_details) = Ok name.
Proof.
  intros Hs. exists (reading.replace " " "_" (reading.strip s)).
  destruct (strip_clean s) as [Hstart Hend].
  assert (starts_clean (reading.replace " " "_" (reading.strip s)) = true) as Hstart'
    by (by apply replace_space_starts_clean).
  assert (ends_clean (reading.replace " " "_" (reading.strip s)) = true) as Hend'
    by (by apply replace_space_ends_clean).
  split; [|split; [|split; [|split]]]; try done.
  - by apply name_experiment_given.
  - by apply replace_absent.
  - apply name_experiment_fixed.
Qed.

(** X12. A name that is generated.  When the experiment details have no
    entry 'name', [name_experiment] needs the entries 'type', 'h_larmor_frq',
    'temperature' and 'time_t2', and fails if one of them is missing; the
    name it returns has no upper-case letter, whatever the formatting of the
    numbers produced. *)
Theorem X12_generated_name (experiment_details : gmap string (pyval F)) :
  experiment_details !! "name" = None ->
  (forall name,
     reading.name_experiment experiment_details = Ok name ->
     (forall c, c ∈ chars name -> ~ is_upper c) /\
     Forall (fun key => is_Some (experiment_details !! key))
            ["type"; "h_larmor_frq"; "temperature"; "time_t2"]) /\
  (forall key,
     key ∈ ["type"; "h_larmor_frq"; "temperature"; "time_t2"] ->
     experiment_details !! key = None ->
     is_ok (reading.name_experiment experiment_details) = false).
Proof.
  intros Hname.
  assert (forall name,
            reading.name_experiment experiment_details = Ok name ->
            (forall c, c ∈ chars name -> ~ is_upper c) /\
            Forall (fun key => is_Some (experiment_details !! key))
                   ["type"; "h_larmor_frq"; "temperature"; "time_t2"]) as Hok.
  { intros name. unfold reading.name_experiment. rewrite Hname. intros Hn.
    apply bind_ok_inv in Hn as (ty & Hty & Hn).
    apply bind_ok_inv in Hn as (ty_s & _ & Hn).
    apply bind_ok_inv in Hn as (frq & Hfrq & Hn).
    apply bind_ok_inv in Hn as (h & _ & Hn).
    apply bind_ok_inv in Hn as (tmp & Htmp & Hn).
    apply bind_ok_inv in Hn as (t & _ & Hn).
    apply bind_ok_inv in Hn as (t2 & Ht2 & Hn).
    apply bind_ok_inv in Hn as (time_t2 & _ & Hn).
    injection Hn as <-. split; [intros c; apply lower_not_upper|].
    unfold getitem in *.
    repeat constructor;
      match goal with
      | H : match experiment_details !! ?k with _ => _ end = Ok _
        |- is_Some (experiment_details !! ?k) =>
          destruct (experiment_details !! k); [eauto|discriminate]
      end. }
  split; [exact Hok|].
  intros key Hkey Hnone.
  destruct (reading.name_experiment experiment_details) as [name|e] eqn:Hn; [|done].
  destruct (Hok name eq_refl) as [_ Hall].
  rewrite Forall_forall in Hall. destruct (Hall key Hkey) as [v Hv]. congruence.
Qed.

End ExperimentName.

Lemma X11_given_name_is_normalized_witness :
  exists name,
    reading.name_experiment (env := demo_env float_of_Z) (demo_cpmg_details None) = Ok name /\
    name = "my_experiment".
Proof.
  destruct (X11_given_name_is_normalized (env := demo_env float_of_Z)
              (demo_cpmg_details None) " my experiment ")
    as (name & Hname & _); [vm_compute; reflexivity|].
  exists name. split; [exact Hname|].
  vm_compute in Hname. by injection Hname.
Defined.

Lemma X12_generated_name_witness :
  let details : gmap string (pyval float) :=
    <["type" := PStr "CPMG.N15_TR"]>
      (<["h_larmor_frq" := PNum 600%float]>
         (<["temperature" := PNum 25%float]> (<["time_t2" := PNum 0.5%float]> ∅))) in
  details !! "name" = None /\
  reading.name_experiment (env := demo_env float_of_Z) details = Ok "cpmg_n15_tr" /\
  (forall c, c ∈ chars "cpmg_n15_tr" -> ~ is_upper c).
Proof.
  intros details.
  assert (details !! "name" = None) as Hnone by (vm_compute; reflexivity).
  assert (reading.name_experiment (env := demo_env float_of_Z) details = Ok "cpmg_n15_tr")
    as Hname by (vm_compute; reflexivity).
  split; [exact Hnone|]. split; [exact Hname|].
  exact (proj1 (proj1 (X12_generated_name (env := demo_env float_of_Z) details Hnone)
                  "cpmg_n15_tr" Hname)).
Defined.

(** ** Reading: the dict, the selection, the files *)

Lemma for_each_Forall2 {A B : Type} (f : A -> result B) (l : list A) (r : list B) :
  for_each f l = Ok r <-> Forall2 (fun x y => f x = Ok y) l r.
Proof.
  revert r. induction l as [|x l IH]; intros r; simpl.
  - split; [intros [= <-]; constructor|]. by intros ->%Forall2_nil_inv_l.
  - destruct (f x) as [y|e] eqn:Hy; simpl.
    + destruct (for_each f l) as [ys|e] eqn:Hys; simpl.
      * split.
        -- intros [= <-]. constructor; [done|]. by apply IH.
        -- intros (y' & ys' & Hy' & Hys' & ->)%Forall2_cons_inv_l.
           apply IH in Hys'. congruence.
      * split; [done|].
        intros (y' & ys' & Hy' & Hys' & ->)%Forall2_cons_inv_l. by apply IH in Hys'.
    + split; [done|].
      intros (y' & ys' & Hy' & Hys' & ->)%Forall2_cons_inv_l. congruence.
Qed.

Lemma split_go_no_sep (sep : ascii) (cur s : string) :
  sep ∉ chars s -> reading.split_go sep cur s = [String.rev_app cur s].
Proof.
  revert cur. induction s as [|c s IH]; intros cur Hs; simpl; [done|].
  simpl in Hs. apply not_elem_of_cons in Hs as [Hc Hs].
  rewrite decide_False by done. by rewrite IH.
Qed.

Lemma split_go_sep (sep : ascii) (cur a b : string) :
  sep ∉ chars a ->
  reading.split_go sep cur (a +:+ String sep b)
  = String.rev_app cur a :: reading.split_go sep "" b.
Proof.
  revert cur. induction a as [|c a IH]; intros cur Ha.
  - simpl. by rewrite decide_True.
  - simpl in Ha. apply not_elem_of_cons in Ha as [Hc Ha].
    change (String c a +:+ String sep b) with (String c (a +:+ String sep b)).
    simpl. rewrite decide_False by done. by rewrite IH.
Qed.

Lemma split_no_sep (sep : ascii) (s : string) : sep ∉ chars s -> reading.split sep s = [s].
Proof. intros Hs. unfold reading.split. by rewrite split_go_no_sep. Qed.

Lemma split_sep (sep : ascii) (a b : string) :
  sep ∉ chars a -> reading.split sep (a +:+ String sep b) = a :: reading.split sep b.
Proof. intros Ha. unfold reading.split. by rewrite split_go_sep. Qed.

Section ReadingExtras.
Context {F : Type} {scalar : Scalar F} {env : reading.Env F}.
Implicit Types (experiment_details : gmap string (pyval F)).

Lemma skipped_selected (res_incl res_excl : option (list string)) (profile_name : string) :
  reading.skipped res_incl res_excl profile_name = false <->
  selected res_incl res_excl profile_name.
Proof.
  unfold reading.skipped, selected. rewrite orb_false_iff, !andb_false_iff. split.
  - intros [Hincl Hexcl]. split.
    + intros l -> Hl. destruct Hincl as [Ht|Hm].
      * by destruct l.
      * apply negb_false_iff in Hm. simpl in Hm. by apply bool_decide_eq_true in Hm.
    + intros l ->. destruct Hexcl as [Ht|Hm].
      * destruct l; [apply not_elem_of_nil|done].
      * simpl in Hm. by apply bool_decide_eq_false in Hm.
  - intros [Hincl Hexcl]. split.
    + destruct res_incl as [[|x l]|]; [by left|right|by left].
      apply negb_false_iff. simpl. apply bool_decide_eq_true. by apply Hincl.
    + destruct res_excl as [l|]; [right|by left].
      simpl. apply bool_decide_eq_false. by apply Hexcl.
Qed.

(** The loop of [read_profiles] is a comprehension over the files it does not
    skip. *)
Lemma load_profiles_for_each (Profile : reading.profile_class F) (path : string)
  experiment_details (res_incl res_excl : option (list string))
  (items : list (string * string)) :
  reading.load_profiles Profile path experiment_details res_incl res_excl items
  = for_each (fun item =>
                measurements ← reading.loadtxt (reading.path_join path item.2);
                Profile item.1 measurements experiment_details)
             (files_read res_incl res_excl items).
Proof.
  unfold files_read. induction items as [|[name filename] items IH]; [done|]. simpl.
  destruct (reading.skipped res_incl res_excl name); simpl; [done|].
  destruct (reading.loadtxt _) as [m|]; simpl; [|done].
  destruct (Profile name m experiment_details) as [p|]; simpl; [|done].
  by rewrite IH.
Qed.

(** X13. [read_profiles] changes the dict of experiment details at the entry
    'name' only.  Whatever the outcome of the call, every other entry is as
    it was; the dict is either untouched or has received the name computed by
    [name_experiment]; and when the call returns, that name is stored. *)
Theorem X13_only_the_name_is_assigned (path : string)
  (profile_filenames : list (string * string)) experiment_details
  (res_incl res_excl : option (list string)) :
  let outcome :=
    (reading.read_profiles path profile_filenames experiment_details res_incl res_excl).1 in
  let details' :=
    (reading.read_profiles path profile_filenames experiment_details res_incl res_excl).2 in
  (forall key, key <> "name" -> details' !! key = experiment_details !! key) /\
  (details' = experiment_details \/
   exists name, reading.name_experiment experiment_details = Ok name /\
                details' = <["name" := PStr name]> experiment_details) /\
  (is_ok outcome = true ->
   exists name, reading.name_experiment experiment_details = Ok name /\
                details' !! "name" = Some (PStr name)).
Proof.
  intros outcome details'. unfold outcome, details', reading.read_profiles.
  destruct (_ ← getitem experiment_details "type"; _) as [experiment_type|]; simpl.
  2:{ split; [done|]. split; [by left|done]. }
  destruct (reading.name_experiment experiment_details) as [name|]; simpl.
  2:{ split; [done|]. split; [by left|done]. }
  split; [intros key Hkey; by apply lookup_insert_ne|].
  split; [right; eauto|]. intros _. exists name. by rewrite lookup_insert_eq.
Qed.

End ReadingExtras.

Section ReadingSelection.
Context {F : Type} {scalar : Scalar F} {env : reading.Env F}.
Implicit Types (experiment_details : gmap string (pyval F)).

Lemma set_errors_keeps (details : gmap string (pyval F)) (built : list (reading.profile F)) :
  Forall2 (fun b p => reading.profile_name p = reading.profile_name b /\
                      reading.ncycs_ p = reading.ncycs_ b /\
                      reading.val p = reading.val b /\
                      length (reading.err p) = length (reading.err b))
          built (reading.set_errors details built).
Proof.
  unfold reading.set_errors. destruct (reading.is_auto _).
  - apply Forall2_fmap_r, Forall_Forall2_diag, Forall_forall. intros b _. simpl.
    by rewrite length_replicate.
  - apply Forall_Forall2_diag, Forall_forall. by intros b _.
Qed.

(** X14. The profiles returned follow the residue selection.  A call of
    [read_profiles] that returns gives one profile per file it reads, in the
    order of [profile_filenames]: each is the profile that the imported class
    built from the rows loaded from that file, up to its uncertainties.  The
    files read are those whose profile name is in [res_incl] (when that is
    given and not empty) and not in [res_excl]; an empty [res_incl] selects
    as an absent one does. *)
Theorem X14_profiles_follow_the_selection (path : string)
  (profile_filenames : list (string * string)) experiment_details
  (res_incl res_excl : option (list string)) (profiles : list (reading.profile F))
  (ndata : nat) (details' : gmap string (pyval F)) :
  reading.read_profiles path profile_filenames experiment_details res_incl res_excl
  = (Ok (profiles, ndata), details') ->
  (forall item,
     item ∈ files_read res_incl res_excl profile_filenames <->
     item ∈ profile_filenames /\ selected res_incl res_excl item.1) /\
  files_read (Some []) res_excl profile_filenames
  = files_read None res_excl profile_filenames /\
  length profiles = length (files_read res_incl res_excl profile_filenames) /\
  exists modname Profile,
    reading.import_profile_class modname = Ok Profile /\
    Forall2 (fun item p =>
               exists measurements b,
                 reading.loadtxt (reading.path_join path item.2) = Ok measurements /\
                 Profile item.1 measurements details' = Ok b /\
                 reading.profile_name p = reading.profile_name b /\
                 reading.ncycs_ p = reading.ncycs_ b /\
                 reading.val p = reading.val b /\
                 length (reading.err p) = length (reading.err b))
            (files_read res_incl res_excl profile_filenames) profiles.
Proof.
  intros Hread.
  apply read_profiles_inv in Hread
    as (name & modname & Profile & built & _ & _ & HProfile & Hbuilt & -> & _).
  rewrite load_profiles_for_each in Hbuilt. apply for_each_Forall2 in Hbuilt.
  assert (Forall2 (fun item p =>
                     exists measurements b,
                       reading.loadtxt (reading.path_join path item.2) = Ok measurements /\
                       Profile item.1 measurements details' = Ok b /\
                       reading.profile_name p = reading.profile_name b /\
                       reading.ncycs_ p = reading.ncycs_ b /\
                       reading.val p = reading.val b /\
                       length (reading.err p) = length (reading.err b))
                  (files_read res_incl res_excl profile_filenames)
                  (reading.set_errors details' built)) as Hall.
  { pose proof (set_errors_keeps details' built) as Hkeeps.
    revert Hkeeps. generalize (reading.set_errors details' built).
    induction Hbuilt as [|item b items bs Hb Hbs IH]; intros ps Hps.
    - apply Forall2_nil_inv_l in Hps as ->. constructor.
    - apply Forall2_cons_inv_l in Hps as (p & ps' & Hp & Hps' & ->).
      constructor; [|by apply IH].
      apply bind_ok_inv in Hb as (m & Hm & Hb). exists m, b. by destruct Hp as (? & ? & ? & ?). }
  split; [|split; [|split]].
  - intros item. unfold files_read. rewrite !list_elem_of_In, filter_In.
    by rewrite negb_true_iff, skipped_selected.
  - reflexivity.
  - symmetry. by apply Forall2_length in Hall.
  - eauto.
Qed.

(** X15. Reading again gives the same.  When the experiment details carry a
    name and a call of [read_profiles] returns, calling it again with the
    dict the first call left behind returns the same profiles and the same
    point count and leaves the dict as it is. *)
Theorem X15_reading_again_is_stable (path : string)
  (profile_filenames : list (string * string)) experiment_details
  (res_incl res_excl : option (list string)) (s : string)
  (result_ : list (reading.profile F) * nat) (details' : gmap string (pyval F)) :
  experiment_details !! "name" = Some (PStr s) ->
  reading.read_profiles path profile_filenames experiment_details res_incl res_excl
  = (Ok result_, details') ->
  reading.read_profiles path profile_filenames details' res_incl res_excl
  = (Ok result_, details').
Proof.
  intros Hs Hread. unfold reading.read_profiles in *.
  rewrite (name_experiment_given _ s Hs) in Hread.
  set (name := reading.replace " " "_" (reading.strip s)) in *.
  destruct (_ ← getitem experiment_details "type"; _) as [experiment_type|] eqn:Hty;
    [|discriminate].
  injection Hread as Hres <-.
  assert (getitem (<["name" := PStr name]> experiment_details) "type"
          = getitem experiment_details "type") as ->
    by (unfold getitem; by rewrite lookup_insert_ne).
  rewrite Hty. rewrite (name_experiment_fixed experiment_details s). fold name.
  rewrite insert_insert_eq. f_equal. exact Hres.
Qed.

Lemma read_profiles_typed (path : string) (profile_filenames : list (string * string))
  experiment_details (res_incl res_excl : option (list string))
  (ty t0 t1 name : string) (rest : list string) :
  experiment_details !! "type" = Some (PStr ty) ->
  reading.split "." ty = t0 :: t1 :: rest ->
  reading.name_experiment experiment_details = Ok name ->
  let details' := <["name" := PStr name]> experiment_details in
  reading.read_profiles path profile_filenames experiment_details res_incl res_excl
  = (Profile ← reading.import_profile_class (profile_module t0 t1);
     profiles ← reading.load_profiles Profile path details' res_incl res_excl
                  profile_filenames;
     Ok (reading.set_errors details' profiles,
         reading.count_points (reading.set_errors details' profiles)),
     details').
Proof.
  intros Hty Hsplit Hname details'. unfold reading.read_profiles, getitem.
  rewrite Hty. simpl. rewrite Hname, Hsplit. reflexivity.
Qed.

(** X16. An experiment type without a dot.  When the entry 'type' is a
    string without '.', and the experiment can be named, [read_profiles]
    raises [IndexError]; the dict has received the name all the same. *)
Theorem X16_type_without_dot (path : string) (profile_filenames : list (string * string))
  experiment_details (res_incl res_excl : option (list string)) (ty name : string) :
  experiment_details !! "type" = Some (PStr ty) ->
  "."%char ∉ chars ty ->
  reading.name_experiment experiment_details = Ok name ->
  reading.read_profiles path profile_filenames experiment_details res_incl res_excl
  = (Raise IndexError, <["name" := PStr name]> experiment_details).
Proof.
  intros Hty Hdot Hname. unfold reading.read_profiles, getitem.
  rewrite Hty. simpl. rewrite Hname. by rewrite (split_no_sep _ _ Hdot).
Qed.

(** X17. The module of the profile class.  For an experiment type [t0.t1],
    with or without further components after a second dot, the class that
    builds the profiles is the attribute [Profile] of the module
    [chemex.experiments.t0.profiles.t1]: if importing it fails the call
    raises that failure, once the dict has received its name, and if the
    call returns, that import has succeeded. *)
Theorem X17_profile_class_module (path : string) (profile_filenames : list (string * string))
  experiment_details (res_incl res_excl : option (list string)) (t0 t1 more name : string) :
  "."%char ∉ chars t0 -> "."%char ∉ chars t1 ->
  experiment_details !! "type" = Some (PStr (t0 +:+ "." +:+ t1)) \/
  experiment_details !! "type" = Some (PStr (t0 +:+ "." +:+ t1 +:+ "." +:+ more)) ->
  reading.name_experiment experiment_details = Ok name ->
  (forall e,
     reading.import_profile_class (profile_module t0 t1) = Raise e ->
     reading.read_profiles path profile_filenames experiment_details res_incl res_excl
     = (Raise e, <["name" := PStr name]> experiment_details)) /\
  (is_ok (reading.read_profiles path profile_filenames experiment_details res_incl
            res_excl).1 = true ->
   is_ok (reading.import_profile_class (profile_module t0 t1)) = true).
Proof.
  intros H0 H1 Hty Hname.
  assert (exists rest ty,
            experiment_details !! "type" = Some (PStr ty) /\
            reading.split "." ty = t0 :: t1 :: rest) as (rest & ty & Hty' & Hsplit).
  { destruct Hty as [Hty|Hty].
    - exists [], (t0 +:+ "." +:+ t1). split; [done|].
      change (t0 +:+ "." +:+ t1) with (t0 +:+ String "." t1).
      by rewrite split_sep, split_no_sep.
    - exists (reading.split "." more), (t0 +:+ "." +:+ t1 +:+ "." +:+ more). split; [done|].
      change (t0 +:+ "." +:+ t1 +:+ "." +:+ more)
        with (t0 +:+ String "." (t1 +:+ String "." more)).
      by rewrite !split_sep. }
  rewrite (read_profiles_typed _ _ _ _ _ ty t0 t1 name rest Hty' Hsplit Hname). split.
  - intros e ->. done.
  - simpl. by destruct (reading.import_profile_class (profile_module t0 t1)).
Qed.

(** X18. A file that cannot be loaded.  When the profile class is imported
    and [np.loadtxt] fails on one of the files that the selection keeps,
    [read_profiles] returns no profiles at all: it raises, and when the
    files before that one are loaded and built it raises the failure of
    [np.loadtxt]. *)
Theorem X18_unreadable_file (path : string) (before after : list (string * string))
  (profile_name filename : string) experiment_details
  (res_incl res_excl : option (list string)) (t0 t1 name : string)
  (Profile : reading.profile_class F) (e : exn) :
  "."%char ∉ chars t0 -> "."%char ∉ chars t1 ->
  experiment_details !! "type" = Some (PStr (t0 +:+ "." +:+ t1)) ->
  reading.name_experiment experiment_details = Ok name ->
  reading.import_profile_class (profile_module t0 t1) = Ok Profile ->
  reading.skipped res_incl res_excl profile_name = false ->
  reading.loadtxt (reading.path_join path filename) = Raise e ->
  let files := (before ++ (profile_name, filename) :: after)%list in
  let details' := <["name" := PStr name]> experiment_details in
  is_ok (reading.read_profiles path files experiment_details res_incl res_excl).1 = false /\
  (is_ok (reading.load_profiles Profile path details' res_incl res_excl before) = true ->
   reading.read_profiles path files experiment_details res_incl res_excl
   = (Raise e, details')).
Proof.
  intros H0 H1 Hty Hname HProfile Hskip Hload files details'.
  assert (reading.split "." (t0 +:+ "." +:+ t1) = [t0; t1]) as Hsplit.
  { change (t0 +:+ "." +:+ t1) with (t0 +:+ String "." t1).
    by rewrite split_sep, split_no_sep. }
  rewrite (read_profiles_typed _ _ _ _ _ _ t0 t1 name [] Hty Hsplit Hname).
  rewrite HProfile. fold details'. simpl. rewrite !load_profiles_for_each. unfold files, files_read.
  rewrite List.filter_app. simpl. rewrite Hskip. simpl.
  set (f := fun item : string * string =>
              measurements ← reading.loadtxt (reading.path_join path item.2);
              Profile item.1 measurements details').
  set (kept := List.filter _ before).
  assert (f (profile_name, filename) = Raise e) as Hf by (unfold f; simpl; by rewrite Hload).
  set (rest := List.filter _ after).
  split.
  - assert (is_ok (for_each f (kept ++ (profile_name, filename) :: rest)) = false) as Hnot.
    { apply (for_each_not_ok f _ (profile_name, filename)); [|by rewrite Hf].
      apply elem_of_app. right. by left. }
    by destruct (for_each f (kept ++ (profile_name, filename) :: rest)).
  - intros Hbefore.
    destruct (for_each f kept) as [built|] eqn:Hbuilt; [|done].
    apply for_each_Forall2 in Hbuilt.
    rewrite (for_each_raise f _ (length kept) (profile_name, filename) e); [done| |done|].
    + by rewrite list_lookup_middle.
    + intros j item Hj Hitem. rewrite lookup_app_l in Hitem by done.
      destruct (Forall2_lookup_l _ _ _ _ _ Hbuilt Hitem) as (b & _ & Hb). by rewrite Hb.
Qed.

End ReadingSelection.

Ltac not_in_chars :=
  let Hin := fresh "Hin" in
  simpl; intros Hin;
  repeat (apply elem_of_cons in Hin as [Hin|Hin]; [discriminate|]);
  by apply elem_of_nil in Hin.

Lemma X13_only_the_name_is_assigned_witness :
  let call :=
    reading.read_profiles (env := demo_env float_of_Z) "data" demo_files
      (demo_cpmg_details (Some "auto")) None None in
  is_ok call.1 = true /\
  call.2 !! "name" = Some (PStr "my_experiment") /\
  call.2 !! "type" = Some (PStr "cpmg.n15_tr").
Proof.
  intros call.
  assert (is_ok call.1 = true) as Hok by (vm_compute; reflexivity).
  destruct (X13_only_the_name_is_assigned (env := demo_env float_of_Z) "data" demo_files
              (demo_cpmg_details (Some "auto")) None None) as (Hother & _ & Hname).
  split; [exact Hok|]. split.
  - destruct (Hname Hok) as (name & Hn & Hstored).
    assert (reading.name_experiment (env := demo_env float_of_Z)
              (demo_cpmg_details (Some "auto")) = Ok "my_experiment") as Hn'
      by (vm_compute; reflexivity).
    assert (name = "my_experiment") as -> by congruence. exact Hstored.
  - unfold call. rewrite (Hother "type") by discriminate. vm_compute. reflexivity.
Defined.

Lemma X14_profiles_follow_the_selection_witness :
  exists profiles ndata details',
    reading.read_profiles (env := demo_env float_of_Z) "data" demo_files
      (demo_cpmg_details None) (Some []) (Some ["A13N-HN"])
    = (Ok (profiles, ndata), details') /\
    length profiles = 2.
Proof.
  destruct (reading.read_profiles (env := demo_env float_of_Z) "data" demo_files
              (demo_cpmg_details None) (Some []) (Some ["A13N-HN"]))
    as [[[profiles ndata]|e] details'] eqn:Hread; [|vm_compute in Hread; discriminate].
  exists profiles, ndata, details'. split; [reflexivity|].
  destruct (X14_profiles_follow_the_selection _ _ _ _ _ _ _ _ Hread) as (_ & _ & Hlen & _).
  rewrite Hlen. vm_compute. reflexivity.
Defined.

Lemma X15_reading_again_is_stable_witness :
  exists result_ details',
    reading.read_profiles (env := demo_env float_of_Z) "data" demo_files
      (demo_cpmg_details None) None None = (Ok result_, details') /\
    reading.read_profiles (env := demo_env float_of_Z) "data" demo_files details' None None
    = (Ok result_, details').
Proof.
  destruct (reading.read_profiles (env := demo_env float_of_Z) "data" demo_files
              (demo_cpmg_details None) None None)
    as [[result_|e] details'] eqn:Hread; [|vm_compute in Hread; discriminate].
  exists result_, details'. split; [reflexivity|].
  apply (X15_reading_again_is_stable (env := demo_env float_of_Z) "data" demo_files
           (demo_cpmg_details None) None None " my experiment ");
    [vm_compute; reflexivity|exact Hread].
Defined.

Lemma X16_type_without_dot_witness :
  let details : gmap string (pyval float) :=
    <["type" := PStr "cpmg"]> (demo_cpmg_details None) in
  reading.read_profiles (env := demo_env float_of_Z) "data" demo_files details None None
  = (Raise IndexError, <["name" := PStr "my_experiment"]> details).
Proof.
  intros details.
  apply (X16_type_without_dot (env := demo_env float_of_Z) "data" demo_files details
           None None "cpmg" "my_experiment");
    [vm_compute; reflexivity|not_in_chars|vm_compute; reflexivity].
Defined.

Lemma X17_profile_class_module_witness :
  let details : gmap string (pyval float) :=
    <["type" := PStr "cpmg.unknown.v2"]> (demo_cpmg_details None) in
  reading.import_profile_class (Env := demo_env float_of_Z) (profile_module "cpmg" "unknown")
  = Raise ImportError /\
  reading.read_profiles (env := demo_env float_of_Z) "data" demo_files details None None
  = (Raise ImportError, <["name" := PStr "my_experiment"]> details).
Proof.
  intros details.
  assert (reading.import_profile_class (Env := demo_env float_of_Z)
            (profile_module "cpmg" "unknown") = Raise ImportError) as Himport
    by (vm_compute; reflexivity).
  split; [exact Himport|].
  assert ("."%char ∉ chars "cpmg") as H0 by not_in_chars.
  assert ("."%char ∉ chars "unknown") as H1 by not_in_chars.
  assert (details !! "type" = Some (PStr ("cpmg" +:+ "." +:+ "unknown" +:+ "." +:+ "v2")))
    as Hty by (vm_compute; reflexivity).
  assert (reading.name_experiment (env := demo_env float_of_Z) details = Ok "my_experiment")
    as Hname by (vm_compute; reflexivity).
  exact (proj1 (X17_profile_class_module (env := demo_env float_of_Z) "data" demo_files
                  details None None "cpmg" "unknown" "v2" "my_experiment"
                  H0 H1 (or_intror Hty) Hname) ImportError Himport).
Defined.

Lemma X18_unreadable_file_witness :
  reading.loadtxt (Env := picky_env) (reading.path_join (Env := picky_env) "data" "A13N-HN.out")
  = Raise OSError /\
  reading.read_profiles (env := picky_env) "data" demo_files (demo_cpmg_details None) None None
  = (Raise OSError, <["name" := PStr "my_experiment"]> (demo_cpmg_details None)).
Proof.
  assert (reading.loadtxt (Env := picky_env)
            (reading.path_join (Env := picky_env) "data" "A13N-HN.out") = Raise OSError)
    as Hload by (vm_compute; reflexivity).
  split; [exact Hload|].
  destruct (reading.import_profile_class (Env := picky_env) (profile_module "cpmg" "n15_tr"))
    as [Profile|e] eqn:HProfile; [|vm_compute in HProfile; discriminate].
  assert ("."%char ∉ chars "cpmg") as H0 by not_in_chars.
  assert ("."%char ∉ chars "n15_tr") as H1 by not_in_chars.
  assert (demo_cpmg_details None !! "type" = Some (PStr ("cpmg" +:+ "." +:+ "n15_tr")))
    as Hty by (vm_compute; reflexivity).
  assert (reading.name_experiment (env := picky_env) (demo_cpmg_details None)
          = Ok "my_experiment") as Hname by (vm_compute; reflexivity).
  assert (reading.skipped None None "A13N-HN" = false) as Hskip by reflexivity.
  apply (proj2 (X18_unreadable_file (env := picky_env) "data" [("G12N-HN", "G12N-HN.out")]
                  [("L14N-HN", "L14N-HN.out")] "A13N-HN" "A13N-HN.out"
                  (demo_cpmg_details None) None None "cpmg" "n15_tr" "my_experiment"
                  Profile OSError H0 H1 Hty Hname HProfile Hskip Hload)).
  vm_compute in HProfile. injection HProfile as <-. vm_compute. reflexivity.
Defined.
